(** * HSD Lite Annotator (app_v2.py): a shallow embedding and its properties

    The development follows the layout of the script:
    - [PyStr], [PosixPath], [PyList], [PyDict]: the string, path, list and
      dictionary primitives the script calls ([str.endswith], [str.replace],
      [os.path.join], [os.path.basename], [os.path.relpath], [list.index],
      [sorted], insertion-ordered [dict]);
    - [XlsxWriter]: what [worksheet.write] stores for a string;
    - [Disk]: the directory tree behind [os.path.exists], [os.walk],
      [os.makedirs] and file writes;
    - [App]: the session state, [scan_png_directory],
      [save_annotation_and_next], [create_export_zip], the widget handlers of
      the script body, and the vocabulary of the statements;
    - [Page], [Form]: the rest of the page, and the metadata form with the
      state Streamlit keeps for its widgets;
    - [Sample]: a few concrete worlds;
    - then the facts, component by component: strings and paths,
      dictionaries, the directory tree, mask persistence, navigation, the
      annotation table, the scanner, the session invariant, the export. *)

From Stdlib Require Import String Ascii ZArith List Lia Permutation.
From stdpp Require Import base tactics option list strings sorting.
Import ListNotations.

Local Open Scope string_scope.

(* ===================================================================== *)
(** * Python string primitives *)
(* ===================================================================== *)

Module PyStr.

(** [s.startswith(p)] *)
Definition startswith (s p : string) : bool := String.prefix p s.

(** [s.endswith(suf)]: some tail of [s] is [suf]. *)
Fixpoint endswith (s suf : string) : bool :=
  if String.eqb s suf then true
  else match s with
       | EmptyString => false
       | String _ s' => endswith s' suf
       end.

(** Scanning loop of [s.replace(old, new)] for a non-empty [old]:
    [skip] counts the characters of a match still to be consumed. *)
Fixpoint replace_go (old new : string) (skip : nat) (s : string) : string :=
  match s with
  | EmptyString => EmptyString
  | String c s' =>
      match skip with
      | S k => replace_go old new k s'
      | O =>
          if String.prefix old s
          then new +:+ replace_go old new (Nat.pred (String.length old)) s'
          else String c (replace_go old new O s')
      end
  end.

(** With an empty [old], Python inserts [new] around every character. *)
Fixpoint intersperse (new s : string) : string :=
  match s with
  | EmptyString => new
  | String c s' => new +:+ String c (intersperse new s')
  end.

(** [s.replace(old, new)]: every non-overlapping occurrence, left to right. *)
Definition replace (s old new : string) : string :=
  match old with
  | EmptyString => intersperse new s
  | String _ _ => replace_go old new O s
  end.

(** [s.find(sub)]: the lowest index at which [sub] occurs, [None] for -1. *)
Fixpoint find (s sub : string) : option nat :=
  if String.prefix sub s then Some O
  else match s with
       | EmptyString => None
       | String _ s' => option_map S (find s' sub)
       end.

(** [s[:len(s) - n]] for [n <= len(s)] *)
Definition drop_end (n : nat) (s : string) : string :=
  String.substring 0 (String.length s - n) s.

End PyStr.

(* ===================================================================== *)
(** * posixpath *)
(* ===================================================================== *)

Module PosixPath.

Definition sep : ascii := "/"%char.

(** [os.path.join(a, b)] *)
Definition join (a b : string) : string :=
  if PyStr.startswith b "/" then b
  else if String.eqb a "" || PyStr.endswith a "/" then a +:+ b
  else a +:+ "/" +:+ b.

(** [p.split('/')] *)
Fixpoint split (p : string) : list string :=
  match p with
  | EmptyString => [EmptyString]
  | String c p' =>
      if Ascii.eqb c sep then EmptyString :: split p'
      else match split p' with
           | [] => [String c EmptyString]
           | w :: ws => String c w :: ws
           end
  end.

(** ['/' in p] *)
Fixpoint has_slash (p : string) : bool :=
  match p with
  | EmptyString => false
  | String c p' => Ascii.eqb c sep || has_slash p'
  end.

(** [os.path.basename(p)]: what follows the last slash. *)
Definition basename (p : string) : string := List.last (split p) EmptyString.

Definition isabs (p : string) : bool := PyStr.startswith p "/".

(** The component stack of [normpath]: empty and [.] components vanish,
    [..] pops (and is dropped at the root of an absolute path). *)
Fixpoint norm_go (stack : list string) (comps : list string) : list string :=
  match comps with
  | [] => List.rev stack
  | c :: cs =>
      if String.eqb c "" || String.eqb c "." then norm_go stack cs
      else if String.eqb c ".."
           then norm_go (List.tl stack) cs
           else norm_go (c :: stack) cs
  end.

(** The non-empty components of [os.path.abspath(p)], the process working
    directory being [cwd]. *)
Definition components (cwd p : string) : list string :=
  norm_go [] (split (if isabs p then p else join cwd p)).

Fixpoint common_prefix_len (xs ys : list string) : nat :=
  match xs, ys with
  | x :: xs', y :: ys' =>
      if String.eqb x y then S (common_prefix_len xs' ys') else O
  | _, _ => O
  end.

(** [os.path.join( *parts )] *)
Definition join_all (parts : list string) : string :=
  match parts with
  | [] => EmptyString
  | p :: ps => List.fold_left join ps p
  end.

(** [os.path.relpath(path, start)] *)
Definition relpath (cwd path start : string) : string :=
  let start_list := components cwd start in
  let path_list := components cwd path in
  let i := common_prefix_len start_list path_list in
  let rel_list :=
    (List.repeat ".." (List.length start_list - i) ++ List.skipn i path_list)%list in
  match rel_list with
  | [] => "."
  | _ => join_all rel_list
  end.

End PosixPath.

(* ===================================================================== *)
(** * Python lists and insertion-ordered dictionaries *)
(* ===================================================================== *)

Module PyList.

(** [l[i]] for a Python integer [i]: negative indices count from the end,
    anything else out of range is an [IndexError] ([None]). *)
Definition getitem {A : Type} (l : list A) (i : Z) : option A :=
  if (0 <=? i)%Z then List.nth_error l (Z.to_nat i)
  else if (- Z.of_nat (List.length l) <=? i)%Z
       then List.nth_error l (Z.to_nat (Z.of_nat (List.length l) + i))
       else None.

(** [l.index(x)]: position of the first occurrence, [None] for [ValueError]. *)
Fixpoint index (l : list string) (x : string) : option nat :=
  match l with
  | [] => None
  | y :: l' => if String.eqb y x then Some O else option_map S (index l' x)
  end.

(** [x in l] *)
Definition contains (l : list string) (x : string) : bool :=
  List.existsb (String.eqb x) l.

(** [sorted(l)] on strings: the order is total and equal strings are
    identical, so the result does not depend on the algorithm. *)
Definition sorted (l : list string) : list string := merge_sort String.le l.

End PyList.

Module PyDict.
Section Dict.
Context {V : Type}.

(** [d[k]], [None] for [KeyError]. *)
Fixpoint get (d : list (string * V)) (k : string) : option V :=
  match d with
  | [] => None
  | (k', v) :: d' => if String.eqb k' k then Some v else get d' k
  end.

(** [d[k] = v]: an existing key keeps its position, a new key goes last. *)
Fixpoint set (d : list (string * V)) (k : string) (v : V) : list (string * V) :=
  match d with
  | [] => [(k, v)]
  | (k', v') :: d' =>
      if String.eqb k' k then (k', v) :: d' else (k', v') :: set d' k v
  end.

(** [list(d.keys())] *)
Definition keys (d : list (string * V)) : list string := List.map fst d.

End Dict.
End PyDict.

(* ===================================================================== *)
(** * The worksheet writer behind [df.to_excel] *)
(* ===================================================================== *)

Module XlsxWriter.

(** What a worksheet cell holds after [worksheet.write(row, col, token,
    format)] for a string [token], as pandas calls it for every header and
    body cell. [Formula] and [Hyperlink] carry the token handed on to
    [write_formula] and [write_url]; what these two make of it is not part
    of the model. *)
Inductive cell : Type :=
| Blank
| Formula (token : string)
| Hyperlink (token : string)
| Str (s : string).

(** [xls_strmax], the longest string a cell takes. *)
Definition xls_strmax : N := 32767.

(** [s[:n]] *)
Fixpoint take (s : string) (n : N) : string :=
  match s with
  | EmptyString => EmptyString
  | String c s' => if N.eqb n 0 then EmptyString else String c (take s' (N.pred n))
  end.

(** [re.match("(ftp|http)s?://", token) or re.match("mailto:", token)
    or re.match("(in|ex)ternal:", token)]; each of them has a colon, so
    [":" in token] holds with it. *)
Definition is_url (token : string) : bool :=
  List.existsb (fun p => PyStr.startswith token p)
    ["ftp://"; "ftps://"; "http://"; "https://"; "mailto:"; "internal:"; "external:"].

(** [write] on a string, with the workbook options left at their defaults
    ([strings_to_formulas] and [strings_to_urls] on, [strings_to_numbers]
    off), as [pd.ExcelWriter(buffer, engine='xlsxwriter')] leaves them:
    the empty string is a blank cell, a string starting with [=] (or of
    the form [{=...}]) goes to [write_formula], a URL to [write_url], and
    any other string is stored, cut to [xls_strmax] characters. *)
Definition write (token : string) : cell :=
  if String.eqb token "" then Blank
  else if PyStr.startswith token "=" then Formula token
  else if PyStr.startswith token "{=" && PyStr.endswith token "}" then Formula token
  else if is_url token then Hyperlink token
  else Str (take token xls_strmax).

(** The strings [write] stores as they are. *)
Definition plain (token : string) : bool :=
  negb (String.eqb token "")
  && negb (PyStr.startswith token "=")
  && negb (PyStr.startswith token "{=" && PyStr.endswith token "}")
  && negb (is_url token)
  && (N.of_nat (String.length token) <=? xls_strmax)%N.

End XlsxWriter.

(* ===================================================================== *)
(** * The directory tree *)
(* ===================================================================== *)

Module Disk.

(** An RGBA pixel and an image buffer (rows of pixels). *)
Definition rgba : Type := Z * Z * Z * Z.
Definition pixels : Type := list (list rgba).

(** What a regular file holds: a PNG written by [Image.save], or bytes the
    program never looks into. *)
Inductive content : Type :=
| PngRGBA (px : pixels)
| Blob (bytes : string).

Local Unset Elimination Schemes.
(** A directory lists its entries in [os.scandir] order. *)
Inductive node : Type :=
| File (c : content)
| Dir (entries : list (string * node)).
Local Set Elimination Schemes.

Definition is_dir (n : node) : bool :=
  match n with Dir _ => true | File _ => false end.

(** Follow path components from [n]; the first entry of a name is the one
    the name denotes. *)
Fixpoint resolve (n : node) (comps : list string) : option node :=
  match comps with
  | [] => Some n
  | c :: cs =>
      match n with
      | File _ => None
      | Dir es =>
          match PyDict.get es c with
          | Some child => resolve child cs
          | None => None
          end
      end
  end.

Definition read_file (n : node) (comps : list string) : option content :=
  match resolve n comps with
  | Some (File c) => Some c
  | _ => None
  end.

Definition dirnames (es : list (string * node)) : list string :=
  List.map fst (List.filter (fun e => is_dir (snd e)) es).

Definition filenames (es : list (string * node)) : list string :=
  List.map fst (List.filter (fun e => negb (is_dir (snd e))) es).

(** [os.walk(top)] (top-down, errors ignored) on the node [top] names:
    one triple [(dirpath, dirnames, filenames)] per directory. *)
Fixpoint walk (top : string) (n : node) : list (string * list string * list string) :=
  match n with
  | File _ => []
  | Dir es =>
      (top, dirnames es, filenames es)
        :: List.flat_map
             (fun e => match e with
                       | (name, child) => walk (PosixPath.join top name) child
                       end) es
  end.

(** [os.makedirs(path, exist_ok=True)] along [comps]: missing directories
    are created, existing ones kept; a regular file in the way is an
    [OSError] ([None]). *)
Fixpoint makedirs (n : node) (comps : list string) : option node :=
  match n with
  | File _ => None
  | Dir es =>
      match comps with
      | [] => Some n
      | c :: cs =>
          match makedirs (default (Dir []) (PyDict.get es c)) cs with
          | Some child' => Some (Dir (PyDict.set es c child'))
          | None => None
          end
      end
  end.

(** Create or truncate the regular file at [comps] and write [c]: the
    parent must be an existing directory and the target must not be a
    directory, otherwise [OSError] ([None]). *)
Fixpoint write_file (n : node) (comps : list string) (c : content) : option node :=
  match n, comps with
  | Dir es, [name] =>
      match PyDict.get es name with
      | Some (Dir _) => None
      | _ => Some (Dir (PyDict.set es name (File c)))
      end
  | Dir es, name :: rest =>
      match PyDict.get es name with
      | Some child =>
          match write_file child rest c with
          | Some child' => Some (Dir (PyDict.set es name child'))
          | None => None
          end
      | None => None
      end
  | _, _ => None
  end.

(** Every existing prefix of [comps] is a directory: what [makedirs]
    needs to succeed. *)
Fixpoint dirs_free (n : node) (comps : list string) : bool :=
  match n with
  | File _ => false
  | Dir es =>
      match comps with
      | [] => true
      | c :: cs =>
          match PyDict.get es c with
          | Some child => dirs_free child cs
          | None => true
          end
      end
  end.

(** [comps] does not name a directory. *)
Definition not_a_dir (n : node) (comps : list string) : bool :=
  match resolve n comps with
  | Some (Dir _) => false
  | _ => true
  end.

(** A name a directory entry can have. *)
Definition valid_name (s : string) : bool :=
  negb (String.eqb s "") && negb (String.eqb s ".") && negb (String.eqb s "..")
  && match PosixPath.split s with [_] => true | _ => false end.

Fixpoint distinct (names : list string) : bool :=
  match names with
  | [] => true
  | x :: rest => negb (PyList.contains rest x) && distinct rest
  end.

(** A tree a filesystem can hold: in every directory the names are valid
    and pairwise distinct. *)
Fixpoint wf (n : node) : bool :=
  match n with
  | File _ => true
  | Dir es =>
      List.forallb valid_name (List.map fst es)
      && distinct (List.map fst es)
      && List.forallb (fun e => match e with (_, child) => wf child end) es
  end.

End Disk.

(* ===================================================================== *)
(** * The application *)
(* ===================================================================== *)

Module App.

Local Open Scope Z_scope.

(** ** 1. State management *)

(** A value of [file_tree]: [{"path": ..., "base_names": ...}]. *)
Record folder_entry : Type := {
  path : string;
  base_names : list string
}.

(** A row of the [annotations] DataFrame. *)
Record annotation : Type := {
  Folder : string;
  Base_Filename : string;
  Tag : string;
  Mask_Saved : string;
  Notes : string
}.

Definition columns : list string :=
  ["Folder"; "Base_Filename"; "Tag"; "Mask_Saved"; "Notes"].

(** [st.session_state] *)
Record session_state : Type := {
  scan_complete : bool;
  file_tree : list (string * folder_entry);
  annotations : list annotation;
  current_folder : option string;
  current_img_idx : Z
}.

Definition initial_state : session_state := {|
  scan_complete := false;
  file_tree := [];
  annotations := [];
  current_folder := None;
  current_img_idx := 0
|}.

(** What a script run shows. *)
Inductive message : Type :=
| st_error (text : string)
| st_success (text : string)
| st_info (text : string).

(** The process: working directory, disk, session, and what is on screen. *)
Record world : Type := {
  cwd : string;
  disk : Disk.node;
  session : session_state;
  screen : list message
}.

Definition DATA_DIR (w : world) : string := PosixPath.join (cwd w) "_precomputed_data".
Definition MASKS_DIR (w : world) : string := PosixPath.join (cwd w) "_masks".

(** ** Exceptions and the script monad *)

Inductive exn : Type :=
| KeyError
| IndexError
| ValueError
| NameError
| OSError.

(** A piece of script either returns, asks for a rerun ([st.rerun()]), or
    raises; the world reached so far is kept in every case. *)
Inductive outcome (A : Type) : Type :=
| Done (a : A)
| Rerun
| Raised (e : exn).
Arguments Done {A} a.
Arguments Rerun {A}.
Arguments Raised {A} e.

Definition M (A : Type) : Type := world -> world * outcome A.

Definition ret {A : Type} (a : A) : M A := fun w => (w, Done a).

Definition bind {A B : Type} (m : M A) (k : A -> M B) : M B :=
  fun w =>
    match m w with
    | (w', Done a) => k a w'
    | (w', Rerun) => (w', Rerun)
    | (w', Raised e) => (w', Raised e)
    end.

Notation "x <~ m ; k" := (bind m (fun x => k))
  (at level 20, m at level 100, k at level 200, only parsing).
Notation "m >> k" := (bind m (fun _ => k))
  (at level 100, k at level 200, right associativity, only parsing).

Definition raise {A : Type} (e : exn) : M A := fun w => (w, Raised e).
Definition st_rerun {A : Type} : M A := fun w => (w, Rerun).

Definition get_world : M world := fun w => (w, Done w).
Definition get_session : M session_state := fun w => (w, Done (session w)).

Definition with_disk (w : world) (d : Disk.node) : world :=
  {| cwd := cwd w; disk := d; session := session w; screen := screen w |}.

Definition with_session (w : world) (s : session_state) : world :=
  {| cwd := cwd w; disk := disk w; session := s; screen := screen w |}.

Definition with_message (w : world) (m : message) : world :=
  {| cwd := cwd w; disk := disk w; session := session w;
     screen := (screen w ++ [m])%list |}.

Definition put_disk (d : Disk.node) : M unit := fun w => (with_disk w d, Done tt).

Definition put_session (s : session_state) : M unit :=
  fun w => (with_session w s, Done tt).

Definition show (m : message) : M unit := fun w => (with_message w m, Done tt).

(** [x] or raise [e] *)
Definition or_raise {A : Type} (e : exn) (x : option A) : M A :=
  match x with
  | Some a => ret a
  | None => raise e
  end.

(** ** Filesystem calls of the script *)

Definition os_path_exists (w : world) (p : string) : bool :=
  match Disk.resolve (disk w) (PosixPath.components (cwd w) p) with
  | Some _ => true
  | None => false
  end.

Definition os_walk (w : world) (top : string) : list (string * list string * list string) :=
  match Disk.resolve (disk w) (PosixPath.components (cwd w) top) with
  | Some n => Disk.walk top n
  | None => []
  end.

Definition os_makedirs (p : string) : M unit :=
  w <~ get_world ;
  d <~ or_raise OSError (Disk.makedirs (disk w) (PosixPath.components (cwd w) p)) ;
  put_disk d.

(** [mask_data.astype("uint8")] *)
Definition astype_uint8 (px : Disk.pixels) : Disk.pixels :=
  List.map (List.map (fun p : Disk.rgba =>
    match p with
    | (r, g, b, a) => (r mod 256, g mod 256, b mod 256, a mod 256)
    end)) px.

(** [Image.fromarray(px, mode="RGBA").save(p)] *)
Definition image_save (p : string) (px : Disk.pixels) : M unit :=
  w <~ get_world ;
  d <~ or_raise OSError
         (Disk.write_file (disk w) (PosixPath.components (cwd w) p) (Disk.PngRGBA px)) ;
  put_disk d.

(** ** 2. Logic functions *)

Definition raw_suffix : string := "_raw.png".

(** Loop body of [scan_png_directory], lines 40-47. *)
Definition scan_step (tree : list (string * folder_entry))
    (entry : string * list string * list string) : list (string * folder_entry) :=
  match entry with
  | (dirpath, _, filenames) =>
      let raw_files := List.filter (fun f => PyStr.endswith f raw_suffix) filenames in
      match raw_files with
      | [] => tree
      | _ :: _ =>
          let folder_name := PosixPath.basename dirpath in
          let base_names :=
            PyList.sorted (List.map (fun f => PyStr.replace f raw_suffix "") raw_files) in
          PyDict.set tree folder_name {| path := dirpath; base_names := base_names |}
      end
  end.

Definition scan_error_missing (root_path : string) : message :=
  st_error ("Cannot find `" +:+ root_path
            +:+ "`. Please ensure your precomputed data is uploaded.").

Definition scan_error_empty : message :=
  st_error "No valid PNG sets found. Make sure files end with `_raw.png`.".

Definition scan_png_directory (root_path : string) : M unit :=
  w <~ get_world ;
  if negb (os_path_exists w root_path) then show (scan_error_missing root_path)
  else
    let tree := List.fold_left scan_step (os_walk w root_path) [] in
    match PyDict.keys tree with
    | first :: _ =>
        put_session {| scan_complete := true;
                       file_tree := tree;
                       annotations := annotations (session w);
                       current_folder := Some first;
                       current_img_idx := 0 |}
    | [] => show scan_error_empty
    end.

(** Mask persistence, lines 59-70: returns [mask_saved_status]. *)
Definition mask_path (w : world) (folder base_name : string) : string :=
  PosixPath.join (PosixPath.join (MASKS_DIR w) folder) (base_name +:+ "_mask.png").

Definition persist_mask (folder base_name : string) (mask_data : option Disk.pixels)
    : M string :=
  match mask_data with
  | None => ret "No"
  | Some px =>
      w <~ get_world ;
      let folder_mask_dir := PosixPath.join (MASKS_DIR w) folder in
      os_makedirs folder_mask_dir >>
      image_save (PosixPath.join folder_mask_dir (base_name +:+ "_mask.png"))
                      (astype_uint8 px) >>
      ret "Yes"
  end.

Definition same_key (r1 r2 : annotation) : bool :=
  String.eqb (Folder r1) (Folder r2) && String.eqb (Base_Filename r1) (Base_Filename r2).

(** [df.drop_duplicates(subset=['Folder', 'Base_Filename'], keep='last')]:
    a row goes when a later row has its key. *)
Fixpoint drop_duplicates_keep_last (t : list annotation) : list annotation :=
  match t with
  | [] => []
  | r :: t' =>
      if List.existsb (same_key r) t' then drop_duplicates_keep_last t'
      else r :: drop_duplicates_keep_last t'
  end.

(** Record building, lines 72-80: [pd.concat] then [drop_duplicates]. *)
Definition upsert (t : list annotation)
    (folder base_name tag notes mask_saved_status : string) : list annotation :=
  drop_duplicates_keep_last
    (t ++ [{| Folder := folder; Base_Filename := base_name; Tag := tag;
              Mask_Saved := mask_saved_status; Notes := notes |}])%list.

Definition set_annotations (s : session_state) (t : list annotation) : session_state :=
  {| scan_complete := scan_complete s; file_tree := file_tree s; annotations := t;
     current_folder := current_folder s; current_img_idx := current_img_idx s |}.

Definition set_position (s : session_state) (folder : option string) (idx : Z)
    : session_state :=
  {| scan_complete := scan_complete s; file_tree := file_tree s;
     annotations := annotations s;
     current_folder := folder; current_img_idx := idx |}.

Definition all_completed : message := st_success "🎉 All folders completed!".

(** Navigation, lines 82-92. *)
Definition advance (folder : string) : M unit :=
  s <~ get_session ;
  entry <~ or_raise KeyError (PyDict.get (file_tree s) folder) ;
  if current_img_idx s <? Z.of_nat (List.length (base_names entry)) - 1
  then put_session (set_position s (current_folder s) (current_img_idx s + 1))
  else
    let folders := PyDict.keys (file_tree s) in
    current_folder_idx <~ or_raise ValueError (PyList.index folders folder) ;
    if Z.of_nat current_folder_idx <? Z.of_nat (List.length folders) - 1
    then
      next <~ or_raise IndexError
                (PyList.getitem folders (Z.of_nat current_folder_idx + 1)) ;
      put_session (set_position s (Some next) 0)
    else show all_completed.

Definition save_annotation_and_next (folder base_name tag notes : string)
    (mask_data : option Disk.pixels) : M unit :=
  mask_saved_status <~ persist_mask folder base_name mask_data ;
  s <~ get_session ;
  put_session (set_annotations s
         (upsert (annotations s) folder base_name tag notes mask_saved_status)) >>
  advance folder >>
  st_rerun.

(** ** Export *)

(** A cell grid per sheet, and the members of a zip archive. *)
Definition sheet : Type := list (list XlsxWriter.cell).

Inductive payload : Type :=
| Xlsx (sheets : list (string * sheet))
| Stored (c : Disk.content).

Definition archive : Type := list (string * payload).

Definition row_cells (r : annotation) : list string :=
  [Folder r; Base_Filename r; Tag r; Mask_Saved r; Notes r].

(** [df.to_excel(writer, index=False, sheet_name='Annotations')]: one
    sheet, the header row and then one row per row of the table, every
    cell written with [worksheet.write]. The model stops at the size of a
    sheet: a table of 2^20 rows or more, which no longer fits under the
    header, is outside it. *)
Definition to_excel (t : list annotation) : payload :=
  Xlsx [("Annotations",
         List.map XlsxWriter.write columns
           :: List.map (fun r => List.map XlsxWriter.write (row_cells r)) t)].

(** [zip_file.write(file_path, arcname)] for every file of one [os.walk]
    triple, lines 109-112. *)
Definition zip_dir (w : world) (root : string) (files : list string)
    : M archive :=
  List.fold_right
    (fun file rest =>
       let file_path := PosixPath.join root file in
       let arcname := PosixPath.relpath (cwd w) file_path (cwd w) in
       c <~ or_raise OSError
              (Disk.read_file (disk w) (PosixPath.components (cwd w) file_path)) ;
       members <~ rest ;
       ret ((arcname, Stored c) :: members))
    (ret []) files.

(** The loop over [os.walk(MASKS_DIR)], lines 108-112. *)
Definition zip_walk (w : world) (walked : list (string * list string * list string))
    : M archive :=
  List.fold_right
    (fun entry rest =>
       match entry with
       | (root, _, files) =>
           here <~ zip_dir w root files ;
           below <~ rest ;
           ret (here ++ below)%list
       end)
    (ret []) walked.

Definition zip_masks (w : world) : M archive :=
  if os_path_exists w (MASKS_DIR w)
  then zip_walk w (os_walk w (MASKS_DIR w))
  else ret [].

Definition create_export_zip : M archive :=
  w <~ get_world ;
  masks <~ zip_masks w ;
  ret (("hsd_annotations.xlsx", to_excel (annotations (session w))) :: masks).

(** ** 3. Sidebar *)

Definition on_load_dataset : M unit :=
  w <~ get_world ;
  scan_png_directory (DATA_DIR w).

(** The folder selectbox, lines 127-139; the widget only returns one of
    its [options]. *)
Definition on_select_folder (selected_folder : string) : M unit :=
  s <~ get_session ;
  if scan_complete s && PyList.contains (PyDict.keys (file_tree s)) selected_folder
  then
    if negb (bool_decide (current_folder s = Some selected_folder))
    then put_session (set_position s (Some selected_folder) 0) >> st_rerun
    else ret tt
  else ret tt.

(** ** 4. Main workspace *)

(** Lines 160-166: the sample on display. *)
Record view : Type := {
  view_folder : string;
  view_base_names : list string;
  view_idx : Z;
  view_current_base : string
}.

Definition render : M view :=
  s <~ get_session ;
  folder <~ or_raise KeyError (current_folder s) ;
  entry <~ or_raise KeyError (PyDict.get (file_tree s) folder) ;
  current_base <~ or_raise IndexError
                    (PyList.getitem (base_names entry) (current_img_idx s)) ;
  ret {| view_folder := folder; view_base_names := base_names entry;
         view_idx := current_img_idx s; view_current_base := current_base |}.

Definition tag_options : list string :=
  ["Benign"; "Cancerous"; "Anomaly"; "Background"; "Discard"; "Keep"].

(** The prefill query, lines 222-230. *)
Definition lookup (t : list annotation) (folder current_base : string)
    : list annotation :=
  List.filter
    (fun r => String.eqb (Folder r) folder && String.eqb (Base_Filename r) current_base) t.

Record prefill : Type := {
  previously_tagged : bool;
  selected_tag : option string;
  notes_value : string
}.

(** Lines 222-239: defaults of the tag selectbox and of the notes area. *)
Definition metadata_prefill (t : list annotation) (folder current_base : string)
    : prefill :=
  let found := lookup t folder current_base in
  let existing :=
    match found with
    | [] => ("", "")
    | r :: _ => (Tag r, Notes r)
    end in
  let existing_tag := fst existing in
  let tag_index :=
    if PyList.contains tag_options existing_tag
    then default O (PyList.index tag_options existing_tag)
    else O in
  {| previously_tagged := match found with [] => false | _ :: _ => true end;
     selected_tag := List.nth_error tag_options tag_index;
     notes_value := snd existing |}.

(** The Previous button, lines 247-249 (disabled when [idx == 0]). *)
Definition on_previous : M unit :=
  s <~ get_session ;
  if scan_complete s
  then
    v <~ render ;
    if negb (view_idx v =? 0)
    then put_session (set_position s (current_folder s) (current_img_idx s - 1)) >>
         st_rerun
    else ret tt
  else ret tt.

(** The Save button, lines 251-255. [canvas_result] is unbound ([None])
    when the background layer failed to load (lines 189-217); otherwise it
    carries [image_data], which may be [None]. *)
Definition on_save_next (tag notes : string)
    (canvas_result : option (option Disk.pixels)) : M unit :=
  s <~ get_session ;
  if scan_complete s
  then
    v <~ render ;
    image_data <~ or_raise NameError canvas_result ;
    let mask_data := match image_data with
                     | Some px => Some px
                     | None => None
                     end in
    save_annotation_and_next (view_folder v) (view_current_base v) tag notes mask_data
  else ret tt.

(** The export of lines 145-155. *)
Definition on_export : M unit :=
  s <~ get_session ;
  if scan_complete s && negb (bool_decide (annotations s = []))
  then create_export_zip >> ret tt
  else ret tt.

(** ** User actions and reachable sessions *)

Inductive action : Type :=
| LoadDataset
| SelectFolder (selected_folder : string)
| Previous
| SaveNext (tag notes : string) (canvas_result : option (option Disk.pixels))
| Export
| Outside (d : Disk.node).

(** One script run. [Outside d] is the disk changing under the app. *)
Definition run (a : action) : M unit :=
  match a with
  | LoadDataset => on_load_dataset
  | SelectFolder f => on_select_folder f
  | Previous => on_previous
  | SaveNext tag notes canvas_result => on_save_next tag notes canvas_result
  | Export => on_export
  | Outside d => put_disk d
  end.

Definition run_all (acts : list action) (w : world) : world :=
  List.fold_left (fun w a => fst (run a w)) acts w.

Definition start (dir : string) (d : Disk.node) : world :=
  {| cwd := dir; disk := d; session := initial_state; screen := [] |}.

(** ** Vocabulary of the statements *)

(** Where the session points. *)
Definition position (s : session_state) : option string * Z :=
  (current_folder s, current_img_idx s).

(** The Browsing state: a dataset is loaded and the session points at
    sample [current_img_idx] of [folder], whose entry is [entry]. *)
Definition Browsing (s : session_state) (folder : string) (entry : folder_entry) : Prop :=
  scan_complete s = true
  /\ current_folder s = Some folder
  /\ PyDict.get (file_tree s) folder = Some entry
  /\ 0 <= current_img_idx s < Z.of_nat (List.length (base_names entry)).

(** The invariant of the claim: a ready session points into its tree. *)
Definition Ready (s : session_state) : Prop :=
  scan_complete s = true -> exists folder entry, Browsing s folder entry.

(** What makes it inductive: no folder of the tree is empty. *)
Definition Sound (s : session_state) : Prop :=
  List.Forall (fun item => base_names (snd item) <> []) (file_tree s) /\ Ready s.

(** One press of the Save button on [folder]. *)
Record save_call : Type := {
  call_base : string;
  call_tag : string;
  call_notes : string;
  call_mask : option Disk.pixels
}.

(** The components of the directory the masks of [folder] go to. *)
Definition mask_dir (w : world) (folder : string) : list string :=
  PosixPath.components (cwd w) (PosixPath.join (MASKS_DIR w) folder).

(** The disk can take the mask of the call: there is no mask, or the mask
    file name is a path component and its path is not a directory. *)
Definition can_save (w : world) (folder : string) (c : save_call) : Prop :=
  call_mask c = None
  \/ (Disk.valid_name (call_base c +:+ "_mask.png") = true
      /\ Disk.not_a_dir (disk w)
           (PosixPath.components (cwd w) (mask_path w folder (call_base c))) = true).

Definition save_call_run (folder : string) (c : save_call) : M unit :=
  save_annotation_and_next folder (call_base c) (call_tag c) (call_notes c) (call_mask c).

Definition saves (folder : string) (calls : list save_call) (w : world) : world :=
  List.fold_left (fun w c => fst (save_call_run folder c w)) calls w.

(** The key of a row, and an upsert given as the row it appends. *)
Definition key (r : annotation) : string * string := (Folder r, Base_Filename r).

Definition upsert_row (t : list annotation) (r : annotation) : list annotation :=
  upsert t (Folder r) (Base_Filename r) (Tag r) (Notes r) (Mask_Saved r).

Definition upserts (rs : list annotation) (t : list annotation) : list annotation :=
  List.fold_left upsert_row rs t.

Definition has_key (k : string * string) (r : annotation) : bool :=
  String.eqb (Folder r) (fst k) && String.eqb (Base_Filename r) (snd k).

(** The last upsert of [rs] for the key [k]. *)
Definition last_with_key (rs : list annotation) (k : string * string)
    : option annotation :=
  List.find (has_key k) (List.rev rs).

(** A directory of an [os.walk] listing qualifies when it holds a file
    ending in [_raw.png]. *)
Definition dirpath_of (entry : string * list string * list string) : string :=
  fst (fst entry).

Definition files_of (entry : string * list string * list string) : list string :=
  snd entry.

Definition raw_files_of (entry : string * list string * list string) : list string :=
  List.filter (fun f => PyStr.endswith f raw_suffix) (files_of entry).

Definition has_raw (entry : string * list string * list string) : bool :=
  List.existsb (fun f => PyStr.endswith f raw_suffix) (files_of entry).

Definition qualifying (walked : list (string * list string * list string))
    : list (string * list string * list string) :=
  List.filter has_raw walked.

(** The base name the scanner registers for a file name. *)
Definition base_name_of (f : string) : string := PyStr.replace f raw_suffix "".

(** The item the scanner registers for a qualifying directory. *)
Definition registered (entry : string * list string * list string)
    : string * folder_entry :=
  (PosixPath.basename (dirpath_of entry),
   {| path := dirpath_of entry;
      base_names := PyList.sorted (List.map base_name_of (raw_files_of entry)) |}).

(** The folder is a path component and every base name gives a mask file
    name that is one: what [save_annotation_and_next] needs of its key. *)
Definition key_names_valid (item : string * folder_entry) : Prop :=
  Disk.valid_name (fst item) = true
  /\ List.Forall (fun b => Disk.valid_name (b +:+ "_mask.png") = true)
       (base_names (snd item)).

(** The file name with its last [len("_raw.png")] characters removed. *)
Definition strip_raw_suffix (f : string) : string :=
  PyStr.drop_end (String.length raw_suffix) f.

(** The file name holds [_raw.png] only as its suffix: its first
    occurrence is the one the name ends with. *)
Definition raw_only_as_suffix (f : string) : bool :=
  match PyStr.find f raw_suffix with
  | Some i => Nat.eqb (i + String.length raw_suffix) (String.length f)
  | None => false
  end.

(** The archive name of the file [file] of directory [root]. *)
Definition member_name (dir root file : string) : string :=
  PosixPath.relpath dir (PosixPath.join root file) dir.

Definition file_member (dir root : string) (e : string * Disk.node) : archive :=
  match e with
  | (name, Disk.File c) => [(member_name dir root name, Stored c)]
  | (_, Disk.Dir _) => []
  end.

(** The files of the tree [n], found at [top], as archive members: those
    of the directory itself, then those of each entry in turn. *)
Fixpoint tree_members (dir top : string) (n : Disk.node) : archive :=
  match n with
  | Disk.File _ => []
  | Disk.Dir es =>
      (List.flat_map (file_member dir top) es
       ++ List.flat_map
            (fun e => match e with
                      | (name, child) => tree_members dir (PosixPath.join top name) child
                      end) es)%list
  end.

(** The members for what is under the masks root. *)
Definition masks_listing (w : world) : archive :=
  match Disk.resolve (disk w) (PosixPath.components (cwd w) (MASKS_DIR w)) with
  | Some n => tree_members (cwd w) (MASKS_DIR w) n
  | None => []
  end.

End App.

(* ===================================================================== *)
(** * The rest of the page *)
(* ===================================================================== *)

Module Page.
Import App.
Local Open Scope Z_scope.

(** [df.tail(n)]: the last [n] rows (line 146 shows [tail(3)]). *)
Definition tail (n : nat) (t : list annotation) : list annotation :=
  List.skipn (List.length t - n) t.

(** The options of the Background Layer radio, lines 175-179. *)
Inductive view_mode : Type :=
| Corrected_RGB
| KMeans_Clustering
| Raw_RGB.

(** [view_map[view_mode]], lines 181-185. *)
Definition view_map (current_base : string) (m : view_mode) : string :=
  match m with
  | Raw_RGB => current_base +:+ "_raw.png"
  | Corrected_RGB => current_base +:+ "_norm.png"
  | KMeans_Clustering => current_base +:+ "_kmeans.png"
  end.

(** Line 187. *)
Definition bg_image_path (folder_path current_base : string) (m : view_mode) : string :=
  PosixPath.join folder_path (view_map current_base m).

(** Line 217; [why] is the text of the exception. *)
Definition layer_error (why : string) : message :=
  st_error ("Error loading image layer: " +:+ why).

(** Lines 189-217: [canvas_result] is bound when nothing in the [try] block
    raises. [Image.open] raises when the path is not a regular file;
    [decodes] says whether the rest of the block goes through for a file
    that is there, and [image_data] is what the canvas then returns. *)
Definition canvas (w : world) (bg_path : string) (decodes : bool)
    (image_data : option Disk.pixels) : option (option Disk.pixels) :=
  match Disk.read_file (disk w) (PosixPath.components (cwd w) bg_path) with
  | Some _ => if decodes then Some image_data else None
  | None => None
  end.

(** One script run of the main workspace with the Save button pressed,
    lines 160-255. *)
Definition press_save (m : view_mode) (decodes : bool) (why : string)
    (image_data : option Disk.pixels) (tag notes : string) : M unit :=
  w <~ get_world ;
  if scan_complete (session w)
  then
    v <~ render ;
    entry <~ or_raise KeyError (PyDict.get (file_tree (session w)) (view_folder v)) ;
    let bg := bg_image_path (path entry) (view_current_base v) m in
    match canvas w bg decodes image_data with
    | Some data => on_save_next tag notes (Some data)
    | None => show (layer_error why) >> on_save_next tag notes None
    end
  else ret tt.

(** ** Vocabulary of the statements *)

(** The leaf name a walked directory is registered under. *)
Definition leaf_of (entry : string * list string * list string) : string :=
  PosixPath.basename (dirpath_of entry).

(** The walked directory registers something under the key [k]. *)
Definition registers (k : string) (e : string * list string * list string) : bool :=
  has_raw e && String.eqb (leaf_of e) k.

(** The items of the tree after the folder [folder]. *)
Fixpoint rest_after (tree : list (string * folder_entry)) (folder : string)
    : list (string * folder_entry) :=
  match tree with
  | [] => []
  | (k, v) :: rest => if String.eqb k folder then rest else rest_after rest folder
  end.

(** The samples of the tree, as (folder, base name), in navigation order. *)
Definition samples_of (item : string * folder_entry) : list (string * string) :=
  List.map (fun b => (fst item, b)) (base_names (snd item)).

Definition all_samples (tree : list (string * folder_entry)) : list (string * string) :=
  List.flat_map samples_of tree.

(** The sample on display: [(current_folder, base_names[current_img_idx])]. *)
Definition displayed (s : session_state) : option (string * string) :=
  match current_folder s with
  | Some folder =>
      match PyDict.get (file_tree s) folder with
      | Some entry =>
          option_map (fun b => (folder, b))
            (PyList.getitem (base_names entry) (current_img_idx s))
      | None => None
      end
  | None => None
  end.

(** The samples after the one on display: the rest of the folder, then the
    folders after it. *)
Definition ahead (s : session_state) : list (string * string) :=
  match current_folder s with
  | Some folder =>
      match PyDict.get (file_tree s) folder with
      | Some entry =>
          (List.map (fun b => (folder, b))
             (List.skipn (S (Z.to_nat (current_img_idx s))) (base_names entry))
           ++ all_samples (rest_after (file_tree s) folder))%list
      | None => []
      end
  | None => []
  end.

(** The session a Save without mask leads to from sample [base_name] of
    [folder], whose entry is [entry] and after which the keys [post] come. *)
Definition after_save (s : session_state) (folder base_name tag notes : string)
    (entry : folder_entry) (post : list string) : session_state :=
  let s1 := set_annotations s (upsert (annotations s) folder base_name tag notes "No") in
  if current_img_idx s <? Z.of_nat (List.length (base_names entry)) - 1
  then set_position s1 (Some folder) (current_img_idx s + 1)
  else match post with
       | next :: _ => set_position s1 (Some next) 0
       | [] => s1
       end.

(** The row a Save without mask records for a sample, given (tag, notes). *)
Definition saved_row (sample input : string * string) : annotation :=
  {| Folder := fst sample; Base_Filename := snd sample; Tag := fst input;
     Mask_Saved := "No"; Notes := snd input |}.

Definition saved_rows (samples inputs : list (string * string)) : list annotation :=
  List.map (fun p => saved_row (fst p) (snd p)) (List.combine samples inputs).

(** Presses of the Save button with an empty canvas, one per (tag, notes). *)
Definition presses (inputs : list (string * string)) : list action :=
  List.map (fun i => SaveNext (fst i) (snd i) (Some None)) inputs.

(** The tree has the shape a scan gives it: distinct keys, and in every
    folder base names that are there and sorted. *)
Definition Tidy (s : session_state) : Prop :=
  List.NoDup (PyDict.keys (file_tree s))
  /\ List.Forall (fun item => base_names (snd item) <> []
                              /\ StronglySorted String.le (base_names (snd item)))
       (file_tree s).

(** A user action, or a change of the disk that leaves a tree a
    filesystem can hold. *)
Definition inside (a : action) : Prop :=
  match a with
  | Outside d => Disk.wf d = true
  | _ => True
  end.

(** The text after a root for the names below it: [/a/b] for [a], [b]. *)
Fixpoint below (names : list string) : string :=
  match names with
  | [] => EmptyString
  | n :: rest => "/" +:+ n +:+ below rest
  end.

End Page.

(* ===================================================================== *)
(** * The metadata form and its widget state *)
(* ===================================================================== *)

Module Form.
Import App.

(** The selectbox and the text area of lines 234-239 are created without
    [key]. Streamlit identifies such a widget by its kind, its label and
    its arguments; of these only [index] (selectbox) and [value] (text
    area) vary from run to run. *)
Inductive widget_id : Type :=
| Tag_selectbox (index : nat)
| Notes_area (value : string).

Definition same_widget (a b : widget_id) : bool :=
  match a, b with
  | Tag_selectbox i, Tag_selectbox j => Nat.eqb i j
  | Notes_area u, Notes_area v => String.eqb u v
  | _, _ => false
  end.

(** The widget state of the session: per widget, what the user last
    entered in it. *)
Definition widget_state : Type := list (widget_id * string).

Fixpoint entered (ws : widget_state) (id : widget_id) : option string :=
  match ws with
  | [] => None
  | (id', v) :: ws' => if same_widget id' id then Some v else entered ws' id
  end.

Fixpoint enter (ws : widget_state) (id : widget_id) (v : string) : widget_state :=
  match ws with
  | [] => [(id, v)]
  | (id', v') :: ws' =>
      if same_widget id' id then (id', v) :: ws' else (id', v') :: enter ws' id v
  end.

(** Lines 222-238: the [index] and [value] arguments the script hands to
    the two widgets for the sample [current_base] of [folder]. *)
Definition arguments (t : list annotation) (folder current_base : string)
    : nat * string :=
  let found := lookup t folder current_base in
  let existing :=
    match found with
    | [] => ("", "")
    | r :: _ => (Tag r, Notes r)
    end in
  let existing_tag := fst existing in
  (if PyList.contains tag_options existing_tag
   then default O (PyList.index tag_options existing_tag)
   else O,
   snd existing).

(** [st.selectbox("Classification", options=tag_options, index=index)]:
    what the user last entered in this widget, [options[index]] when
    nothing was entered. The script only passes an index of the list. *)
Definition selectbox (ws : widget_state) (index : nat) : string :=
  match entered ws (Tag_selectbox index) with
  | Some v => v
  | None => List.nth index tag_options EmptyString
  end.

(** [st.text_area("Notes", value=value, height=100)] *)
Definition text_area (ws : widget_state) (value : string) : string :=
  match entered ws (Notes_area value) with
  | Some v => v
  | None => value
  end.

(** The form on screen: [selected_tag] and [notes_input]. *)
Record form : Type := {
  selected_tag : string;
  notes_input : string
}.

Definition metadata_form (t : list annotation) (folder current_base : string)
    (ws : widget_state) : form :=
  let a := arguments t folder current_base in
  {| selected_tag := selectbox ws (fst a); notes_input := text_area ws (snd a) |}.

(** The widgets of the form a run renders. *)
Definition form_widgets (t : list annotation) (folder current_base : string)
    : list widget_id :=
  let a := arguments t folder current_base in
  [Tag_selectbox (fst a); Notes_area (snd a)].

(** The user picks a tag in the selectbox on screen, types in the notes
    area on screen. *)
Definition choose_tag (tag : string) (t : list annotation) (folder current_base : string)
    (ws : widget_state) : widget_state :=
  enter ws (Tag_selectbox (fst (arguments t folder current_base))) tag.

Definition type_notes (text : string) (t : list annotation) (folder current_base : string)
    (ws : widget_state) : widget_state :=
  enter ws (Notes_area (snd (arguments t folder current_base))) text.

(** When a run finishes or ends in a rerun, Streamlit drops the state of
    the widgets the run did not render. *)
Definition keep_rendered (ids : list widget_id) (ws : widget_state) : widget_state :=
  List.filter (fun e => List.existsb (same_widget (fst e)) ids) ws.

(** The script run in which the Save button is pressed, lines 160-255:
    the handler gets what the form shows. The form is rendered before the
    button, so its widgets are among those of the run; a run that raises
    leaves the widget state alone. *)
Definition save_pressed (canvas_result : option (option Disk.pixels))
    (w : world) (ws : widget_state) : world * outcome unit * widget_state :=
  if scan_complete (session w)
  then
    match render w with
    | (_, Done v) =>
        let t := annotations (session w) in
        let f := metadata_form t (view_folder v) (view_current_base v) ws in
        let r := on_save_next (selected_tag f) (notes_input f) canvas_result w in
        (r,
         match snd r with
         | Raised _ => ws
         | _ => keep_rendered (form_widgets t (view_folder v) (view_current_base v)) ws
         end)
    | (w1, Rerun) => (w1, Rerun, ws)
    | (w1, Raised e) => (w1, Raised e, ws)
    end
  else (w, Done tt, keep_rendered [] ws).

End Form.

(* ===================================================================== *)
(** * Sample worlds *)
(* ===================================================================== *)

Module Sample.

Definition blob (s : string) : Disk.node := Disk.File (Disk.Blob s).

(** The dataset of the specification's example, with a second folder:
    [A/s1], [B/t1], [B/t2]. *)
Definition dataset : Disk.node :=
  Disk.Dir
    [("w", Disk.Dir
       [("_precomputed_data", Disk.Dir
          [("A", Disk.Dir [("s1_raw.png", blob "r"); ("s1_norm.png", blob "n")]);
           ("B", Disk.Dir [("t2_raw.png", blob "r"); ("t1_raw.png", blob "r");
                           ("notes.txt", blob "x")])])])].

Definition fresh : App.world := App.start "/w" dataset.

(** After Load Dataset. *)
Definition loaded : App.world := App.run_all [App.LoadDataset] fresh.

(** Two qualifying directories with the same leaf name [x]. *)
Definition same_leaf : App.world :=
  App.start "/w"
    (Disk.Dir
       [("w", Disk.Dir
          [("_precomputed_data", Disk.Dir
             [("a", Disk.Dir [("x", Disk.Dir [("s_raw.png", blob "r")])]);
              ("b", Disk.Dir [("x", Disk.Dir [("t_raw.png", blob "r")])])])])]).

(** A raw file whose name holds the suffix twice. *)
Definition doubled_suffix : App.world :=
  App.start "/w"
    (Disk.Dir
       [("w", Disk.Dir
          [("_precomputed_data", Disk.Dir
             [("A", Disk.Dir [("a_raw.png_raw.png", blob "r")])])])]).

(** A dataset without any raw file. *)
Definition no_raw : App.world :=
  App.start "/w"
    (Disk.Dir
       [("w", Disk.Dir
          [("_precomputed_data", Disk.Dir
             [("A", Disk.Dir [("s1_norm.png", blob "n")])])])]).

Definition one_pixel : Disk.pixels := [[(255, 0, 0, 77)%Z]].

(** After Load Dataset and one Save with a mask on [A/s1]. *)
Definition annotated : App.world :=
  App.run_all [App.LoadDataset; App.SaveNext "Keep" "ok" (Some (Some one_pixel))] fresh.

(** At the last sample of the last folder: [B/t2]. *)
Definition at_end : App.world :=
  App.run_all [App.LoadDataset; App.SelectFolder "B"; App.SaveNext "Benign" "" (Some None)] fresh.

End Sample.

(* ===================================================================== *)
(** * Facts about strings and paths *)
(* ===================================================================== *)

Section StringFacts.

Lemma append_cons (c : ascii) (s t : string) : String c s +:+ t = String c (s +:+ t).
Proof. reflexivity. Qed.

Lemma append_nil_l (t : string) : "" +:+ t = t.
Proof. reflexivity. Qed.

Lemma append_assoc (a b c : string) : (a +:+ b) +:+ c = a +:+ (b +:+ c).
Proof. induction a as [|x a IH]; [reflexivity | now rewrite !append_cons, IH]. Qed.

Lemma string_length_append (a b : string) :
  String.length (a +:+ b) = (String.length a + String.length b)%nat.
Proof. induction a as [|x a IH]; [reflexivity |]. rewrite append_cons. simpl. now rewrite IH. Qed.

Lemma replace_go_unfold (old new : string) (c : ascii) (s : string) :
  PyStr.replace_go old new O (String c s)
  = if String.prefix old (String c s)
    then new +:+ PyStr.replace_go old new (Nat.pred (String.length old)) s
    else String c (PyStr.replace_go old new O s).
Proof. reflexivity. Qed.

Lemma endswith_unfold (s suf : string) :
  PyStr.endswith s suf =
  if String.eqb s suf then true
  else match s with
       | EmptyString => false
       | String _ s' => PyStr.endswith s' suf
       end.
Proof. destruct s; reflexivity. Qed.

Lemma endswith_spec (s suf : string) :
  PyStr.endswith s suf = true <-> exists p, s = p +:+ suf.
Proof.
  induction s as [|c s IH]; rewrite endswith_unfold.
  - destruct (String.eqb_spec "" suf) as [<- | Hne].
    + split; [exists ""; reflexivity | reflexivity].
    + split; [discriminate |].
      intros [p Hp]. destruct p; [now rewrite append_nil_l in Hp | discriminate Hp].
  - destruct (String.eqb_spec (String c s) suf) as [<- | Hne].
    + split; [exists ""; reflexivity | reflexivity].
    + rewrite IH. split.
      * intros [p ->]. exists (String c p). reflexivity.
      * intros [p Hp]. destruct p as [|c' p]; [now rewrite append_nil_l in Hp |].
        rewrite append_cons in Hp. injection Hp as _ ->. now exists p.
Qed.

Lemma startswith_slash (s : string) :
  PyStr.startswith s "/" = true <-> exists t, s = String "/" t.
Proof.
  unfold PyStr.startswith. destruct s as [|c s].
  - split; [discriminate | intros [t Ht]; discriminate Ht].
  - change (String.prefix "/" (String c s))
      with (if ascii_dec "/" c then String.prefix "" s else false).
    destruct (ascii_dec "/" c) as [<- | Hne].
    + split; [now exists s | now destruct s].
    + split; [discriminate | intros [t Ht]; congruence].
Qed.

Lemma split_nonempty (p : string) : PosixPath.split p <> [].
Proof.
  destruct p as [|c p]; simpl; [discriminate |].
  destruct (Ascii.eqb c PosixPath.sep); [discriminate |].
  destruct (PosixPath.split p); discriminate.
Qed.

Lemma split_append_sep (a b : string) :
  PosixPath.split (a +:+ String "/" b) = (PosixPath.split a ++ PosixPath.split b)%list.
Proof.
  induction a as [|c a IH].
  - reflexivity.
  - rewrite append_cons. simpl. rewrite IH.
    destruct (Ascii.eqb c PosixPath.sep); [reflexivity |].
    pose proof (split_nonempty a) as Hne.
    destruct (PosixPath.split a); [contradiction | reflexivity].
Qed.

(** A string without a slash is its own single component. *)
Lemma split_single (s w : string) : PosixPath.split s = [w] -> w = s.
Proof.
  revert w. induction s as [|c s IH]; intros w; simpl.
  - now intros [= <-].
  - destruct (Ascii.eqb c PosixPath.sep).
    + intros [= _ H]. now apply split_nonempty in H.
    + pose proof (split_nonempty s) as Hne.
      destruct (PosixPath.split s) as [|v vs]; [contradiction |].
      intros [= <- ->]. now rewrite (IH v).
Qed.

Lemma valid_name_split (s : string) :
  Disk.valid_name s = true -> PosixPath.split s = [s].
Proof.
  unfold Disk.valid_name. intros H.
  destruct (PosixPath.split s) as [|w [|? ?]] eqn:E;
    rewrite ?andb_false_r in H; try discriminate H.
  now rewrite (split_single _ _ E).
Qed.

Lemma valid_name_not_special (s : string) :
  Disk.valid_name s = true -> s <> "" /\ s <> "." /\ s <> "..".
Proof.
  unfold Disk.valid_name. intros H.
  repeat (apply andb_prop in H as [H ?]).
  repeat split; intros ->; discriminate.
Qed.

Lemma valid_name_relative (s : string) :
  Disk.valid_name s = true -> PyStr.startswith s "/" = false.
Proof.
  intros H. destruct (PyStr.startswith s "/") eqn:E; [| reflexivity].
  apply startswith_slash in E as [t ->].
  apply valid_name_split in H. simpl in H. congruence.
Qed.

Lemma norm_go_snoc_empty (stack comps : list string) :
  PosixPath.norm_go stack (comps ++ [""]) = PosixPath.norm_go stack comps.
Proof.
  revert stack. induction comps as [|c cs IH]; intros stack; simpl.
  - reflexivity.
  - destruct (String.eqb c "" || String.eqb c "."); [apply IH |].
    destruct (String.eqb c ".."); apply IH.
Qed.

Lemma norm_go_snoc_name (stack comps : list string) (name : string) :
  Disk.valid_name name = true ->
  PosixPath.norm_go stack (comps ++ [name]) = (PosixPath.norm_go stack comps ++ [name])%list.
Proof.
  intros Hv. apply valid_name_not_special in Hv as (H1 & H2 & H3).
  revert stack. induction comps as [|c cs IH]; intros stack; simpl.
  - apply String.eqb_neq in H1, H2, H3. now rewrite H1, H2, H3.
  - destruct (String.eqb c "" || String.eqb c "."); [apply IH |].
    destruct (String.eqb c ".."); apply IH.
Qed.

Lemma isabs_join (a b : string) :
  PosixPath.isabs a = true -> PosixPath.isabs (PosixPath.join a b) = true.
Proof.
  unfold PosixPath.isabs, PosixPath.join. intros Ha.
  destruct (PyStr.startswith b "/") eqn:Eb; [exact Eb |].
  apply startswith_slash in Ha as [t ->].
  destruct (_ || _); apply startswith_slash; eexists; apply append_cons.
Qed.

(** Joining a name onto an absolute path adds exactly that component. *)
Lemma components_join (cwd a name : string) :
  PosixPath.isabs a = true ->
  Disk.valid_name name = true ->
  PosixPath.components cwd (PosixPath.join a name)
  = (PosixPath.components cwd a ++ [name])%list.
Proof.
  intros Ha Hv. unfold PosixPath.components.
  rewrite (isabs_join a name Ha), Ha.
  unfold PosixPath.join. rewrite (valid_name_relative _ Hv).
  pose proof (valid_name_split _ Hv) as Hs.
  destruct (String.eqb_spec a "") as [-> | Hne]; [discriminate Ha |].
  simpl. destruct (PyStr.endswith a "/") eqn:Ee.
  - apply endswith_spec in Ee as [p ->].
    rewrite append_assoc. change ("/" +:+ name) with (String "/" name).
    rewrite !split_append_sep, Hs. simpl PosixPath.split.
    now rewrite norm_go_snoc_empty, norm_go_snoc_name.
  - change (a +:+ "/" +:+ name) with (a +:+ String "/" name).
    now rewrite split_append_sep, Hs, norm_go_snoc_name.
Qed.

End StringFacts.

Example endswith_raw : PyStr.endswith "img01_raw.png" "_raw.png" = true.
Proof. reflexivity. Qed.
Example replace_raw : PyStr.replace "img01_raw.png" "_raw.png" "" = "img01".
Proof. reflexivity. Qed.
Example replace_twice : PyStr.replace "a_raw.png_raw.png" "_raw.png" "" = "a".
Proof. reflexivity. Qed.
Example replace_overlap : PyStr.replace "aaa" "aa" "b" = "ba".
Proof. reflexivity. Qed.
Example join_ex : PosixPath.join "/w" "_masks" = "/w/_masks".
Proof. reflexivity. Qed.
Example basename_ex : PosixPath.basename "/w/_precomputed_data/A" = "A".
Proof. reflexivity. Qed.
Example relpath_ex :
  PosixPath.relpath "/w" "/w/_masks/A/s1_mask.png" "/w" = "_masks/A/s1_mask.png".
Proof. reflexivity. Qed.

(* ===================================================================== *)
(** * Facts about dictionaries and lists *)
(* ===================================================================== *)

Section DictFacts.
Context {V : Type}.
Implicit Types (d : list (string * V)) (k : string) (v : V).

Lemma get_set d k k' v :
  PyDict.get (PyDict.set d k v) k' = if String.eqb k k' then Some v else PyDict.get d k'.
Proof.
  induction d as [|[k0 v0] d IH]; simpl.
  - reflexivity.
  - destruct (String.eqb_spec k0 k) as [-> | Hne]; simpl.
    + destruct (String.eqb k k'); reflexivity.
    + rewrite IH. destruct (String.eqb_spec k0 k') as [-> | Hne'];
        [| reflexivity].
      destruct (String.eqb_spec k k'); [congruence | reflexivity].
Qed.

Lemma get_set_eq d k v : PyDict.get (PyDict.set d k v) k = Some v.
Proof. now rewrite get_set, String.eqb_refl. Qed.

Lemma get_set_ne d k k' v :
  k <> k' -> PyDict.get (PyDict.set d k v) k' = PyDict.get d k'.
Proof. intros H. apply String.eqb_neq in H. now rewrite get_set, H. Qed.

Lemma get_In d k v : PyDict.get d k = Some v -> In (k, v) d.
Proof.
  induction d as [|[k0 v0] d IH]; simpl; [discriminate |].
  destruct (String.eqb_spec k0 k) as [-> | Hne].
  - intros [= ->]. now left.
  - intros H. right. now apply IH.
Qed.

Lemma get_None d k : PyDict.get d k = None <-> ~ In k (PyDict.keys d).
Proof.
  induction d as [|[k0 v0] d IH]; simpl.
  - tauto.
  - destruct (String.eqb_spec k0 k) as [-> | Hne].
    + split; [discriminate | intros H; exfalso; apply H; now left].
    + rewrite IH. tauto.
Qed.

Lemma In_keys_get d k : In k (PyDict.keys d) -> exists v, PyDict.get d k = Some v.
Proof.
  intros H. destruct (PyDict.get d k) as [v|] eqn:E; [now exists v |].
  now apply get_None in E.
Qed.

(** In a dictionary (distinct keys) every item is what its key denotes. *)
Lemma In_get d k v :
  List.NoDup (PyDict.keys d) -> In (k, v) d -> PyDict.get d k = Some v.
Proof.
  induction d as [|[k0 v0] d IH]; simpl; [tauto |].
  intros Hnd [[= -> ->] | Hin].
  - now rewrite String.eqb_refl.
  - inversion Hnd as [|? ? Hnotin Hnd']; subst.
    destruct (String.eqb_spec k0 k) as [-> | Hne].
    + exfalso. apply Hnotin. now apply (in_map fst) in Hin.
    + now apply IH.
Qed.

Lemma set_fresh d k v :
  ~ In k (PyDict.keys d) -> PyDict.set d k v = (d ++ [(k, v)])%list.
Proof.
  induction d as [|[k0 v0] d IH]; simpl; [reflexivity |].
  intros H. destruct (String.eqb_spec k0 k) as [-> | Hne]; [tauto |].
  now rewrite IH by tauto.
Qed.

Lemma In_set d k v k' v' :
  In (k', v') (PyDict.set d k v) -> (k' = k /\ v' = v) \/ In (k', v') d.
Proof.
  induction d as [|[k0 v0] d IH]; simpl.
  - intros [[= <- <-] | []]. now left.
  - destruct (String.eqb_spec k0 k) as [-> | Hne]; simpl.
    + intros [[= <- <-] | H]; [now left | right; now right].
    + intros [H | H]; [right; now left |].
      destruct (IH H) as [? | ?]; [now left | right; now right].
Qed.

End DictFacts.

Section ListFacts.

Lemma contains_In (l : list string) (x : string) :
  PyList.contains l x = true <-> In x l.
Proof.
  unfold PyList.contains. rewrite existsb_exists. split.
  - intros (y & Hy & E). apply String.eqb_eq in E. now subst.
  - intros H. exists x. split; [assumption | apply String.eqb_refl].
Qed.

Lemma index_In (l : list string) (x : string) :
  In x l -> exists i, PyList.index l x = Some i.
Proof.
  induction l as [|y l IH]; simpl; [tauto |].
  intros H. destruct (String.eqb_spec y x) as [-> | Hne]; [now exists O |].
  destruct H as [? | H]; [congruence |].
  destruct (IH H) as [i ->]. now exists (S i).
Qed.

(** The position [index] finds in [pre ++ x :: post] when [x] is not in [pre]. *)
Lemma index_middle (pre post : list string) (x : string) :
  ~ In x pre -> PyList.index (pre ++ x :: post) x = Some (List.length pre).
Proof.
  induction pre as [|y pre IH]; simpl; intros H.
  - now rewrite String.eqb_refl.
  - destruct (String.eqb_spec y x) as [-> | Hne]; [tauto |].
    rewrite IH by tauto. reflexivity.
Qed.

Lemma getitem_nat {A : Type} (l : list A) (i : nat) :
  PyList.getitem l (Z.of_nat i) = List.nth_error l i.
Proof.
  unfold PyList.getitem.
  destruct (Z.leb_spec 0 (Z.of_nat i)); [| lia]. now rewrite Nat2Z.id.
Qed.

Lemma getitem_in_range {A : Type} (l : list A) (i : Z) :
  (0 <= i < Z.of_nat (List.length l))%Z -> exists x, PyList.getitem l i = Some x.
Proof.
  intros H. rewrite <- (Z2Nat.id i) by lia. rewrite getitem_nat.
  destruct (List.nth_error l (Z.to_nat i)) as [x|] eqn:E; [now exists x |].
  apply List.nth_error_None in E. lia.
Qed.

End ListFacts.

(* ===================================================================== *)
(** * Facts about the directory tree *)
(* ===================================================================== *)

Section DiskFacts.
Import Disk.

(** Induction on the tree, with the hypothesis for every entry. *)
Lemma node_ind (P : node -> Prop) :
  (forall c, P (File c)) ->
  (forall es, List.Forall (fun e => P (snd e)) es -> P (Dir es)) ->
  forall n, P n.
Proof.
  intros HF HD. fix IH 1. intros [c | es].
  - apply HF.
  - apply HD. induction es as [|[name child] es IHes].
    + constructor.
    + constructor; [apply IH | apply IHes].
Qed.

Lemma resolve_app (n : node) (a b : list string) :
  resolve n (a ++ b) = match resolve n a with
                       | Some m => resolve m b
                       | None => None
                       end.
Proof.
  revert n. induction a as [|c a IH]; intros n; simpl; [reflexivity |].
  destruct n as [? | es]; [reflexivity |].
  destruct (PyDict.get es c); [apply IH | reflexivity].
Qed.

Lemma resolve_file (c : content) (q : list string) :
  q <> [] -> resolve (File c) q = None.
Proof. destruct q; [congruence | reflexivity]. Qed.

Lemma read_file_empty_dir (q : list string) : read_file (Dir []) q = None.
Proof. destruct q; reflexivity. Qed.

Lemma read_file_cons (es : list (string * node)) (k : string) (q : list string) :
  read_file (Dir es) (k :: q)
  = match PyDict.get es k with
    | Some child => read_file child q
    | None => None
    end.
Proof. unfold read_file. simpl. destruct (PyDict.get es k); reflexivity. Qed.

Lemma read_file_under_file (c : content) (q : list string) :
  q <> [] -> read_file (File c) q = None.
Proof. intros H. unfold read_file. now rewrite resolve_file. Qed.

(** *** [makedirs] *)

Lemma dirs_free_empty (cs : list string) : dirs_free (Dir []) cs = true.
Proof. destruct cs; reflexivity. Qed.

Lemma makedirs_succeeds (cs : list string) (n : node) :
  dirs_free n cs = true -> exists n', makedirs n cs = Some n'.
Proof.
  revert n. induction cs as [|c cs IH]; intros [? | es]; simpl;
    try discriminate; [now eexists |].
  intros H.
  assert (Hc : dirs_free (default (Dir []) (PyDict.get es c)) cs = true).
  { destruct (PyDict.get es c); simpl; [assumption | apply dirs_free_empty]. }
  destruct (IH _ Hc) as [child' ->]. now eexists.
Qed.

Lemma makedirs_is_dir (cs : list string) (n n' : node) :
  makedirs n cs = Some n' -> exists es, resolve n' cs = Some (Dir es).
Proof.
  revert n n'. induction cs as [|c cs IH]; intros [? | es] n'; simpl;
    try discriminate.
  - intros [= <-]. now eexists.
  - destruct (makedirs _ cs) as [child'|] eqn:E; [| discriminate].
    intros [= <-]. simpl. rewrite get_set_eq. now apply (IH _ _ E).
Qed.

(** [makedirs] creates directories only: every regular file reads as before. *)
Lemma makedirs_read_file (cs : list string) (n n' : node) :
  makedirs n cs = Some n' -> forall q, read_file n' q = read_file n q.
Proof.
  revert n n'. induction cs as [|c cs IH]; intros [? | es] n'; simpl;
    try discriminate.
  - now intros [= <-].
  - destruct (makedirs _ cs) as [child'|] eqn:E; [| discriminate].
    intros [= <-] [|k q]; [reflexivity |].
    rewrite !read_file_cons, get_set.
    destruct (String.eqb_spec c k) as [<- | Hne]; [| reflexivity].
    rewrite (IH _ _ E).
    destruct (PyDict.get es c); simpl; [reflexivity | apply read_file_empty_dir].
Qed.

(** Just below the directory made, everything resolves as before. *)
Lemma makedirs_resolve_below (cs : list string) (n n' : node) (name : string) :
  makedirs n cs = Some n' ->
  resolve n' (cs ++ [name]) = resolve n (cs ++ [name]).
Proof.
  revert n n'. induction cs as [|c cs IH]; intros [? | es] n'; simpl;
    try discriminate.
  - now intros [= <-].
  - destruct (makedirs _ cs) as [child'|] eqn:E; [| discriminate].
    intros [= <-]. simpl. rewrite get_set_eq, (IH _ _ E).
    destruct (PyDict.get es c); simpl; [reflexivity |].
    now destruct cs.
Qed.

(** *** [write_file] *)

Lemma write_file_unfold (n : node) (name : string) (rest : list string) (c : content) :
  write_file n (name :: rest) c
  = match n with
    | File _ => None
    | Dir es =>
        match rest with
        | [] =>
            match PyDict.get es name with
            | Some (Dir _) => None
            | _ => Some (Dir (PyDict.set es name (File c)))
            end
        | _ :: _ =>
            match PyDict.get es name with
            | Some child =>
                match write_file child rest c with
                | Some child' => Some (Dir (PyDict.set es name child'))
                | None => None
                end
            | None => None
            end
        end
    end.
Proof. destruct n, rest; reflexivity. Qed.

Lemma write_file_succeeds (cs : list string) (name : string) (c : content) (n : node) :
  (exists es, resolve n cs = Some (Dir es)) ->
  not_a_dir n (cs ++ [name]) = true ->
  exists n', write_file n (cs ++ [name]) c = Some n'.
Proof.
  revert n. induction cs as [|k cs IH]; intros n [es Hes] Hfree.
  - simpl in Hes. injection Hes as ->. simpl app. rewrite write_file_unfold.
    unfold not_a_dir in Hfree. simpl in Hfree.
    destruct (PyDict.get es name) as [[? | ?]|]; try discriminate; now eexists.
  - simpl app. rewrite write_file_unfold.
    destruct n as [? | es0]; [discriminate Hes |].
    simpl in Hes. unfold not_a_dir in Hfree. simpl in Hfree.
    destruct (PyDict.get es0 k) as [child|]; [| discriminate Hes].
    destruct (IH child (ex_intro _ es Hes) Hfree) as [child' ->].
    destruct (cs ++ [name])%list eqn:E; [now destruct cs |]. now eexists.
Qed.

Lemma write_file_read_same (p : list string) (c : content) (n n' : node) :
  write_file n p c = Some n' -> read_file n' p = Some c.
Proof.
  revert n n'. induction p as [|name rest IH]; intros n n'.
  - destruct n; discriminate.
  - rewrite write_file_unfold. destruct n as [? | es]; [discriminate |].
    destruct rest as [|r rest].
    + destruct (PyDict.get es name) as [[? | ?]|]; try discriminate;
        intros [= <-]; rewrite read_file_cons, get_set_eq; reflexivity.
    + destruct (PyDict.get es name) as [child|]; [| discriminate].
      destruct (write_file child (r :: rest) c) as [child'|] eqn:E; [| discriminate].
      intros [= <-]. rewrite read_file_cons, get_set_eq. now apply (IH child).
Qed.

(** Writing one file leaves every other path's file as it was. *)
Lemma write_file_read_other (p : list string) (c : content) (n n' : node) :
  write_file n p c = Some n' ->
  forall q, q <> p -> read_file n' q = read_file n q.
Proof.
  revert n n'. induction p as [|name rest IH]; intros n n'.
  - destruct n; discriminate.
  - rewrite write_file_unfold. destruct n as [? | es]; [discriminate |].
    destruct rest as [|r rest].
    + intros Hw [|k q] Hq; [now destruct (PyDict.get es name) as [[? | ?]|];
                              try discriminate; injection Hw as <- |].
      assert (Hn' : n' = Dir (PyDict.set es name (File c))
                    /\ (forall ds, PyDict.get es name <> Some (Dir ds))).
      { destruct (PyDict.get es name) as [[? | ?]|]; try discriminate;
          injection Hw as <-; split; congruence. }
      destruct Hn' as [-> Hnd]. rewrite !read_file_cons, get_set.
      destruct (String.eqb_spec name k) as [<- | Hne]; [| reflexivity].
      assert (q <> []) by congruence.
      rewrite read_file_under_file by assumption.
      destruct (PyDict.get es name) as [[? | ds]|]; [| now destruct (Hnd ds) |];
        [now rewrite read_file_under_file | reflexivity].
    + destruct (PyDict.get es name) as [child|] eqn:Eg; [| discriminate].
      destruct (write_file child (r :: rest) c) as [child'|] eqn:E; [| discriminate].
      intros [= <-] [|k q] Hq; [reflexivity |].
      rewrite !read_file_cons, get_set.
      destruct (String.eqb_spec name k) as [<- | Hne]; [| reflexivity].
      rewrite Eg. apply (IH _ _ E). congruence.
Qed.

Lemma resolve_dir_dirs_free (cs : list string) (n : node) (es : list (string * node)) :
  resolve n cs = Some (Dir es) -> dirs_free n cs = true.
Proof.
  revert n. induction cs as [|k cs IH]; intros [? | es0]; simpl; try discriminate.
  - reflexivity.
  - destruct (PyDict.get es0 k) as [child|]; [apply IH | discriminate].
Qed.

(** After a write the parent is still a directory. *)
Lemma write_file_keeps_parent (cs : list string) (name : string) (c : content)
    (n n' : node) :
  write_file n (cs ++ [name]) c = Some n' -> exists es', resolve n' cs = Some (Dir es').
Proof.
  revert n n'. induction cs as [|k cs IH]; intros n n'; simpl app;
    rewrite write_file_unfold; destruct n as [? | es]; try discriminate.
  - destruct (PyDict.get es name) as [[? | ?]|]; try discriminate;
      intros [= <-]; now eexists.
  - destruct (cs ++ [name])%list as [|r rest] eqn:E;
      [symmetry in E; now apply app_cons_not_nil in E |].
    destruct (PyDict.get es k) as [child|]; [| discriminate].
    destruct (write_file child (r :: rest) c) as [child'|] eqn:Ew; [| discriminate].
    intros [= <-]. simpl. rewrite get_set_eq. now apply (IH _ _ Ew).
Qed.

(** A write leaves the other entries of the parent as they were. *)
Lemma write_file_sibling (cs : list string) (name other : string) (c : content)
    (n n' : node) :
  write_file n (cs ++ [name]) c = Some n' ->
  other <> name ->
  resolve n' (cs ++ [other]) = resolve n (cs ++ [other]).
Proof.
  intros Hw Hne. revert n n' Hw. induction cs as [|k cs IH]; intros n n'; simpl app;
    rewrite write_file_unfold; destruct n as [? | es]; try discriminate.
  - destruct (PyDict.get es name) as [[? | ?]|]; try discriminate;
      intros [= <-]; simpl; rewrite get_set_ne by congruence; reflexivity.
  - destruct (cs ++ [name])%list as [|r rest] eqn:E;
      [symmetry in E; now apply app_cons_not_nil in E |].
    destruct (PyDict.get es k) as [child|] eqn:Eg; [| discriminate].
    destruct (write_file child (r :: rest) c) as [child'|] eqn:Ew; [| discriminate].
    intros [= <-]. simpl. rewrite get_set_eq, Eg. now apply (IH _ _ Ew).
Qed.

(** Making the directory and writing one file in it succeeds on a disk
    that allows it, and the disk then allows the next such write. *)
Lemma save_to_disk (n : node) (dir : list string) (name : string) (c : content) :
  dirs_free n dir = true ->
  not_a_dir n (dir ++ [name]) = true ->
  exists n1 n2,
    makedirs n dir = Some n1
    /\ write_file n1 (dir ++ [name]) c = Some n2
    /\ dirs_free n2 dir = true
    /\ forall other, not_a_dir n (dir ++ [other]) = true ->
                     not_a_dir n2 (dir ++ [other]) = true.
Proof.
  intros Hfree Hnd. destruct (makedirs_succeeds _ _ Hfree) as [n1 Hn1].
  assert (Hnd1 : not_a_dir n1 (dir ++ [name]) = true).
  { unfold not_a_dir in *. now rewrite (makedirs_resolve_below _ _ _ _ Hn1). }
  destruct (write_file_succeeds _ _ c n1 (makedirs_is_dir _ _ _ Hn1) Hnd1) as [n2 Hn2].
  exists n1, n2. split; [exact Hn1 |]. split; [exact Hn2 |]. split.
  - destruct (write_file_keeps_parent _ _ _ _ _ Hn2) as [es' Hes'].
    now apply (resolve_dir_dirs_free _ _ es').
  - intros other Hother. unfold not_a_dir in *.
    destruct (String.eqb_spec other name) as [-> | Hne].
    + pose proof (write_file_read_same _ _ _ _ Hn2) as Hr. unfold read_file in Hr.
      destruct (resolve n2 (dir ++ [name])) as [[? | ?]|]; [reflexivity | discriminate Hr | reflexivity].
    + rewrite (write_file_sibling _ _ _ _ _ _ Hn2 Hne).
      now rewrite (makedirs_resolve_below _ _ _ _ Hn1).
Qed.

(** *** Well-formed trees *)

Lemma distinct_NoDup (names : list string) :
  distinct names = true -> List.NoDup names.
Proof.
  induction names as [|x names IH]; simpl; [constructor |].
  intros H. apply andb_prop in H as [Hx Hd]. constructor; [| now apply IH].
  intros Hin. apply contains_In in Hin. rewrite Hin in Hx. discriminate Hx.
Qed.

Lemma wf_dir (es : list (string * node)) :
  wf (Dir es) = true ->
  List.NoDup (PyDict.keys es)
  /\ forall name child, In (name, child) es ->
       valid_name name = true /\ wf child = true.
Proof.
  simpl. intros H. apply andb_prop in H as [H Hall]. apply andb_prop in H as [Hv Hd].
  split; [now apply distinct_NoDup |].
  intros name child Hin. split.
  - rewrite forallb_forall in Hv. apply Hv. now apply (in_map fst) in Hin.
  - rewrite forallb_forall in Hall. exact (Hall _ Hin).
Qed.

Lemma wf_resolve (p : list string) (n m : node) :
  wf n = true -> resolve n p = Some m -> wf m = true.
Proof.
  revert n. induction p as [|c p IH]; intros n Hwf; simpl.
  - now intros [= <-].
  - destruct n as [? | es]; [discriminate |].
    destruct (PyDict.get es c) as [child|] eqn:E; [| discriminate].
    apply IH. apply get_In in E. now apply (proj2 (wf_dir es Hwf) c child).
Qed.

End DiskFacts.

(* ===================================================================== *)
(** * Mask persistence *)
(* ===================================================================== *)

Section MaskPersistence.
Import App.

Lemma endswith_slash_append (a b : string) :
  b <> "" -> PyStr.endswith (a +:+ b) "/" = PyStr.endswith b "/".
Proof.
  intros Hb. induction a as [|x a IH]; [reflexivity |].
  rewrite append_cons, endswith_unfold.
  destruct (String.eqb_spec (String x (a +:+ b)) "/") as [E | _]; [| exact IH].
  injection E as _ E. destruct a; [now rewrite append_nil_l in E | discriminate E].
Qed.

Lemma valid_name_no_trailing_slash (s : string) :
  Disk.valid_name s = true -> PyStr.endswith s "/" = false.
Proof.
  intros H. destruct (PyStr.endswith s "/") eqn:E; [| reflexivity].
  apply endswith_spec in E as [p ->]. apply valid_name_split in H.
  change (p +:+ "/") with (p +:+ String "/" "") in H.
  rewrite split_append_sep in H. simpl in H.
  pose proof (split_nonempty p). destruct (PosixPath.split p) as [|? [|? ?]];
    [contradiction | discriminate H | discriminate H].
Qed.

Lemma join_plain (a b : string) :
  a <> "" -> PyStr.endswith a "/" = false -> PyStr.startswith b "/" = false ->
  PosixPath.join a b = a +:+ "/" +:+ b.
Proof.
  intros Ha He Hb. unfold PosixPath.join. rewrite Hb, He.
  apply String.eqb_neq in Ha. now rewrite Ha.
Qed.

Lemma append_nonempty_r (a b : string) : b <> "" -> a +:+ b <> "".
Proof. intros Hb. destruct a; [exact Hb | discriminate]. Qed.

(** The masks root is never empty and never ends in a slash. *)
Lemma masks_dir_shape (w : world) :
  MASKS_DIR w <> "" /\ PyStr.endswith (MASKS_DIR w) "/" = false.
Proof.
  assert (H : exists x, MASKS_DIR w = x +:+ "_masks").
  { unfold MASKS_DIR, PosixPath.join.
    change (PyStr.startswith "_masks" "/") with false. cbv iota.
    destruct (_ || _); [now eexists |].
    exists (cwd w +:+ "/"). now rewrite append_assoc. }
  destruct H as [x ->]. split.
  - apply append_nonempty_r. discriminate.
  - now rewrite endswith_slash_append.
Qed.

Lemma mask_path_eq (w : world) (folder base_name : string) :
  Disk.valid_name folder = true ->
  Disk.valid_name (base_name +:+ "_mask.png") = true ->
  mask_path w folder base_name
  = MASKS_DIR w +:+ "/" +:+ folder +:+ "/" +:+ base_name +:+ "_mask.png".
Proof.
  intros Hf Hb. destruct (masks_dir_shape w) as [Hne Hend]. unfold mask_path.
  rewrite (join_plain (MASKS_DIR w) folder Hne Hend (valid_name_relative _ Hf)).
  rewrite join_plain.
  - now rewrite !append_assoc.
  - now apply append_nonempty_r.
  - destruct (valid_name_not_special _ Hf) as [Hf0 _].
    rewrite <- append_assoc, endswith_slash_append by assumption.
    now apply valid_name_no_trailing_slash.
  - now apply valid_name_relative.
Qed.

Lemma isabs_masks_dir (w : world) :
  PosixPath.isabs (cwd w) = true -> PosixPath.isabs (MASKS_DIR w) = true.
Proof. apply isabs_join. Qed.

Lemma mask_path_components (w : world) (folder base_name : string) :
  PosixPath.isabs (cwd w) = true ->
  Disk.valid_name (base_name +:+ "_mask.png") = true ->
  PosixPath.components (cwd w) (mask_path w folder base_name)
  = (mask_dir w folder ++ [base_name +:+ "_mask.png"])%list.
Proof.
  intros Habs Hname. apply components_join; [| assumption].
  apply isabs_join. now apply isabs_masks_dir.
Qed.

(** The mask step, from what its two disk calls return. *)
Lemma persist_mask_run (w : world) (folder base_name : string) (px : Disk.pixels)
    (d1 d2 : Disk.node) :
  Disk.makedirs (disk w) (mask_dir w folder) = Some d1 ->
  Disk.write_file d1 (PosixPath.components (cwd w) (mask_path w folder base_name))
    (Disk.PngRGBA (astype_uint8 px)) = Some d2 ->
  persist_mask folder base_name (Some px) w = (with_disk w d2, Done "Yes").
Proof.
  intros Hd1 Hd2.
  unfold persist_mask, bind, get_world, os_makedirs, image_save, bind, get_world,
    or_raise, put_disk, ret. simpl.
  fold (mask_dir w folder). rewrite Hd1. simpl.
  fold (mask_path w folder base_name). now rewrite Hd2.
Qed.

Lemma persist_mask_some (w : world) (folder base_name : string) (px : Disk.pixels) :
  PosixPath.isabs (cwd w) = true ->
  Disk.valid_name (base_name +:+ "_mask.png") = true ->
  Disk.dirs_free (disk w) (mask_dir w folder) = true ->
  Disk.not_a_dir (disk w)
    (PosixPath.components (cwd w) (mask_path w folder base_name)) = true ->
  exists d',
    persist_mask folder base_name (Some px) w = (with_disk w d', Done "Yes")
    /\ Disk.read_file d' (PosixPath.components (cwd w) (mask_path w folder base_name))
       = Some (Disk.PngRGBA (astype_uint8 px))
    /\ (forall q, q <> PosixPath.components (cwd w) (mask_path w folder base_name) ->
                  Disk.read_file d' q = Disk.read_file (disk w) q)
    /\ Disk.dirs_free d' (mask_dir w folder) = true
    /\ (forall other,
          Disk.not_a_dir (disk w) (mask_dir w folder ++ [other]) = true ->
          Disk.not_a_dir d' (mask_dir w folder ++ [other]) = true).
Proof.
  intros Habs Hname Hfree Hnd.
  pose proof (mask_path_components w folder base_name Habs Hname) as Hp.
  rewrite Hp in *.
  destruct (save_to_disk (disk w) (mask_dir w folder) (base_name +:+ "_mask.png")
              (Disk.PngRGBA (astype_uint8 px)) Hfree Hnd)
    as (d1 & d2 & Hd1 & Hd2 & Hfree2 & Hnd2).
  exists d2. split; [| split; [| split; [| split]]].
  - apply (persist_mask_run w folder base_name px d1 d2 Hd1). now rewrite Hp.
  - now apply (write_file_read_same _ _ _ _ Hd2).
  - intros q Hq. rewrite (write_file_read_other _ _ _ _ Hd2 q Hq).
    now apply (makedirs_read_file _ _ _ Hd1).
  - exact Hfree2.
  - exact Hnd2.
Qed.

End MaskPersistence.

(* ===================================================================== *)
(** * Navigation *)
(* ===================================================================== *)

Section Navigation.
Import App.
Local Open Scope Z_scope.

(** [persist_mask] touches nothing but the disk, and fails only on the disk. *)
Lemma persist_mask_frame (w : world) (folder base_name : string)
    (mask_data : option Disk.pixels) :
  exists d,
    fst (persist_mask folder base_name mask_data w) = with_disk w d
    /\ (snd (persist_mask folder base_name mask_data w) = Raised OSError
        \/ (exists status, snd (persist_mask folder base_name mask_data w) = Done status)).
Proof.
  destruct mask_data as [px|].
  - unfold persist_mask, bind, get_world, os_makedirs, image_save, bind, get_world,
      or_raise, put_disk, ret, raise. simpl.
    destruct (Disk.makedirs _ _) as [d1|]; simpl.
    + destruct (Disk.write_file _ _ _) as [d2|]; simpl.
      * exists d2. split; [reflexivity | right; now eexists].
      * exists d1. split; [reflexivity | now left].
    + exists (disk w). split; [now destruct w | now left].
  - exists (disk w). split; [now destruct w | right; now eexists].
Qed.

(** What lines 82-92 do, in closed form. *)
Lemma advance_eq (w : world) (folder : string) (entry : folder_entry)
    (pre post : list string) :
  PyDict.get (file_tree (session w)) folder = Some entry ->
  PyDict.keys (file_tree (session w)) = (pre ++ folder :: post)%list ->
  ~ In folder pre ->
  advance folder w =
    if current_img_idx (session w) <? Z.of_nat (List.length (base_names entry)) - 1
    then (with_session w (set_position (session w) (current_folder (session w))
                            (current_img_idx (session w) + 1)), Done tt)
    else match post with
         | next :: _ => (with_session w (set_position (session w) (Some next) 0), Done tt)
         | [] => (with_message w all_completed, Done tt)
         end.
Proof.
  intros Hget Hkeys Hpre.
  unfold advance, bind, get_session, or_raise, ret, put_session, show. simpl.
  rewrite Hget. simpl.
  destruct (_ <? _); [reflexivity |].
  rewrite Hkeys, (index_middle _ _ _ Hpre). simpl.
  rewrite length_app. simpl.
  destruct post as [|next post'];
    match goal with |- context [?a <? ?b] => destruct (Z.ltb_spec a b) end;
    try (exfalso; simpl in *; lia); [reflexivity |].
  replace (Z.of_nat (List.length pre) + 1) with (Z.of_nat (S (List.length pre))) by lia.
  rewrite getitem_nat.
  rewrite List.nth_error_app2 by lia.
  replace (S (List.length pre) - List.length pre)%nat with 1%nat by lia.
  reflexivity.
Qed.

(** One Save on [folder], once the mask step has returned. *)
Lemma save_after_persist (w w1 : world) (folder : string) (c : save_call)
    (status : string) :
  persist_mask folder (call_base c) (call_mask c) w = (w1, Done status) ->
  save_call_run folder c w =
    match advance folder
            (with_session w1
               (set_annotations (session w1)
                  (upsert (annotations (session w1)) folder (call_base c) (call_tag c)
                     (call_notes c) status))) with
    | (w', Done _) => (w', Rerun)
    | (w', Rerun) => (w', Rerun)
    | (w', Raised e) => (w', Raised e)
    end.
Proof.
  intros Hp. unfold save_call_run, save_annotation_and_next, bind. rewrite Hp.
  unfold get_session, put_session, st_rerun. simpl.
  destruct (advance folder _) as [w' [[] | | e]]; reflexivity.
Qed.

Lemma save_persist_failed (w w1 : world) (folder : string) (c : save_call) (e : exn) :
  persist_mask folder (call_base c) (call_mask c) w = (w1, Raised e) ->
  save_call_run folder c w = (w1, Raised e).
Proof.
  intros Hp. unfold save_call_run, save_annotation_and_next, bind. now rewrite Hp.
Qed.

(** At the last sample of the last folder a Save changes neither the tree
    nor the position, and fails only when the disk does. *)
Lemma save_terminal (w : world) (folder : string) (entry : folder_entry)
    (pre : list string) (c : save_call) :
  PyDict.get (file_tree (session w)) folder = Some entry ->
  PyDict.keys (file_tree (session w)) = (pre ++ [folder])%list ->
  ~ In folder pre ->
  current_img_idx (session w) = Z.of_nat (List.length (base_names entry)) - 1 ->
  file_tree (session (fst (save_call_run folder c w))) = file_tree (session w)
  /\ position (session (fst (save_call_run folder c w))) = position (session w)
  /\ (snd (save_call_run folder c w) = Rerun
      \/ snd (save_call_run folder c w) = Raised OSError)
  /\ (call_mask c = None -> snd (save_call_run folder c w) = Rerun).
Proof.
  intros Hget Hkeys Hpre Hidx.
  destruct (persist_mask_frame w folder (call_base c) (call_mask c))
    as (d & Hfst & Hsnd).
  destruct (persist_mask folder (call_base c) (call_mask c) w) as [w1 o] eqn:Hp.
  simpl in Hfst, Hsnd. subst w1.
  destruct Hsnd as [-> | [status ->]].
  - rewrite (save_persist_failed _ _ _ _ _ Hp). simpl. repeat split; auto.
    intros Hnone. rewrite Hnone in Hp. discriminate Hp.
  - rewrite (save_after_persist _ _ _ _ _ Hp).
    erewrite advance_eq with (entry := entry) (pre := pre) (post := []);
      [| exact Hget | exact Hkeys | exact Hpre].
    simpl. rewrite Hidx, Z.ltb_irrefl. simpl. repeat split; auto.
Qed.

Lemma saves_terminal (folder : string) (entry : folder_entry) (pre : list string)
    (calls : list save_call) (w : world) :
  PyDict.get (file_tree (session w)) folder = Some entry ->
  PyDict.keys (file_tree (session w)) = (pre ++ [folder])%list ->
  ~ In folder pre ->
  current_img_idx (session w) = Z.of_nat (List.length (base_names entry)) - 1 ->
  file_tree (session (saves folder calls w)) = file_tree (session w)
  /\ position (session (saves folder calls w)) = position (session w).
Proof.
  revert w. induction calls as [|c calls IH]; intros w Hget Hkeys Hpre Hidx; simpl.
  - split; reflexivity.
  - destruct (save_terminal w folder entry pre c Hget Hkeys Hpre Hidx)
      as (Htree & Hpos & _).
    assert (Hidx' : current_img_idx (session (fst (save_call_run folder c w)))
                    = current_img_idx (session w))
      by (unfold position in Hpos; congruence).
    destruct (IH (fst (save_call_run folder c w))) as [IHt IHp];
      rewrite ?Htree, ?Hidx'; try assumption.
    split; congruence.
Qed.

(** Navigation touches neither the working directory, nor the disk, nor
    the table. *)
Lemma advance_frame (w : world) (folder : string) :
  cwd (fst (advance folder w)) = cwd w
  /\ disk (fst (advance folder w)) = disk w
  /\ annotations (session (fst (advance folder w))) = annotations (session w).
Proof.
  unfold advance, bind, get_session, or_raise, ret, raise, put_session, show.
  simpl. destruct (PyDict.get _ folder) as [entry|]; simpl; [| now repeat split].
  destruct (_ <? _); simpl; [now repeat split |].
  destruct (PyList.index _ folder) as [i|]; simpl; [| now repeat split].
  destruct (_ <? _); simpl; [| now repeat split].
  destruct (PyList.getitem _ _); simpl; now repeat split.
Qed.

(** What a Save leaves on disk and in the table, once the mask step has
    returned [status]. *)
Lemma save_records (w w1 : world) (folder : string) (c : save_call) (status : string) :
  persist_mask folder (call_base c) (call_mask c) w = (w1, Done status) ->
  cwd (fst (save_call_run folder c w)) = cwd w
  /\ disk (fst (save_call_run folder c w)) = disk w1
  /\ annotations (session (fst (save_call_run folder c w)))
     = upsert (annotations (session w)) folder (call_base c) (call_tag c)
         (call_notes c) status.
Proof.
  intros Hp. rewrite (save_after_persist _ _ _ _ _ Hp).
  destruct (persist_mask_frame w folder (call_base c) (call_mask c)) as (d & Hfst & _).
  rewrite Hp in Hfst. simpl in Hfst. subst w1.
  match goal with
  | |- context [advance folder ?w2] =>
      destruct (advance_frame w2 folder) as (Hc & Hd & Ha);
      destruct (advance folder w2) as [w' [[] | | e]]
  end; simpl in *; now repeat split.
Qed.

(** On a disk that can take the mask of a call, the mask step returns, and
    the disk can then take the masks it could take before. *)
Lemma persist_mask_ready (w : world) (folder : string) (c : save_call) :
  PosixPath.isabs (cwd w) = true ->
  Disk.dirs_free (disk w) (mask_dir w folder) = true ->
  can_save w folder c ->
  exists status d,
    persist_mask folder (call_base c) (call_mask c) w = (with_disk w d, Done status)
    /\ Disk.dirs_free d (mask_dir w folder) = true
    /\ forall c', can_save w folder c' -> can_save (with_disk w d) folder c'.
Proof.
  intros Habs Hfree [Hnone | [Hname Hnd]].
  - rewrite Hnone. exists "No", (disk w).
    replace (with_disk w (disk w)) with w by now destruct w.
    split; [reflexivity |]. split; [exact Hfree | auto].
  - destruct (call_mask c) as [px|] eqn:Em.
    + destruct (persist_mask_some w folder (call_base c) px Habs Hname Hfree Hnd)
        as (d & Hp & _ & _ & Hfree' & Hnd').
      exists "Yes", d. split; [exact Hp |]. split; [exact Hfree' |].
      intros c' [Hnone' | [Hname' Hnd'']]; [now left | right].
      split; [exact Hname' |].
      change (cwd (with_disk w d)) with (cwd w).
      change (mask_path (with_disk w d) folder (call_base c'))
        with (mask_path w folder (call_base c')).
      rewrite (mask_path_components w folder (call_base c') Habs Hname') in *.
      now apply Hnd'.
    + exists "No", (disk w).
      replace (with_disk w (disk w)) with w by now destruct w.
      split; [reflexivity |]. split; [exact Hfree | auto].
Qed.

(** At the last sample of the last folder, on a disk that can take their
    masks, every Save of a sequence ends in the rerun. *)
Lemma saves_terminal_rerun (folder : string) (entry : folder_entry) (pre : list string)
    (calls : list save_call) (c : save_call) (w : world) :
  PyDict.get (file_tree (session w)) folder = Some entry ->
  PyDict.keys (file_tree (session w)) = (pre ++ [folder])%list ->
  ~ In folder pre ->
  current_img_idx (session w) = Z.of_nat (List.length (base_names entry)) - 1 ->
  PosixPath.isabs (cwd w) = true ->
  Disk.dirs_free (disk w) (mask_dir w folder) = true ->
  List.Forall (can_save w folder) (calls ++ [c]) ->
  snd (save_call_run folder c (saves folder calls w)) = Rerun.
Proof.
  revert w. induction calls as [|c0 calls IH];
    intros w Hget Hkeys Hpre Hidx Habs Hfree Hall.
  - simpl in *. inversion Hall as [|? ? Hc _]; subst.
    destruct (persist_mask_ready w folder c Habs Hfree Hc) as (status & d & Hp & _).
    rewrite (save_after_persist _ _ _ _ _ Hp).
    erewrite advance_eq with (entry := entry) (pre := pre) (post := []);
      [| exact Hget | exact Hkeys | exact Hpre].
    simpl. now rewrite Hidx, Z.ltb_irrefl.
  - simpl in Hall. inversion Hall as [|? ? Hc0 Hrest]; subst. simpl.
    destruct (save_terminal w folder entry pre c0 Hget Hkeys Hpre Hidx)
      as (Htree & Hpos & _).
    destruct (persist_mask_ready w folder c0 Habs Hfree Hc0)
      as (status & d & Hp & Hfree' & Hcan).
    destruct (save_records _ _ _ _ _ Hp) as (Hcwd & Hdisk & _).
    set (w0 := fst (save_call_run folder c0 w)) in *.
    assert (Hmd : mask_dir w0 folder = mask_dir w folder)
      by (unfold mask_dir, MASKS_DIR; now rewrite Hcwd).
    apply IH.
    + now rewrite Htree.
    + now rewrite Htree.
    + exact Hpre.
    + unfold position in Hpos. injection Hpos as _ Hi. now rewrite Hi.
    + now rewrite Hcwd.
    + rewrite Hmd, Hdisk. exact Hfree'.
    + eapply List.Forall_impl; [| exact Hrest].
      intros c' Hc'. destruct (Hcan c' Hc') as [Hn | [Hname Hnd]]; [now left | right].
      split; [exact Hname |].
      unfold mask_path, MASKS_DIR in *. rewrite Hcwd, Hdisk. exact Hnd.
Qed.

End Navigation.

(** C2. In a Browsing state, Save&Next (once its mask step has returned)
    moves to the next sample of the folder when the index is below the last
    position; otherwise to index 0 of the folder that follows in tree order;
    otherwise it keeps folder and index and shows the completion message.
    At that last position any sequence of further Save&Next calls keeps
    folder and index, and none of them ends in an error of navigation: each
    asks for the rerun, or carries the [OSError] of its own mask write; on
    a disk that can take the masks of the sequence none of them raises. *)
Theorem save_and_next_navigation (w : App.world) (folder : string)
    (entry : App.folder_entry) (pre post : list string) :
  App.Browsing (App.session w) folder entry ->
  PyDict.keys (App.file_tree (App.session w)) = (pre ++ folder :: post)%list ->
  ~ In folder pre ->
  let idx := App.current_img_idx (App.session w) in
  let last := (Z.of_nat (List.length (App.base_names entry)) - 1)%Z in
  (forall (c : App.save_call) (w1 : App.world) (status : string),
      App.persist_mask folder (App.call_base c) (App.call_mask c) w = (w1, App.Done status) ->
      exists w',
        App.save_call_run folder c w = (w', App.Rerun)
        /\ App.position (App.session w')
           = (if (idx <? last)%Z then (Some folder, (idx + 1)%Z)
              else match post with
                   | next :: _ => (Some next, 0%Z)
                   | [] => (Some folder, idx)
                   end)
        /\ App.screen w'
           = (if (idx <? last)%Z then App.screen w
              else match post with
                   | _ :: _ => App.screen w
                   | [] => (App.screen w ++ [App.all_completed])%list
                   end))
  /\ (idx = last -> post = [] ->
      forall calls : list App.save_call,
        App.position (App.session (App.saves folder calls w)) = (Some folder, idx)
        /\ forall c : App.save_call,
             (snd (App.save_call_run folder c (App.saves folder calls w)) = App.Rerun
              \/ snd (App.save_call_run folder c (App.saves folder calls w))
                 = App.Raised App.OSError)
             /\ (App.call_mask c = None ->
                 snd (App.save_call_run folder c (App.saves folder calls w)) = App.Rerun)
             /\ (PosixPath.isabs (App.cwd w) = true ->
                 Disk.dirs_free (App.disk w) (App.mask_dir w folder) = true ->
                 List.Forall (App.can_save w folder) (calls ++ [c]) ->
                 snd (App.save_call_run folder c (App.saves folder calls w)) = App.Rerun)).
Proof.
  intros (Hscan & Hcur & Hget & Hrange) Hkeys Hpre idx last. split.
  - intros c w1 status Hp.
    destruct (persist_mask_frame w folder (App.call_base c) (App.call_mask c))
      as (d & Hfst & _).
    rewrite Hp in Hfst. simpl in Hfst. subst w1.
    rewrite (save_after_persist _ _ _ _ _ Hp).
    erewrite advance_eq with (entry := entry) (pre := pre) (post := post);
      [| exact Hget | exact Hkeys | exact Hpre].
    simpl. fold idx last. destruct (idx <? last)%Z.
    + eexists. split; [reflexivity |]. simpl. unfold App.position. simpl.
      now rewrite Hcur.
    + destruct post as [|next post']; eexists; (split; [reflexivity |]);
        simpl; unfold App.position; simpl; now rewrite ?Hcur.
  - intros Hidx -> calls.
    destruct (saves_terminal folder entry pre calls w Hget Hkeys Hpre Hidx)
      as [Htree Hpos].
    split.
    + rewrite Hpos. unfold App.position. now rewrite Hcur.
    + intros c.
      assert (Hidx' : App.current_img_idx (App.session (App.saves folder calls w)) = idx)
        by (unfold App.position in Hpos; now injection Hpos).
      assert (Hlast : App.current_img_idx (App.session (App.saves folder calls w))
                      = (Z.of_nat (List.length (App.base_names entry)) - 1)%Z)
        by (rewrite Hidx'; exact Hidx).
      pose proof Hget as Hget'. pose proof Hkeys as Hkeys'.
      rewrite <- Htree in Hget', Hkeys'.
      destruct (save_terminal (App.saves folder calls w) folder entry pre c
                  Hget' Hkeys' Hpre Hlast) as (_ & _ & Hout & Hnone).
      split; [exact Hout |]. split; [exact Hnone |].
      intros Habs Hfree Hall.
      exact (saves_terminal_rerun folder entry pre calls c w Hget Hkeys Hpre Hidx
               Habs Hfree Hall).
Qed.

(* ===================================================================== *)
(** * The annotation table *)
(* ===================================================================== *)

Section Table.
Import App.
Implicit Types (t rs : list annotation) (r x : annotation).

Lemma same_key_spec r1 r2 : same_key r1 r2 = true <-> key r1 = key r2.
Proof.
  unfold same_key, key. rewrite andb_true_iff, !String.eqb_eq.
  split; [intros [-> ->]; reflexivity | intros [= -> ->]; now split].
Qed.

Lemma has_key_spec k r : has_key k r = true <-> key r = k.
Proof.
  unfold has_key, key. destruct k as [f b]. simpl.
  rewrite andb_true_iff, !String.eqb_eq.
  split; [intros [-> ->]; reflexivity | intros [= -> ->]; now split].
Qed.

Lemma lookup_has_key t folder base :
  App.lookup t folder base = List.filter (has_key (folder, base)) t.
Proof. reflexivity. Qed.

Lemma upsert_row_eta t r :
  upsert_row t r = drop_duplicates_keep_last (t ++ [r])%list.
Proof. unfold upsert_row, upsert. now destruct r. Qed.

Lemma existsb_same_key r t :
  List.existsb (same_key r) t = true <-> In (key r) (List.map key t).
Proof.
  rewrite existsb_exists, in_map_iff. split.
  - intros (x & Hx & E). exists x. apply same_key_spec in E. now split.
  - intros (x & E & Hx). exists x. split; [assumption |].
    now apply same_key_spec.
Qed.

Lemma drop_duplicates_In x t : In x (drop_duplicates_keep_last t) -> In x t.
Proof.
  induction t as [|r t IH]; simpl; [tauto |].
  destruct (List.existsb (same_key r) t); simpl; tauto.
Qed.

Lemma drop_duplicates_NoDup t :
  List.NoDup (List.map key (drop_duplicates_keep_last t)).
Proof.
  induction t as [|r t IH]; simpl; [constructor |].
  destruct (List.existsb (same_key r) t) eqn:E; [assumption |].
  simpl. constructor; [| assumption].
  intros Hin. apply in_map_iff in Hin as (x & Hk & Hx).
  apply drop_duplicates_In in Hx.
  assert (List.existsb (same_key r) t = true); [| congruence].
  apply existsb_same_key. rewrite <- Hk. now apply in_map.
Qed.

Lemma drop_duplicates_id t :
  List.NoDup (List.map key t) -> drop_duplicates_keep_last t = t.
Proof.
  induction t as [|r t IH]; simpl; [reflexivity |].
  intros Hnd. inversion Hnd as [|? ? Hnotin Hnd']; subst.
  destruct (List.existsb (same_key r) t) eqn:E.
  - apply existsb_same_key in E. contradiction.
  - now rewrite IH.
Qed.

(** Append-then-deduplicate is: remove the row of that key, append. *)
Lemma drop_duplicates_snoc t r :
  drop_duplicates_keep_last (t ++ [r])
  = (List.filter (fun x => negb (same_key x r)) (drop_duplicates_keep_last t) ++ [r])%list.
Proof.
  induction t as [|x t IH]; simpl; [reflexivity |].
  rewrite existsb_app. simpl. rewrite orb_false_r.
  destruct (List.existsb (same_key x) t); simpl; [exact IH |].
  destruct (same_key x r); simpl; now rewrite IH.
Qed.

Lemma upsert_row_eq t r :
  List.NoDup (List.map key t) ->
  upsert_row t r = (List.filter (fun x => negb (same_key x r)) t ++ [r])%list.
Proof.
  intros Hnd. now rewrite upsert_row_eta, drop_duplicates_snoc, drop_duplicates_id.
Qed.

Lemma upsert_row_NoDup t r : List.NoDup (List.map key (upsert_row t r)).
Proof. rewrite upsert_row_eta. apply drop_duplicates_NoDup. Qed.

Lemma upserts_snoc rs r t : upserts (rs ++ [r]) t = upsert_row (upserts rs t) r.
Proof. unfold upserts. now rewrite fold_left_app. Qed.

Lemma upserts_NoDup rs t :
  List.NoDup (List.map key t) -> List.NoDup (List.map key (upserts rs t)).
Proof.
  revert t. induction rs as [|r rs IH]; intros t Hnd; simpl; [assumption |].
  apply IH, upsert_row_NoDup.
Qed.

Lemma In_upsert_row t r x :
  List.NoDup (List.map key t) ->
  In x (upsert_row t r) <-> (In x t /\ key x <> key r) \/ x = r.
Proof.
  intros Hnd. rewrite (upsert_row_eq _ _ Hnd), in_app_iff, filter_In. simpl.
  rewrite negb_true_iff, <- not_true_iff_false, same_key_spec. intuition.
Qed.

Lemma last_with_key_snoc rs r k :
  last_with_key (rs ++ [r]) k = if has_key k r then Some r else last_with_key rs k.
Proof. unfold last_with_key. now rewrite rev_unit. Qed.

Lemma last_with_key_Some rs k r :
  last_with_key rs k = Some r -> key r = k /\ In r rs.
Proof.
  unfold last_with_key. intros H. apply find_some in H as [Hin Hk].
  split; [now apply has_key_spec | now apply in_rev].
Qed.

Lemma last_with_key_None rs k :
  last_with_key rs k = None -> ~ In k (List.map key rs).
Proof.
  unfold last_with_key. intros H Hin. apply in_map_iff in Hin as (r & Hk & Hr).
  apply in_rev in Hr. pose proof (find_none _ _ H r Hr) as Hf.
  apply has_key_spec in Hk. congruence.
Qed.

(** The table after a sequence of upserts holds, for each key, exactly the
    last row upserted for it. *)
Lemma In_upserts rs x : In x (upserts rs []) <-> last_with_key rs (key x) = Some x.
Proof.
  induction rs as [|r rs IH] using rev_ind.
  - simpl. split; [tauto | discriminate].
  - rewrite upserts_snoc, last_with_key_snoc.
    rewrite In_upsert_row by (apply upserts_NoDup; constructor).
    rewrite IH. destruct (has_key (key x) r) eqn:E.
    + apply has_key_spec in E. split.
      * intros [[_ Hne] | ->]; [congruence | reflexivity].
      * intros [= ->]. now right.
    + assert (Hne : key r <> key x).
      { intros Heq. apply has_key_spec in Heq. congruence. }
      split.
      * intros [[H _] | ->]; [assumption | congruence].
      * intros H. left. split; [assumption | congruence].
Qed.

Lemma keys_upserts rs k :
  In k (List.map key (upserts rs [])) <-> In k (List.map key rs).
Proof.
  split.
  - intros H. apply in_map_iff in H as (x & <- & Hx).
    apply In_upserts, last_with_key_Some in Hx as [_ Hx]. now apply in_map.
  - intros H. destruct (last_with_key rs k) as [x|] eqn:E.
    + destruct (last_with_key_Some _ _ _ E) as [Hk _]. subst k.
      apply In_upserts in E. now apply in_map.
    + now apply last_with_key_None in E.
Qed.

(** *** The prefill query *)

Lemma lookup_absent t k :
  ~ In k (List.map key t) -> List.filter (has_key k) t = [].
Proof.
  induction t as [|x t IH]; simpl; [reflexivity |].
  intros H. destruct (has_key k x) eqn:E.
  - apply has_key_spec in E. tauto.
  - apply IH. tauto.
Qed.

Lemma lookup_unique t r :
  List.NoDup (List.map key t) -> In r t -> List.filter (has_key (key r)) t = [r].
Proof.
  induction t as [|x t IH]; simpl; [tauto |].
  intros Hnd Hin. inversion Hnd as [|? ? Hnotin Hnd']; subst.
  destruct Hin as [-> | Hin].
  - rewrite (proj2 (has_key_spec (key r) r) eq_refl).
    now rewrite lookup_absent.
  - destruct (has_key (key r) x) eqn:E.
    + apply has_key_spec in E. exfalso. apply Hnotin. rewrite E. now apply in_map.
    + now apply IH.
Qed.

Lemma In_upserts_later (later : list annotation) t r :
  List.NoDup (List.map key t) ->
  In r t ->
  List.Forall (fun x => key x <> key r) later ->
  In r (upserts later t).
Proof.
  revert t. induction later as [|x later IH]; intros t Hnd Hin Hl; simpl;
    [assumption |].
  inversion Hl as [|? ? Hx Hl']; subst.
  apply IH; [apply upsert_row_NoDup | | assumption].
  apply In_upsert_row; [assumption |]. left. split; [assumption | congruence].
Qed.

Lemma index_nth_error (l : list string) (x : string) (i : nat) :
  PyList.index l x = Some i -> List.nth_error l i = Some x.
Proof.
  revert i. induction l as [|y l IH]; intros i; simpl; [discriminate |].
  destruct (String.eqb_spec y x) as [-> | Hne].
  - now intros [= <-].
  - destruct (PyList.index l x) as [j|]; simpl; [| discriminate].
    intros [= <-]. now apply IH.
Qed.

Lemma prefill_found t folder base r rest :
  App.lookup t folder base = r :: rest ->
  previously_tagged (metadata_prefill t folder base) = true
  /\ notes_value (metadata_prefill t folder base) = Notes r
  /\ (In (Tag r) tag_options ->
      selected_tag (metadata_prefill t folder base) = Some (Tag r)).
Proof.
  intros H. unfold metadata_prefill. rewrite H. cbv zeta.
  change (fst (Tag r, Notes r)) with (Tag r).
  change (snd (Tag r, Notes r)) with (Notes r).
  repeat split. intros Hin. cbv [selected_tag].
  rewrite (proj2 (contains_In _ _) Hin).
  destruct (index_In _ _ Hin) as [i Hi]. rewrite Hi. simpl.
  now apply index_nth_error.
Qed.

End Table.

(** C1. After any sequence of upserts, with keys repeated at will, the table
    has one row per distinct key of the sequence, that row is the last one
    upserted for its key (tag, notes and mask-saved value included), and a
    further upsert removes the row of its key, keeps all other rows in their
    order, and appends the new row. *)
Theorem upsert_sequence_table (rs : list App.annotation) :
  let T := App.upserts rs [] in
  List.NoDup (List.map App.key T)
  /\ (forall k, In k (List.map App.key T) <-> In k (List.map App.key rs))
  /\ (forall r, In r T <-> App.last_with_key rs (App.key r) = Some r)
  /\ (forall folder base_name tag notes status : string,
        let row := {| App.Folder := folder; App.Base_Filename := base_name;
                      App.Tag := tag; App.Mask_Saved := status;
                      App.Notes := notes |} in
        App.upsert T folder base_name tag notes status
        = (List.filter (fun x => negb (App.same_key x row)) T ++ [row])%list).
Proof.
  intros T.
  assert (Hnd : List.NoDup (List.map App.key T))
    by (apply upserts_NoDup; constructor).
  split; [exact Hnd |]. split; [apply keys_upserts |]. split; [apply In_upserts |].
  intros folder base_name tag notes status row.
  exact (upsert_row_eq T row Hnd).
Qed.

(** What the prefill query finds, and the arguments the script hands to
    the form from it: after an upsert for a key, with no later upsert for
    that key, exactly the upserted row, so [value] is its notes and
    [index] points at its tag; for a key never upserted nothing, so the
    arguments are the first tag option and empty notes. *)
Lemma lookup_finds_last_upsert :
  (forall (t later : list App.annotation) (folder base_name tag notes status : string),
      List.Forall (fun x => App.key x <> (folder, base_name)) later ->
      let row := {| App.Folder := folder; App.Base_Filename := base_name;
                    App.Tag := tag; App.Mask_Saved := status; App.Notes := notes |} in
      let T := App.upserts later (App.upsert t folder base_name tag notes status) in
      App.lookup T folder base_name = [row]
      /\ App.previously_tagged (App.metadata_prefill T folder base_name) = true
      /\ App.notes_value (App.metadata_prefill T folder base_name) = notes
      /\ (In tag App.tag_options ->
          App.selected_tag (App.metadata_prefill T folder base_name) = Some tag))
  /\ (forall (rs : list App.annotation) (folder base_name : string),
      List.Forall (fun x => App.key x <> (folder, base_name)) rs ->
      App.lookup (App.upserts rs []) folder base_name = []
      /\ App.metadata_prefill (App.upserts rs []) folder base_name
         = {| App.previously_tagged := false;
              App.selected_tag := Some "Benign";
              App.notes_value := "" |}).
Proof.
  split.
  - intros t later folder base_name tag notes status Hlater row T.
    assert (Hlook : App.lookup T folder base_name = [row]).
    { rewrite lookup_has_key.
      apply (lookup_unique T row); [apply upserts_NoDup, (upsert_row_NoDup t row) |].
      apply In_upserts_later; [apply (upsert_row_NoDup t row) | | exact Hlater].
      change (In row (App.upsert_row t row)).
      rewrite upsert_row_eta, drop_duplicates_snoc, in_app_iff. right. now left. }
    split; [exact Hlook |].
    exact (prefill_found T folder base_name row [] Hlook).
  - intros rs folder base_name Hrs.
    assert (Hlook : App.lookup (App.upserts rs []) folder base_name = []).
    { rewrite lookup_has_key. apply lookup_absent. rewrite keys_upserts.
      intros Hin. apply in_map_iff in Hin as (x & Hk & Hx).
      rewrite List.Forall_forall in Hrs. now apply (Hrs x Hx). }
    split; [exact Hlook |].
    unfold App.metadata_prefill. now rewrite Hlook.
Qed.

(* ===================================================================== *)
(** * The dataset scanner *)
(* ===================================================================== *)

Section Scanner.
Import App.
Implicit Types (entry : string * list string * list string)
               (walked : list (string * list string * list string))
               (tree : list (string * folder_entry)).

Lemma filter_nil_existsb {A : Type} (p : A -> bool) (l : list A) :
  List.filter p l = [] <-> List.existsb p l = false.
Proof.
  induction l as [|x l IH]; simpl; [tauto |].
  destruct (p x); simpl; [split; discriminate | exact IH].
Qed.

Lemma scan_step_skip tree entry : has_raw entry = false -> scan_step tree entry = tree.
Proof.
  destruct entry as [[dirpath dirs] files]. unfold has_raw, files_of. simpl.
  intros H. apply filter_nil_existsb in H. now rewrite H.
Qed.

Lemma scan_step_register tree entry :
  has_raw entry = true ->
  scan_step tree entry
  = PyDict.set tree (fst (registered entry)) (snd (registered entry)).
Proof.
  destruct entry as [[dirpath dirs] files].
  unfold has_raw, registered, raw_files_of, dirpath_of, files_of. simpl.
  intros H. destruct (List.filter _ files) eqn:E; [| reflexivity].
  apply filter_nil_existsb in E. congruence.
Qed.

Lemma scan_nothing walked tree :
  (forall entry, In entry walked -> has_raw entry = false) ->
  List.fold_left scan_step walked tree = tree.
Proof.
  revert tree. induction walked as [|entry walked IH]; intros tree H; simpl;
    [reflexivity |].
  rewrite scan_step_skip by (apply H; now left).
  apply IH. intros e He. apply H. now right.
Qed.

(** With distinct leaf names the loop registers the qualifying
    directories one after the other. *)
Lemma scan_distinct walked tree :
  List.NoDup (PyDict.keys tree ++ List.map (fun e => fst (registered e)) (qualifying walked)) ->
  List.fold_left scan_step walked tree
  = (tree ++ List.map registered (qualifying walked))%list.
Proof.
  revert tree. induction walked as [|entry walked IH]; intros tree Hnd; simpl.
  - now rewrite app_nil_r.
  - unfold qualifying in *. simpl in Hnd.
    destruct (has_raw entry) eqn:E.
    + rewrite (scan_step_register _ _ E). simpl in Hnd.
      rewrite set_fresh.
      * rewrite IH.
        -- simpl. now rewrite <- app_assoc.
        -- unfold PyDict.keys. rewrite map_app. simpl. rewrite <- app_assoc.
           exact Hnd.
      * apply NoDup_remove_2 in Hnd. intros Hin. apply Hnd.
        apply in_or_app. now left.
    + rewrite (scan_step_skip _ _ E). now apply IH.
Qed.

Lemma has_raw_false entry :
  (forall f, In f (files_of entry) -> PyStr.endswith f raw_suffix = false) ->
  has_raw entry = false.
Proof.
  intros H. unfold has_raw. destruct (List.existsb _ _) eqn:E; [| reflexivity].
  apply existsb_exists in E as (f & Hf & Ef). rewrite (H f Hf) in Ef. discriminate.
Qed.

Lemma sorted_length (l : list string) :
  List.length (PyList.sorted l) = List.length l.
Proof. apply Permutation_length, merge_sort_Permutation. Qed.

(** *** Base names of files that hold the suffix once *)

Lemma replace_go_skip_all (old new : string) (s : string) :
  forall k, (String.length s <= k)%nat -> PyStr.replace_go old new k s = "".
Proof.
  induction s as [|c s IH]; intros k Hk; [reflexivity |].
  destruct k as [|k]; simpl in Hk; [lia |]. simpl. apply IH. lia.
Qed.

Lemma find_replace (old : string) (s : string) :
  old <> "" ->
  forall n, PyStr.find s old = Some n ->
    (n + String.length old = String.length s)%nat ->
    PyStr.replace_go old "" O s = String.substring 0 n s.
Proof.
  intros Hold. induction s as [|c s IH]; intros n Hfind Hlen.
  - destruct old; [congruence | discriminate Hfind].
  - rewrite replace_go_unfold.
    change (PyStr.find (String c s) old)
      with (if String.prefix old (String c s) then Some O
            else option_map S (PyStr.find s old)) in Hfind.
    destruct (String.prefix old (String c s)) eqn:E.
    + injection Hfind as <-. simpl in Hlen.
      rewrite replace_go_skip_all by (rewrite Hlen; simpl; lia).
      reflexivity.
    + destruct (PyStr.find s old) as [n'|] eqn:E'; [| discriminate Hfind].
      injection Hfind as <-. simpl. f_equal. apply IH; [reflexivity |].
      simpl in Hlen. lia.
Qed.

(** For a file name that holds [_raw.png] only as its suffix, the base
    name the scanner registers is the name without the suffix. *)
Lemma base_name_suffix_stripped (f : string) :
  raw_only_as_suffix f = true -> base_name_of f = strip_raw_suffix f.
Proof.
  unfold raw_only_as_suffix. destruct (PyStr.find f raw_suffix) as [i|] eqn:E;
    [| discriminate].
  intros H. apply Nat.eqb_eq in H.
  unfold base_name_of, strip_raw_suffix, PyStr.drop_end.
  replace (String.length f - String.length raw_suffix)%nat with i by lia.
  apply (find_replace raw_suffix f); [discriminate | exact E | exact H].
Qed.

End Scanner.

(** C4. When the root does not exist, or no directory under it holds a file
    ending in [_raw.png], the scan shows an error and the session state
    (tree, folder, index, ready flag, annotations) is what it was. *)
Theorem scan_failure_keeps_state (w : App.world) (root_path : string) :
  App.os_path_exists w root_path = false
  \/ (forall dirpath dirs files f,
        In (dirpath, dirs, files) (App.os_walk w root_path) ->
        In f files -> PyStr.endswith f "_raw.png" = false) ->
  exists text,
    App.scan_png_directory root_path w
    = (App.with_message w (App.st_error text), App.Done tt)
    /\ App.session (fst (App.scan_png_directory root_path w)) = App.session w.
Proof.
  intros H. unfold App.scan_png_directory, App.bind, App.get_world, App.show.
  destruct (App.os_path_exists w root_path) eqn:E; simpl.
  - destruct H as [H | H]; [discriminate H |].
    rewrite scan_nothing.
    + simpl. eexists. split; reflexivity.
    + intros [[dirpath dirs] files] Hin. apply has_raw_false.
      intros f Hf. exact (H dirpath dirs files f Hin Hf).
  - eexists. split; reflexivity.
Qed.

Lemma scan_failure_keeps_state_witness :
  exists text,
    App.scan_png_directory (App.DATA_DIR Sample.no_raw) Sample.no_raw
    = (App.with_message Sample.no_raw (App.st_error text), App.Done tt)
    /\ App.session (fst (App.scan_png_directory (App.DATA_DIR Sample.no_raw) Sample.no_raw))
       = App.session Sample.no_raw.
Proof.
  apply (scan_failure_keeps_state Sample.no_raw (App.DATA_DIR Sample.no_raw)).
  right. intros dirpath dirs files f Hin Hf. vm_compute in Hin.
  destruct Hin as [[= <- <- <-] | [[= <- <- <-] | []]]; simpl in Hf.
  - destruct Hf.
  - destruct Hf as [<- | []]. reflexivity.
Defined.

(** C5. Under an existing root whose qualifying directories have
    pairwise distinct leaf names and whose raw file names hold [_raw.png]
    only as their suffix, a successful scan installs one key per
    qualifying directory, in walk order; each key maps to its directory's
    path and to the sorted list of that directory's base names, the raw
    file names without the suffix; navigation is reset to the first folder
    at index 0 and the dataset is marked ready. *)
Theorem scan_success_installs_tree (w : App.world) (root_path : string) :
  App.os_path_exists w root_path = true ->
  let Q := App.qualifying (App.os_walk w root_path) in
  Q <> [] ->
  List.NoDup (List.map (fun e => PosixPath.basename (App.dirpath_of e)) Q) ->
  (forall e f, In e Q -> In f (App.raw_files_of e) -> App.raw_only_as_suffix f = true) ->
  let s' := App.session (fst (App.scan_png_directory root_path w)) in
  snd (App.scan_png_directory root_path w) = App.Done tt
  /\ PyDict.keys (App.file_tree s')
     = List.map (fun e => PosixPath.basename (App.dirpath_of e)) Q
  /\ List.length (PyDict.keys (App.file_tree s')) = List.length Q
  /\ (forall e, In e Q ->
        exists names,
          PyDict.get (App.file_tree s') (PosixPath.basename (App.dirpath_of e))
          = Some {| App.path := App.dirpath_of e; App.base_names := names |}
          /\ StronglySorted String.le names
          /\ Permutation names (List.map App.strip_raw_suffix (App.raw_files_of e)))
  /\ (exists first rest,
        Q = first :: rest
        /\ App.current_folder s' = Some (PosixPath.basename (App.dirpath_of first)))
  /\ App.current_img_idx s' = 0%Z
  /\ App.scan_complete s' = true
  /\ App.annotations s' = App.annotations (App.session w).
Proof.
  intros Hex Q Hne Hnd Hsuffix s'.
  assert (Htree : List.fold_left App.scan_step (App.os_walk w root_path) []
                  = List.map App.registered Q).
  { rewrite scan_distinct; [reflexivity | exact Hnd]. }
  assert (Hkeys : PyDict.keys (List.map App.registered Q)
                  = List.map (fun e => PosixPath.basename (App.dirpath_of e)) Q).
  { unfold PyDict.keys. rewrite List.map_map. reflexivity. }
  destruct Q as [|first rest] eqn:EQ; [congruence |].
  remember (List.map App.registered (first :: rest)) as tree eqn:Etree.
  assert (Hrun : App.scan_png_directory root_path w
                 = (App.with_session w
                      {| App.scan_complete := true;
                         App.file_tree := tree;
                         App.annotations := App.annotations (App.session w);
                         App.current_folder :=
                           Some (PosixPath.basename (App.dirpath_of first));
                         App.current_img_idx := 0 |}, App.Done tt)).
  { unfold App.scan_png_directory, App.bind, App.get_world, App.put_session.
    rewrite Hex. simpl negb. cbv iota. rewrite Htree. subst tree. reflexivity. }
  subst s'. rewrite Hrun. simpl.
  split; [reflexivity |]. split; [exact Hkeys |].
  split; [now rewrite Hkeys, !List.length_map |].
  split; [| split; [now exists first, rest | repeat split]].
  intros e He. exists (PyList.sorted (List.map App.base_name_of (App.raw_files_of e))).
  split; [| split].
  - apply In_get; [now rewrite Hkeys |].
    subst tree. change (In (App.registered e) (List.map App.registered (first :: rest))).
    now apply List.in_map.
  - apply StronglySorted_merge_sort; apply _.
  - rewrite <- (List.map_ext_in App.base_name_of App.strip_raw_suffix
                  (App.raw_files_of e))
      by (intros f Hf; exact (base_name_suffix_stripped f (Hsuffix e f He Hf))).
    apply merge_sort_Permutation.
Qed.

Lemma scan_success_installs_tree_witness :
  let s' := App.session
              (fst (App.scan_png_directory (App.DATA_DIR Sample.fresh) Sample.fresh)) in
  PyDict.keys (App.file_tree s') = ["A"; "B"]
  /\ List.length (PyDict.keys (App.file_tree s')) = 2%nat
  /\ (exists names,
        PyDict.get (App.file_tree s') "B"
        = Some {| App.path := "/w/_precomputed_data/B"; App.base_names := names |}
        /\ StronglySorted String.le names
        /\ Permutation names ["t2"; "t1"])
  /\ App.current_img_idx s' = 0%Z
  /\ App.scan_complete s' = true.
Proof.
  assert (Hex : App.os_path_exists Sample.fresh (App.DATA_DIR Sample.fresh) = true)
    by reflexivity.
  assert (Hne : App.qualifying (App.os_walk Sample.fresh (App.DATA_DIR Sample.fresh)) <> [])
    by (vm_compute; discriminate).
  assert (Hnd : List.NoDup
                  (List.map (fun e => PosixPath.basename (App.dirpath_of e))
                     (App.qualifying (App.os_walk Sample.fresh (App.DATA_DIR Sample.fresh))))).
  { vm_compute. repeat constructor; simpl; intuition discriminate. }
  assert (Hsuffix : forall e f,
            In e (App.qualifying (App.os_walk Sample.fresh (App.DATA_DIR Sample.fresh))) ->
            In f (App.raw_files_of e) -> App.raw_only_as_suffix f = true).
  { intros e f He Hf.
    change (In e [("/w/_precomputed_data/A", [], ["s1_raw.png"; "s1_norm.png"]);
                  ("/w/_precomputed_data/B", [],
                   ["t2_raw.png"; "t1_raw.png"; "notes.txt"])]) in He.
    destruct He as [<- | [<- | []]]; vm_compute in Hf.
    - destruct Hf as [<- | []]. reflexivity.
    - destruct Hf as [<- | [<- | []]]; reflexivity. }
  destruct (scan_success_installs_tree Sample.fresh (App.DATA_DIR Sample.fresh)
              Hex Hne Hnd Hsuffix) as (_ & Hkeys & Hlen & Hnames & _ & Hidx & Hready & _).
  refine (conj Hkeys (conj Hlen (conj _ (conj Hidx Hready)))).
  exact (Hnames ("/w/_precomputed_data/B", [], ["t2_raw.png"; "t1_raw.png"; "notes.txt"])
           (or_intror (or_introl eq_refl))).
Defined.

(** C5 as stated fails on both counts. Two qualifying directories that
    share a leaf name are registered under one key, so the tree has fewer
    keys than there are such directories. And a raw file whose name holds
    [_raw.png] twice is registered under a base name that is not its name
    without the suffix. *)
Lemma scan_tree_counterexample :
  ~ (forall (w : App.world) (root_path : string),
       App.os_path_exists w root_path = true ->
       App.qualifying (App.os_walk w root_path) <> [] ->
       List.length
         (PyDict.keys (App.file_tree (App.session (fst (App.scan_png_directory root_path w)))))
       = List.length (App.qualifying (App.os_walk w root_path)))
  /\ ~ (forall (w : App.world) (root_path : string)
               (e : string * list string * list string),
          App.os_path_exists w root_path = true ->
          In e (App.qualifying (App.os_walk w root_path)) ->
          exists names,
            PyDict.get
              (App.file_tree (App.session (fst (App.scan_png_directory root_path w))))
              (PosixPath.basename (App.dirpath_of e))
            = Some {| App.path := App.dirpath_of e; App.base_names := names |}
            /\ Permutation names (List.map App.strip_raw_suffix (App.raw_files_of e))).
Proof.
  split.
  - intros H.
    specialize (H Sample.same_leaf (App.DATA_DIR Sample.same_leaf) eq_refl).
    vm_compute in H. assert (E : 1%nat = 2%nat) by (apply H; discriminate).
    discriminate E.
  - intros H.
    destruct (H Sample.doubled_suffix (App.DATA_DIR Sample.doubled_suffix)
                ("/w/_precomputed_data/A", [], ["a_raw.png_raw.png"]) eq_refl
                (or_introl eq_refl)) as (names & Hget & Hperm).
    vm_compute in Hget. injection Hget as <-.
    change (List.map App.strip_raw_suffix
              (App.raw_files_of ("/w/_precomputed_data/A", [], ["a_raw.png_raw.png"])))
      with ["a_raw.png"] in Hperm.
    apply Permutation_length_1 in Hperm. discriminate Hperm.
Qed.

(** C9. The base name registered for a raw file is the file name with
    every occurrence of [_raw.png] removed, which is not the suffix-stripped
    name when the suffix occurs twice: [a_raw.png_raw.png] is registered as
    [a], and the raw layer the view then asks for, [a_raw.png], is not the
    file that was scanned. *)
Theorem base_name_removes_every_occurrence :
  let f := "a_raw.png_raw.png" in
  PyStr.endswith f "_raw.png" = true
  /\ App.base_name_of f = "a"
  /\ App.strip_raw_suffix f = "a_raw.png"
  /\ App.base_name_of f +:+ "_raw.png" <> f
  /\ List.map (fun item => App.base_names (snd item))
       (App.file_tree
          (App.session (App.run_all [App.LoadDataset] Sample.doubled_suffix)))
     = [["a"]].
Proof. vm_compute. repeat split. discriminate. Qed.

(* ===================================================================== *)
(** * The names the scanner hands to the rest of the app *)
(* ===================================================================== *)

Section ScannedNames.
Import App.

Lemma basename_append_sep (a name : string) :
  Disk.valid_name name = true ->
  PosixPath.basename (a +:+ String "/" name) = name.
Proof.
  intros Hv. unfold PosixPath.basename.
  rewrite split_append_sep, (valid_name_split _ Hv). apply List.last_last.
Qed.

Lemma basename_join (a name : string) :
  Disk.valid_name name = true -> PosixPath.basename (PosixPath.join a name) = name.
Proof.
  intros Hv. unfold PosixPath.join. rewrite (valid_name_relative _ Hv).
  destruct (String.eqb_spec a "") as [-> | Hne]; simpl.
  - unfold PosixPath.basename. now rewrite append_nil_l, (valid_name_split _ Hv).
  - destruct (PyStr.endswith a "/") eqn:E.
    + apply endswith_spec in E as [p ->]. rewrite append_assoc.
      now apply basename_append_sep.
    + now apply basename_append_sep.
Qed.

(** Every directory [os.walk] lists on a well-formed disk is named by a
    path component, and so are the files in it. *)
Lemma walk_names (n : Disk.node) :
  forall top,
    Disk.wf n = true ->
    Disk.valid_name (PosixPath.basename top) = true ->
    forall entry, In entry (Disk.walk top n) ->
      Disk.valid_name (PosixPath.basename (dirpath_of entry)) = true
      /\ List.Forall (fun f => Disk.valid_name f = true) (files_of entry).
Proof.
  induction n as [c | es IH] using node_ind; intros top Hwf Htop entry Hin;
    [destruct Hin |].
  destruct (wf_dir es Hwf) as [_ Hvalid]. simpl in Hin. destruct Hin as [<- | Hin].
  - split; [exact Htop |]. unfold files_of, Disk.filenames. simpl.
    apply List.Forall_forall. intros f Hf.
    apply in_map_iff in Hf as ([name child] & <- & He).
    apply filter_In in He as [He _]. now apply (Hvalid name child).
  - apply in_flat_map in Hin as ([name child] & He & Hin).
    rewrite List.Forall_forall in IH.
    destruct (Hvalid name child He) as [Hname Hchild].
    apply (IH _ He (PosixPath.join top name)); try assumption.
    now rewrite basename_join.
Qed.

(** *** Slashes *)

Lemma has_slash_split (s : string) :
  PosixPath.has_slash s = true -> (2 <= List.length (PosixPath.split s))%nat.
Proof.
  induction s as [|c s IH]; simpl; [discriminate |].
  destruct (Ascii.eqb c PosixPath.sep); simpl.
  - intros _. pose proof (split_nonempty s).
    destruct (PosixPath.split s); [contradiction | simpl; lia].
  - intros H. specialize (IH H). destruct (PosixPath.split s); simpl in *; lia.
Qed.

Lemma split_no_slash (s : string) :
  PosixPath.has_slash s = false -> PosixPath.split s = [s].
Proof.
  induction s as [|c s IH]; simpl; [reflexivity |].
  destruct (Ascii.eqb c PosixPath.sep); simpl; [discriminate |].
  intros H. now rewrite (IH H).
Qed.

Lemma valid_name_no_slash (s : string) :
  Disk.valid_name s = true -> PosixPath.has_slash s = false.
Proof.
  intros Hv. destruct (PosixPath.has_slash s) eqn:E; [| reflexivity].
  apply has_slash_split in E. rewrite (valid_name_split _ Hv) in E. simpl in E. lia.
Qed.

Lemma has_slash_append (a b : string) :
  PosixPath.has_slash (a +:+ b) = PosixPath.has_slash a || PosixPath.has_slash b.
Proof.
  induction a as [|c a IH]; [reflexivity |].
  rewrite append_cons. simpl. now rewrite IH, orb_assoc.
Qed.

(** Removing text adds no slash. *)
Lemma replace_go_no_slash (old : string) (s : string) :
  forall skip,
    PosixPath.has_slash s = false ->
    PosixPath.has_slash (PyStr.replace_go old "" skip s) = false.
Proof.
  induction s as [|c s IH]; intros skip H; [reflexivity |].
  simpl in H. apply orb_false_elim in H as [Hc Hs].
  destruct skip as [|k]; [| now apply IH].
  rewrite replace_go_unfold. destruct (String.prefix old (String c s)).
  - rewrite append_nil_l. now apply IH.
  - simpl. rewrite Hc. now apply IH.
Qed.

Lemma mask_name_valid (b : string) :
  PosixPath.has_slash b = false -> Disk.valid_name (b +:+ "_mask.png") = true.
Proof.
  intros H. unfold Disk.valid_name.
  assert (Hlen : (9 <= String.length (b +:+ "_mask.png"))%nat)
    by (rewrite string_length_append; simpl; lia).
  rewrite split_no_slash by (now rewrite has_slash_append, H).
  destruct (String.eqb_spec (b +:+ "_mask.png") "") as [E | _];
    [rewrite E in Hlen; simpl in Hlen; lia |].
  destruct (String.eqb_spec (b +:+ "_mask.png") ".") as [E | _];
    [rewrite E in Hlen; simpl in Hlen; lia |].
  destruct (String.eqb_spec (b +:+ "_mask.png") "..") as [E | _];
    [rewrite E in Hlen; simpl in Hlen; lia |].
  reflexivity.
Qed.

Lemma base_name_mask_valid (f : string) :
  Disk.valid_name f = true -> Disk.valid_name (base_name_of f +:+ "_mask.png") = true.
Proof.
  intros Hv. apply mask_name_valid. unfold base_name_of, PyStr.replace, raw_suffix.
  apply replace_go_no_slash. now apply valid_name_no_slash.
Qed.

(** *** The tree of a scan *)

Lemma registered_names_valid (entry : string * list string * list string) :
  Disk.valid_name (PosixPath.basename (dirpath_of entry)) = true ->
  List.Forall (fun f => Disk.valid_name f = true) (files_of entry) ->
  key_names_valid (registered entry).
Proof.
  intros Hd Hf. split; [exact Hd |]. simpl.
  apply List.Forall_forall. intros b Hb.
  apply (Permutation_in _ (merge_sort_Permutation _ _)) in Hb.
  apply in_map_iff in Hb as (f & <- & Hin).
  apply base_name_mask_valid. apply filter_In in Hin as [Hin _].
  rewrite List.Forall_forall in Hf. now apply Hf.
Qed.

(** On a well-formed disk every key the scan builds for the data root is
    fit for the mask step. *)
Lemma scanned_names_valid (w : world) :
  Disk.wf (disk w) = true ->
  List.Forall key_names_valid (List.fold_left scan_step (os_walk w (DATA_DIR w)) []).
Proof.
  intros Hwf.
  assert (Hwalk : forall entry, In entry (os_walk w (DATA_DIR w)) ->
            Disk.valid_name (PosixPath.basename (dirpath_of entry)) = true
            /\ List.Forall (fun f => Disk.valid_name f = true) (files_of entry)).
  { unfold os_walk. destruct (Disk.resolve _ _) as [n|] eqn:E; [| intros ? []].
    apply walk_names; [now apply (wf_resolve _ _ _ Hwf E) |].
    unfold DATA_DIR. now rewrite basename_join. }
  revert Hwalk. generalize (os_walk w (DATA_DIR w)) as walked.
  assert (Hnil : List.Forall key_names_valid []) by constructor.
  revert Hnil. generalize (@nil (string * folder_entry)) as tree.
  intros tree Htree walked. revert tree Htree.
  induction walked as [|entry walked IH]; intros tree Htree Hwalk; simpl;
    [exact Htree |].
  apply IH; [| intros e He; apply Hwalk; now right].
  destruct (has_raw entry) eqn:E; [| now rewrite (scan_step_skip _ _ E)].
  rewrite (scan_step_register _ _ E). apply List.Forall_forall.
  intros [k v] Hin. apply In_set in Hin as [[-> ->] | Hin].
  - destruct (Hwalk entry (or_introl eq_refl)) as [Hd Hf].
    exact (registered_names_valid entry Hd Hf).
  - rewrite List.Forall_forall in Htree. exact (Htree _ Hin).
Qed.

End ScannedNames.

(* ===================================================================== *)
(** * The session invariant *)
(* ===================================================================== *)

Section Invariant.
Import App.
Local Open Scope Z_scope.

Lemma sound_initial : Sound initial_state.
Proof. split; [constructor | intros H; discriminate H]. Qed.

Lemma entry_nonempty (s : session_state) (folder : string) (entry : folder_entry) :
  List.Forall (fun item => base_names (snd item) <> []) (file_tree s) ->
  PyDict.get (file_tree s) folder = Some entry ->
  0 < Z.of_nat (List.length (base_names entry)).
Proof.
  intros Hall Hget. apply get_In in Hget.
  rewrite List.Forall_forall in Hall. specialize (Hall _ Hget). simpl in Hall.
  destruct (base_names entry); [congruence | simpl; lia].
Qed.

(** Pointing a sound session at the start of one of its folders. *)
Lemma sound_jump (s : session_state) (folder : string) :
  Sound s -> In folder (PyDict.keys (file_tree s)) ->
  Sound (set_position s (Some folder) 0).
Proof.
  intros [Hall Hready] Hin. split; [exact Hall |].
  intros Hscan. destruct (In_keys_get _ _ Hin) as [entry Hget].
  exists folder, entry. repeat split; simpl; try assumption; try lia.
  now apply (entry_nonempty s folder).
Qed.

Lemma sound_set_annotations (s : session_state) (t : list annotation) :
  Sound s -> Sound (set_annotations s t).
Proof.
  intros [Hall Hready]. split; [exact Hall |]. intros Hscan.
  destruct (Hready Hscan) as (folder & entry & H). now exists folder, entry.
Qed.

(** *** The scanner *)

Lemma scan_step_nonempty (tree : list (string * folder_entry))
    (entry : string * list string * list string) :
  List.Forall (fun item => base_names (snd item) <> []) tree ->
  List.Forall (fun item => base_names (snd item) <> []) (scan_step tree entry).
Proof.
  intros Hall. destruct (has_raw entry) eqn:E.
  - rewrite (scan_step_register _ _ E). apply List.Forall_forall.
    intros [k v] Hin. apply In_set in Hin as [[-> ->] | Hin].
    + simpl. intros Hnil. apply (f_equal (@List.length string)) in Hnil.
      rewrite sorted_length, List.length_map in Hnil.
      unfold has_raw in E. apply existsb_exists in E as (f & Hf & Ef).
      assert (In f (raw_files_of entry)) as Hin
        by (apply filter_In; now split).
      destruct (raw_files_of entry); [destruct Hin | discriminate Hnil].
    + rewrite List.Forall_forall in Hall. exact (Hall _ Hin).
  - now rewrite (scan_step_skip _ _ E).
Qed.

Lemma scan_loop_nonempty (walked : list (string * list string * list string))
    (tree : list (string * folder_entry)) :
  List.Forall (fun item => base_names (snd item) <> []) tree ->
  List.Forall (fun item => base_names (snd item) <> [])
    (List.fold_left scan_step walked tree).
Proof.
  revert tree. induction walked as [|entry walked IH]; intros tree H; simpl;
    [assumption |].
  apply IH, scan_step_nonempty, H.
Qed.

Lemma sound_scan (w : world) (root_path : string) :
  Sound (session w) -> Sound (session (fst (scan_png_directory root_path w))).
Proof.
  intros Hs. unfold scan_png_directory, bind, get_world, show, put_session.
  destruct (negb (os_path_exists w root_path)); [exact Hs |].
  set (tree := List.fold_left scan_step (os_walk w root_path) []).
  assert (Hall : List.Forall (fun item => base_names (snd item) <> []) tree)
    by (apply scan_loop_nonempty; constructor).
  destruct (PyDict.keys tree) as [|first rest] eqn:Ek; [exact Hs |].
  simpl. split; [exact Hall |]. intros _.
  assert (Hin : In first (PyDict.keys tree)) by (rewrite Ek; now left).
  destruct (In_keys_get _ _ Hin) as [entry Hget].
  exists first, entry. repeat split; simpl; try assumption; try lia.
  apply get_In in Hget. rewrite List.Forall_forall in Hall.
  specialize (Hall _ Hget). simpl in Hall.
  destruct (base_names entry); [congruence | simpl; lia].
Qed.

(** *** Navigation *)

Lemma sound_advance (w : world) (folder : string) :
  Sound (session w) ->
  current_folder (session w) = Some folder ->
  Sound (session (fst (advance folder w))).
Proof.
  intros Hs Hcur. pose proof Hs as [Hall Hready].
  unfold advance, bind, get_session, or_raise, ret, raise, put_session, show.
  simpl. destruct (PyDict.get (file_tree (session w)) folder) as [entry|] eqn:Hget;
    simpl; [| exact Hs].
  destruct (Z.ltb_spec (current_img_idx (session w))
              (Z.of_nat (List.length (base_names entry)) - 1)) as [Hlt | Hge]; simpl.
  - split; [exact Hall |]. intros Hscan.
    destruct (Hready Hscan) as (folder' & entry' & _ & Hcur' & Hget' & Hrange).
    assert (folder' = folder) by congruence. subst folder'.
    assert (entry' = entry) by congruence. subst entry'.
    exists folder, entry. repeat split; simpl; try assumption; lia.
  - destruct (PyList.index _ folder) as [i|]; simpl; [| exact Hs].
    destruct (_ <? _); simpl; [| exact Hs].
    destruct (PyList.getitem _ _) as [next|] eqn:Hnext; simpl; [| exact Hs].
    apply sound_jump; [exact Hs |].
    unfold PyList.getitem in Hnext.
    destruct (0 <=? _); [| destruct (_ <=? _); [| discriminate Hnext]];
      now apply List.nth_error_In in Hnext.
Qed.

Lemma sound_save (w : world) (folder base_name tag notes : string)
    (mask_data : option Disk.pixels) :
  Sound (session w) ->
  current_folder (session w) = Some folder ->
  Sound (session (fst (save_annotation_and_next folder base_name tag notes mask_data w))).
Proof.
  intros Hs Hcur.
  pose (c := {| call_base := base_name; call_tag := tag; call_notes := notes;
                call_mask := mask_data |}).
  change (save_annotation_and_next folder base_name tag notes mask_data)
    with (save_call_run folder c).
  destruct (persist_mask_frame w folder (call_base c) (call_mask c))
    as (d & Hfst & _).
  destruct (persist_mask folder (call_base c) (call_mask c) w) as [w1 [status | | e]]
    eqn:Hp; simpl in Hfst; subst w1.
  - rewrite (save_after_persist _ _ _ _ _ Hp).
    match goal with
    | |- context [advance folder ?w2] =>
        pose proof (sound_advance w2 folder) as Hadv;
        destruct (advance folder w2) as [w' [[] | | e]]
    end; simpl in *; apply Hadv; try assumption; now apply sound_set_annotations.
  - unfold save_call_run, save_annotation_and_next, bind. rewrite Hp. exact Hs.
  - rewrite (save_persist_failed _ _ _ _ _ Hp). exact Hs.
Qed.

(** *** The script body *)

Lemma render_frame (w : world) : fst (render w) = w.
Proof.
  unfold render, bind, get_session, or_raise, ret, raise. simpl.
  destruct (current_folder (session w)) as [folder|]; simpl; [| reflexivity].
  destruct (PyDict.get _ folder) as [entry|]; simpl; [| reflexivity].
  destruct (PyList.getitem _ _); reflexivity.
Qed.

Lemma render_done (w : world) (v : view) :
  snd (render w) = Done v ->
  current_folder (session w) = Some (view_folder v)
  /\ view_idx v = current_img_idx (session w).
Proof.
  unfold render, bind, get_session, or_raise, ret, raise. simpl.
  destruct (current_folder (session w)) as [folder|]; simpl; [| discriminate].
  destruct (PyDict.get _ folder) as [entry|]; simpl; [| discriminate].
  destruct (PyList.getitem _ _); simpl; [| discriminate].
  intros [= <-]. now split.
Qed.

(** In a Browsing state the sample on display is [base_names[idx]]. *)
Lemma render_browsing (w : world) (folder : string) (entry : folder_entry) :
  Browsing (session w) folder entry ->
  exists current_base,
    PyList.getitem (base_names entry) (current_img_idx (session w)) = Some current_base
    /\ render w = (w, Done {| view_folder := folder;
                              view_base_names := base_names entry;
                              view_idx := current_img_idx (session w);
                              view_current_base := current_base |}).
Proof.
  intros (_ & Hcur & Hget & Hrange).
  destruct (getitem_in_range (base_names entry) _ Hrange) as [b Hb].
  exists b. split; [exact Hb |].
  unfold render, bind, get_session, or_raise, ret. simpl.
  rewrite Hcur. simpl. rewrite Hget. simpl. now rewrite Hb.
Qed.

Lemma zip_dir_frame (w : world) (root : string) (files : list string) (w0 : world) :
  fst (zip_dir w root files w0) = w0.
Proof.
  induction files as [|file files IH]; simpl; [reflexivity |].
  unfold bind, or_raise, ret, raise in *.
  destruct (Disk.read_file _ _); simpl; [| reflexivity].
  destruct (zip_dir w root files w0) as [w' [a | | e]]; simpl in *; congruence.
Qed.

Lemma zip_walk_frame (w : world)
    (walked : list (string * list string * list string)) (w0 : world) :
  fst (zip_walk w walked w0) = w0.
Proof.
  induction walked as [|[[root dirs] files] walked IH]; simpl; [reflexivity |].
  unfold bind, ret in *. pose proof (zip_dir_frame w root files w0) as Hd.
  destruct (zip_dir w root files w0) as [w1 [a | | e]]; simpl in *; subst w1;
    try reflexivity.
  destruct (zip_walk w walked w0) as [w2 [b | | e]]; simpl in *; congruence.
Qed.

Lemma create_export_zip_frame (w : world) : fst (create_export_zip w) = w.
Proof.
  unfold create_export_zip, bind, get_world, ret. simpl.
  assert (H : fst (zip_masks w w) = w).
  { unfold zip_masks. destruct (os_path_exists _ _); [apply zip_walk_frame | reflexivity]. }
  destruct (zip_masks w w) as [w1 [a | | e]]; simpl in *; congruence.
Qed.

Lemma sound_run (a : action) (w : world) :
  Sound (session w) -> Sound (session (fst (run a w))).
Proof.
  intros Hs. pose proof Hs as [Hall Hready]. destruct a as [| f | | tag notes m | | d]; simpl.
  - apply sound_scan, Hs.
  - unfold on_select_folder, bind, get_session, put_session, st_rerun, ret. simpl.
    destruct (scan_complete (session w) && _) eqn:E; [| exact Hs].
    apply andb_prop in E as [_ E]. apply contains_In in E.
    destruct (negb _); [| exact Hs]. simpl. now apply sound_jump.
  - unfold on_previous, bind, get_session, put_session, st_rerun, ret. simpl.
    destruct (scan_complete (session w)) eqn:Hscan; [| exact Hs].
    pose proof (render_frame w) as Hf. pose proof (render_done w) as Hd.
    destruct (render w) as [w1 [v | | e]]; simpl in *; subst w1; try exact Hs.
    destruct (Hd v eq_refl) as [Hcur Hidx]. rewrite Hidx.
    destruct (Z.eqb_spec (current_img_idx (session w)) 0) as [? | Hne]; [exact Hs |].
    simpl. split; [exact Hall |]. intros _.
    destruct (Hready Hscan) as (folder & entry & _ & Hcur' & Hget & Hrange).
    exists folder, entry. repeat split; simpl; try assumption; lia.
  - unfold on_save_next, bind, get_session. simpl.
    destruct (scan_complete (session w)) eqn:Hscan; [| exact Hs].
    pose proof (render_frame w) as Hf. pose proof (render_done w) as Hd.
    destruct (render w) as [w1 [v | | e]]; simpl in *; subst w1; try exact Hs.
    destruct (Hd v eq_refl) as [Hcur _].
  unfold or_raise, ret, raise. destruct m as [image_data|]; simpl; [| exact Hs].
  now apply sound_save.
  - unfold on_export, bind, get_session, ret. simpl.
    destruct (_ && _); [| exact Hs].
    pose proof (create_export_zip_frame w) as Hf.
    destruct (create_export_zip w) as [w1 [a | | e]]; simpl in *; now subst w1.
  - exact Hs.
Qed.

Lemma sound_run_all (acts : list action) (w : world) :
  Sound (session w) -> Sound (session (run_all acts w)).
Proof.
  revert w. induction acts as [|a acts IH]; intros w Hs; simpl; [exact Hs |].
  apply IH, sound_run, Hs.
Qed.

End Invariant.

(** C7. In every session reached from the start of the app by user actions
    (loading the dataset, Save&Next, Previous, choosing a folder, export)
    and changes of the disk, whenever [scan_complete] holds, the current
    folder is a key of the tree and the index lies within that folder's
    base names, so rendering finds [base_names[current_img_idx]]. *)
Theorem ready_session_points_into_tree (dir : string) (d : Disk.node)
    (acts : list App.action) :
  let w := App.run_all acts (App.start dir d) in
  App.scan_complete (App.session w) = true ->
  exists folder entry current_base,
    App.current_folder (App.session w) = Some folder
    /\ PyDict.get (App.file_tree (App.session w)) folder = Some entry
    /\ (0 <= App.current_img_idx (App.session w)
        < Z.of_nat (List.length (App.base_names entry)))%Z
    /\ List.nth_error (App.base_names entry)
         (Z.to_nat (App.current_img_idx (App.session w))) = Some current_base
    /\ snd (App.render w)
       = App.Done {| App.view_folder := folder;
                     App.view_base_names := App.base_names entry;
                     App.view_idx := App.current_img_idx (App.session w);
                     App.view_current_base := current_base |}.
Proof.
  intros w Hscan. subst w.
  destruct (sound_run_all acts (App.start dir d) sound_initial) as [_ Hready].
  destruct (Hready Hscan) as (folder & entry & Hb).
  destruct (render_browsing _ folder entry Hb) as (b & Hb1 & Hb2).
  destruct Hb as (_ & Hcur & Hget & Hrange).
  exists folder, entry, b.
  split; [exact Hcur |]. split; [exact Hget |]. split; [exact Hrange |]. split.
  - unfold PyList.getitem in Hb1.
    destruct (Z.leb_spec 0 (App.current_img_idx
                              (App.session (App.run_all acts (App.start dir d)))));
      [exact Hb1 | lia].
  - now rewrite Hb2.
Qed.



(** C3. Saving without a mask buffer leaves the disk as it is and records
    status [No]. Saving with a buffer, on a disk where the mask directory
    can be made and the mask path is not a directory, writes the image to
    [{masks root}/{folder}/{base}_mask.png], creates or overwrites no other
    file, and records status [Yes]. *)
Theorem mask_persistence (w : App.world) (folder base_name tag notes : string) :
  (App.persist_mask folder base_name None w = (w, App.Done "No")
   /\ App.disk (fst (App.save_annotation_and_next folder base_name tag notes None w))
      = App.disk w
   /\ App.annotations
        (App.session (fst (App.save_annotation_and_next folder base_name tag notes None w)))
      = App.upsert (App.annotations (App.session w)) folder base_name tag notes "No")
  /\ (forall px : Disk.pixels,
        PosixPath.isabs (App.cwd w) = true ->
        Disk.valid_name folder = true ->
        Disk.valid_name (base_name +:+ "_mask.png") = true ->
        Disk.dirs_free (App.disk w) (App.mask_dir w folder) = true ->
        Disk.not_a_dir (App.disk w)
          (PosixPath.components (App.cwd w) (App.mask_path w folder base_name)) = true ->
        let target := PosixPath.components (App.cwd w) (App.mask_path w folder base_name) in
        exists d',
          App.persist_mask folder base_name (Some px) w = (App.with_disk w d', App.Done "Yes")
          /\ App.mask_path w folder base_name
             = App.MASKS_DIR w +:+ "/" +:+ folder +:+ "/" +:+ base_name +:+ "_mask.png"
          /\ Disk.read_file d' target = Some (Disk.PngRGBA (App.astype_uint8 px))
          /\ (forall q, q <> target -> Disk.read_file d' q = Disk.read_file (App.disk w) q)
          /\ App.disk
               (fst (App.save_annotation_and_next folder base_name tag notes (Some px) w))
             = d'
          /\ App.annotations
               (App.session
                  (fst (App.save_annotation_and_next folder base_name tag notes (Some px) w)))
             = App.upsert (App.annotations (App.session w)) folder base_name tag notes "Yes").
Proof.
  split.
  - pose (c := {| App.call_base := base_name; App.call_tag := tag;
                  App.call_notes := notes; App.call_mask := None |}).
    destruct (save_records w w folder c "No" eq_refl) as (_ & Hd & Ha).
    split; [reflexivity | split; assumption].
  - intros px Habs Hfolder Hname Hfree Hnd target.
    destruct (persist_mask_some w folder base_name px Habs Hname Hfree Hnd)
      as (d' & Hp & Hsame & Hother & _).
    pose (c := {| App.call_base := base_name; App.call_tag := tag;
                  App.call_notes := notes; App.call_mask := Some px |}).
    destruct (save_records w (App.with_disk w d') folder c "Yes" Hp) as (_ & Hd & Ha).
    exists d'. split; [exact Hp |]. split; [now apply mask_path_eq |].
    split; [exact Hsame |]. split; [exact Hother |]. split; assumption.
Qed.

Lemma mask_persistence_witness :
  exists d',
    App.persist_mask "A" "s1" (Some Sample.one_pixel) Sample.loaded
    = (App.with_disk Sample.loaded d', App.Done "Yes")
    /\ App.mask_path Sample.loaded "A" "s1" = "/w/_masks/A/s1_mask.png"
    /\ Disk.read_file d' ["w"; "_masks"; "A"; "s1_mask.png"]
       = Some (Disk.PngRGBA Sample.one_pixel).
Proof.
  destruct (mask_persistence Sample.loaded "A" "s1" "Keep" "ok") as [_ H].
  destruct (H Sample.one_pixel) as (d' & Hp & Hpath & Hread & _);
    [reflexivity | reflexivity | reflexivity | reflexivity | reflexivity |].
  exists d'. exact (conj Hp (conj Hpath Hread)).
Defined.

(* ===================================================================== *)
(** * The export bundle *)
(* ===================================================================== *)

Section ExportBundle.
Import App.

(** *** The loops of [create_export_zip] compute the listing *)

Lemma zip_walk_app (w w0 : world) (l1 l2 : list (string * list string * list string))
    (a1 a2 : archive) :
  zip_walk w l1 w0 = (w0, Done a1) ->
  zip_walk w l2 w0 = (w0, Done a2) ->
  zip_walk w (l1 ++ l2) w0 = (w0, Done (a1 ++ a2)%list).
Proof.
  revert a1. induction l1 as [|[[root dirs] files] l1 IH]; intros a1 H1 H2; simpl.
  - injection H1 as <-. exact H2.
  - simpl in H1. unfold bind, ret in *.
    pose proof (zip_dir_frame w root files w0) as Hf.
    destruct (zip_dir w root files w0) as [w1 [here | | e]]; try discriminate H1.
    simpl in Hf. subst w1.
    destruct (zip_walk w l1 w0) as [w2 [below | | e]] eqn:E1; try discriminate H1.
    injection H1 as -> <-.
    rewrite (IH below eq_refl H2). now rewrite app_assoc.
Qed.

Section Under.
Variables (w w0 : world).
Hypothesis Hwf : Disk.wf (disk w) = true.

Lemma zip_dir_files (top : string) (pre : list string)
    (es es' : list (string * Disk.node)) :
  PosixPath.isabs top = true ->
  PosixPath.components (cwd w) top = pre ->
  Disk.resolve (disk w) pre = Some (Disk.Dir es) ->
  (forall e, In e es' -> In e es) ->
  zip_dir w top (Disk.filenames es') w0
  = (w0, Done (List.flat_map (file_member (cwd w) top) es')).
Proof.
  intros Habs Hpre Hres. pose proof (wf_resolve _ _ _ Hwf Hres) as Hd.
  destruct (wf_dir es Hd) as [Hnd Hvalid].
  induction es' as [|[name [c | ds]] es' IH]; intros Hsub.
  - reflexivity.
  - assert (Hin : In (name, Disk.File c) es) by (apply Hsub; now left).
    change (Disk.filenames ((name, Disk.File c) :: es'))
      with (name :: Disk.filenames es').
    simpl. unfold bind, or_raise, ret.
    rewrite components_join by (try assumption; now apply (Hvalid _ _ Hin)).
    unfold Disk.read_file. rewrite Hpre, resolve_app, Hres. simpl.
    rewrite (In_get es name _ Hnd Hin). simpl.
    unfold bind, ret in IH. rewrite IH by (intros e He; apply Hsub; now right).
    reflexivity.
  - change (Disk.filenames ((name, Disk.Dir ds) :: es')) with (Disk.filenames es').
    simpl. apply IH. intros e He. apply Hsub. now right.
Qed.

Lemma zip_walk_tree (n : Disk.node) :
  forall (top : string) (pre : list string),
    PosixPath.isabs top = true ->
    PosixPath.components (cwd w) top = pre ->
    Disk.resolve (disk w) pre = Some n ->
    zip_walk w (Disk.walk top n) w0 = (w0, Done (tree_members (cwd w) top n)).
Proof.
  induction n as [c | es IH] using node_ind; intros top pre Habs Hpre Hres.
  - reflexivity.
  - pose proof (wf_resolve _ _ _ Hwf Hres) as Hd.
    destruct (wf_dir es Hd) as [Hnd Hvalid].
    change (Disk.walk top (Disk.Dir es))
      with ([(top, Disk.dirnames es, Disk.filenames es)]
            ++ List.flat_map
                 (fun e => match e with
                           | (name, child) => Disk.walk (PosixPath.join top name) child
                           end) es)%list.
    apply zip_walk_app.
    + simpl. unfold bind, ret.
      rewrite (zip_dir_files top pre es es Habs Hpre Hres) by auto.
      now rewrite app_nil_r.
    + assert (Hsub : forall e, In e es -> In e es) by auto.
      revert Hsub. generalize es at 1 3 4 as es'.
      induction es' as [|[name child] es' IHes]; intros Hsub; [reflexivity |].
      simpl. apply zip_walk_app.
      * assert (Hin : In (name, child) es) by (apply Hsub; now left).
        rewrite List.Forall_forall in IH.
        apply (IH _ Hin (PosixPath.join top name) (pre ++ [name])%list).
        -- now apply isabs_join.
        -- rewrite components_join; [now rewrite Hpre | assumption |].
           now apply (Hvalid _ _ Hin).
        -- rewrite resolve_app, Hres. simpl.
           now rewrite (In_get es name _ Hnd Hin).
      * apply IHes. intros e He. apply Hsub. now right.
Qed.

End Under.

Lemma zip_masks_listing (w : world) :
  PosixPath.isabs (cwd w) = true ->
  Disk.wf (disk w) = true ->
  zip_masks w w = (w, Done (masks_listing w)).
Proof.
  intros Habs Hwf. unfold zip_masks, masks_listing, os_path_exists, os_walk.
  destruct (Disk.resolve _ _) as [n|] eqn:E; [| reflexivity].
  apply (zip_walk_tree w w Hwf n _ _ (isabs_masks_dir w Habs) eq_refl E).
Qed.

Lemma create_export_zip_eq (w : world) :
  PosixPath.isabs (cwd w) = true ->
  Disk.wf (disk w) = true ->
  create_export_zip w
  = (w, Done (("hsd_annotations.xlsx", to_excel (annotations (session w)))
                :: masks_listing w)).
Proof.
  intros Habs Hwf. unfold create_export_zip, bind, get_world, ret.
  now rewrite (zip_masks_listing w Habs Hwf).
Qed.

(** *** What the listing holds *)

Lemma tree_members_stored (dir : string) (n : Disk.node) :
  forall top, List.Forall (fun m => exists c, snd m = Stored c) (tree_members dir top n).
Proof.
  induction n as [c | es IH] using node_ind; intros top; [constructor |].
  simpl. apply List.Forall_app. split.
  - apply List.Forall_flat_map, List.Forall_forall.
    intros [name [c | ds]] _; simpl; [| constructor].
    constructor; [now exists c | constructor].
  - apply List.Forall_flat_map. rewrite List.Forall_forall in *.
    intros [name child] Hin. apply (IH _ Hin).
Qed.

Lemma tree_members_In (dir : string) (comps : list string) :
  forall (n : Disk.node) (top name : string) (c : Disk.content),
    Disk.read_file n (comps ++ [name]) = Some c ->
    In (member_name dir (List.fold_left PosixPath.join comps top) name, Stored c)
       (tree_members dir top n).
Proof.
  induction comps as [|k comps IH]; intros [? | es] top name c0;
    try (rewrite read_file_under_file
           by (intros Heq; symmetry in Heq; now apply app_cons_not_nil in Heq);
         discriminate).
  - simpl app. rewrite read_file_cons. unfold Disk.read_file. simpl.
    destruct (PyDict.get es name) as [[c' | ds]|] eqn:E; try discriminate.
    intros [= ->]. apply get_In in E. simpl. apply in_or_app. left.
    apply in_flat_map. exists (name, Disk.File c0). split; [assumption | now left].
  - simpl app. rewrite read_file_cons.
    destruct (PyDict.get es k) as [child|] eqn:E; [| discriminate].
    intros H. apply get_In in E. simpl. apply in_or_app. right.
    apply in_flat_map. exists (k, child). split; [assumption |].
    now apply IH.
Qed.

(** *** What the worksheet writer stores *)

Lemma take_all (s : string) (n : N) :
  (N.of_nat (String.length s) <= n)%N -> XlsxWriter.take s n = s.
Proof.
  revert n. induction s as [|c s IH]; intros n Hn; [reflexivity |].
  simpl in *. destruct (N.eqb_spec n 0) as [-> | Hne]; [lia |].
  f_equal. apply IH. lia.
Qed.

(** A plain string is stored as it is. *)
Lemma write_plain (s : string) :
  XlsxWriter.plain s = true -> XlsxWriter.write s = XlsxWriter.Str s.
Proof.
  unfold XlsxWriter.plain, XlsxWriter.write. intros H.
  apply andb_prop in H as [H Hlen]. apply andb_prop in H as [H Hurl].
  apply andb_prop in H as [H Harr]. apply andb_prop in H as [Hempty Heq].
  apply negb_true_iff in Hempty, Heq, Harr, Hurl.
  rewrite Hempty, Heq, Harr, Hurl. f_equal. apply take_all.
  now apply N.leb_le.
Qed.

End ExportBundle.

(** C6. The spreadsheet of the export is not a snapshot of the table for
    every table. The script writes the table with [to_excel] and the
    default workbook options, so a cell that starts with [=] is handed to
    [write_formula]: after Load Dataset and a Save & Next on [A/s1] with
    the note [=1+1], the table holds the note as entered, and the exported
    sheet holds in its place a formula cell, not the text of the note. *)
Theorem export_writes_note_as_formula :
  let w := App.run_all [App.LoadDataset; App.SaveNext "Keep" "=1+1" (Some None)]
             Sample.fresh in
  App.annotations (App.session w)
  = [{| App.Folder := "A"; App.Base_Filename := "s1"; App.Tag := "Keep";
        App.Mask_Saved := "No"; App.Notes := "=1+1" |}]
  /\ App.create_export_zip w
     = (w, App.Done
             [("hsd_annotations.xlsx",
               App.Xlsx [("Annotations",
                          [[XlsxWriter.Str "Folder"; XlsxWriter.Str "Base_Filename";
                            XlsxWriter.Str "Tag"; XlsxWriter.Str "Mask_Saved";
                            XlsxWriter.Str "Notes"];
                           [XlsxWriter.Str "A"; XlsxWriter.Str "s1";
                            XlsxWriter.Str "Keep"; XlsxWriter.Str "No";
                            XlsxWriter.Formula "=1+1"]])])])
  /\ XlsxWriter.write "=1+1" <> XlsxWriter.Str "=1+1".
Proof.
  split; [reflexivity |]. split; [reflexivity |]. discriminate.
Qed.

(** C10. On well-formed disks the export is a function of the table and of
    the masks tree: called again right after itself it returns the same
    archive; and for any two calls, equal tables give the same spreadsheet
    member, and the same masks tree (under the same working directory)
    gives the same mask members. *)
Theorem export_twice (w1 w2 : App.world) :
  PosixPath.isabs (App.cwd w1) = true ->
  Disk.wf (App.disk w1) = true ->
  PosixPath.isabs (App.cwd w2) = true ->
  Disk.wf (App.disk w2) = true ->
  exists (sheet1 sheet2 : string * App.payload) (masks1 masks2 : App.archive),
    App.create_export_zip w1 = (w1, App.Done (sheet1 :: masks1))
    /\ App.create_export_zip w2 = (w2, App.Done (sheet2 :: masks2))
    /\ App.create_export_zip (fst (App.create_export_zip w1)) = App.create_export_zip w1
    /\ (App.annotations (App.session w1) = App.annotations (App.session w2) ->
        sheet1 = sheet2)
    /\ (App.cwd w1 = App.cwd w2 ->
        Disk.resolve (App.disk w1) (PosixPath.components (App.cwd w1) (App.MASKS_DIR w1))
        = Disk.resolve (App.disk w2) (PosixPath.components (App.cwd w2) (App.MASKS_DIR w2)) ->
        masks1 = masks2).
Proof.
  intros Habs1 Hwf1 Habs2 Hwf2.
  exists ("hsd_annotations.xlsx", App.to_excel (App.annotations (App.session w1))),
         ("hsd_annotations.xlsx", App.to_excel (App.annotations (App.session w2))),
         (App.masks_listing w1), (App.masks_listing w2).
  rewrite (create_export_zip_eq w1 Habs1 Hwf1), (create_export_zip_eq w2 Habs2 Hwf2).
  split; [reflexivity |]. split; [reflexivity |]. split; [| split].
  - simpl. exact (create_export_zip_eq w1 Habs1 Hwf1).
  - now intros ->.
  - intros Hcwd Hres. unfold App.masks_listing, App.MASKS_DIR in *.
    rewrite Hcwd in *. now rewrite Hres.
Qed.

Lemma export_twice_witness :
  exists (sheet1 sheet2 : string * App.payload) (masks1 masks2 : App.archive),
    App.create_export_zip Sample.annotated = (Sample.annotated, App.Done (sheet1 :: masks1))
    /\ App.create_export_zip (App.run_all [App.Export] Sample.annotated)
       = (App.run_all [App.Export] Sample.annotated, App.Done (sheet2 :: masks2))
    /\ sheet1 = sheet2
    /\ masks1 = masks2.
Proof.
  destruct (export_twice Sample.annotated (App.run_all [App.Export] Sample.annotated)
              eq_refl eq_refl eq_refl eq_refl)
    as (sheet1 & sheet2 & masks1 & masks2 & H1 & H2 & _ & Hs & Hm).
  exists sheet1, sheet2, masks1, masks2.
  exact (conj H1 (conj H2 (conj (Hs eq_refl) (Hm eq_refl eq_refl)))).
Defined.

(* ===================================================================== *)
(** * Base names *)
(* ===================================================================== *)

Section BaseNames.
Import App.

Lemma substring_prefix (a b : string) :
  String.substring 0 (String.length a) (a +:+ b) = a.
Proof.
  induction a as [|x a IH]; [now destruct b |].
  rewrite append_cons. simpl. now rewrite IH.
Qed.

Lemma strip_raw_suffix_append (b : string) : strip_raw_suffix (b +:+ raw_suffix) = b.
Proof.
  unfold strip_raw_suffix, PyStr.drop_end. rewrite string_length_append.
  replace (String.length b + String.length raw_suffix - String.length raw_suffix)%nat
    with (String.length b) by lia.
  apply substring_prefix.
Qed.

Lemma replace_go_first_occurrence (b : string) :
  (forall p q, b = p +:+ q -> q <> "" ->
               PyStr.startswith (q +:+ "_raw.png") "_raw.png" = false) ->
  PyStr.replace_go "_raw.png" "" O (b +:+ "_raw.png") = b.
Proof.
  induction b as [|c b IH]; intros H; [reflexivity |].
  rewrite append_cons, replace_go_unfold.
  assert (Hhere : String.prefix "_raw.png" (String c (b +:+ "_raw.png")) = false).
  { apply (H "" (String c b)); [reflexivity | discriminate]. }
  rewrite Hhere. f_equal. apply IH.
  intros p q -> Hq. apply (H (String c p) q); [reflexivity | exact Hq].
Qed.

(** When the suffix is the first occurrence of [_raw.png] in a file name,
    the registered base name is the name without the suffix. *)
Lemma base_name_first_occurrence (b : string) :
  (forall p q, b = p +:+ q -> q <> "" ->
               PyStr.startswith (q +:+ raw_suffix) raw_suffix = false) ->
  base_name_of (b +:+ raw_suffix) = b
  /\ strip_raw_suffix (b +:+ raw_suffix) = b.
Proof.
  intros H. split; [| apply strip_raw_suffix_append].
  exact (replace_go_first_occurrence b H).
Qed.

End BaseNames.

Example img01_base_name :
  App.base_name_of "img01_raw.png" = "img01"
  /\ App.strip_raw_suffix "img01_raw.png" = "img01".
Proof. split; reflexivity. Qed.

(* ===================================================================== *)
(** * The statements at sample inputs *)
(* ===================================================================== *)

Lemma save_and_next_navigation_witness :
  let c := {| App.call_base := "t2"; App.call_tag := "Keep"; App.call_notes := "";
              App.call_mask := None |} in
  (exists w',
     App.save_call_run "B" c Sample.at_end = (w', App.Rerun)
     /\ App.position (App.session w') = (Some "B", 1%Z)
     /\ App.screen w' = [App.all_completed])
  /\ App.position (App.session (App.saves "B" [c; c; c] Sample.at_end)) = (Some "B", 1%Z).
Proof.
  intros c.
  assert (Hb : App.Browsing (App.session Sample.at_end) "B"
                 {| App.path := "/w/_precomputed_data/B"; App.base_names := ["t1"; "t2"] |}).
  { split; [reflexivity |]. split; [reflexivity |]. split; [reflexivity |].
    split; [discriminate | reflexivity]. }
  assert (Hpre : ~ In "B" ["A"]).
  { intros [H | []]. discriminate H. }
  destruct (save_and_next_navigation Sample.at_end "B" _ ["A"] [] Hb eq_refl Hpre)
    as [Hone Hmany].
  split.
  - exact (Hone c Sample.at_end "No" eq_refl).
  - exact (proj1 (Hmany eq_refl eq_refl [c; c; c])).
Defined.

Lemma ready_session_points_into_tree_witness :
  exists folder entry current_base,
    App.current_folder (App.session Sample.annotated) = Some folder
    /\ PyDict.get (App.file_tree (App.session Sample.annotated)) folder = Some entry
    /\ List.nth_error (App.base_names entry)
         (Z.to_nat (App.current_img_idx (App.session Sample.annotated)))
       = Some current_base.
Proof.
  destruct (ready_session_points_into_tree "/w" Sample.dataset
              [App.LoadDataset; App.SaveNext "Keep" "ok" (Some (Some Sample.one_pixel))] eq_refl)
    as (folder & entry & current_base & Hcur & Hget & _ & Hnth & _).
  exists folder, entry, current_base. exact (conj Hcur (conj Hget Hnth)).
Defined.

(* ===================================================================== *)
(** * More on the scanner: the tree in general *)
(* ===================================================================== *)

Section ScanTree.
Import App Page.
Implicit Types (entry e : string * list string * list string)
               (walked : list (string * list string * list string))
               (tree : list (string * folder_entry)).

Lemma keys_set_cases {V : Type} (d : list (string * V)) (k : string) (v : V) :
  (In k (PyDict.keys d) /\ PyDict.keys (PyDict.set d k v) = PyDict.keys d)
  \/ (~ In k (PyDict.keys d)
      /\ PyDict.keys (PyDict.set d k v) = (PyDict.keys d ++ [k])%list).
Proof.
  induction d as [|[k0 v0] d IH]; simpl.
  - right. split; [tauto | reflexivity].
  - destruct (String.eqb_spec k0 k) as [-> | Hne]; simpl.
    + left. split; [now left | reflexivity].
    + destruct IH as [[Hin ->] | [Hnotin ->]].
      * left. split; [now right | reflexivity].
      * right. split; [| reflexivity]. intros [? | ?]; [congruence | tauto].
Qed.

Lemma NoDup_snoc {A : Type} (l : list A) (x : A) :
  List.NoDup l -> ~ In x l -> List.NoDup (l ++ [x]).
Proof.
  induction l as [|y l IH]; simpl; intros Hnd Hx.
  - repeat constructor. tauto.
  - inversion Hnd as [|? ? Hy Hnd']; subst. constructor.
    + rewrite in_app_iff. simpl. intros [? | [? | []]]; [tauto | subst; tauto].
    + apply IH; [assumption | tauto].
Qed.

Lemma keys_set_NoDup {V : Type} (d : list (string * V)) (k : string) (v : V) :
  List.NoDup (PyDict.keys d) -> List.NoDup (PyDict.keys (PyDict.set d k v)).
Proof.
  intros Hnd. destruct (keys_set_cases d k v) as [[_ ->] | [Hnotin ->]];
    [exact Hnd |].
  now apply NoDup_snoc.
Qed.

Lemma scan_step_keys_NoDup tree entry :
  List.NoDup (PyDict.keys tree) -> List.NoDup (PyDict.keys (scan_step tree entry)).
Proof.
  intros Hnd. destruct (has_raw entry) eqn:E.
  - rewrite (scan_step_register _ _ E). now apply keys_set_NoDup.
  - now rewrite (scan_step_skip _ _ E).
Qed.

Lemma scan_loop_keys_NoDup walked tree :
  List.NoDup (PyDict.keys tree) ->
  List.NoDup (PyDict.keys (List.fold_left scan_step walked tree)).
Proof.
  revert tree. induction walked as [|e walked IH]; intros tree H; simpl;
    [exact H |].
  apply IH, scan_step_keys_NoDup, H.
Qed.

(** The loop never moves a key that is already there. *)
Lemma scan_loop_keys_prefix walked tree :
  exists more,
    PyDict.keys (List.fold_left scan_step walked tree) = (PyDict.keys tree ++ more)%list.
Proof.
  revert tree. induction walked as [|e walked IH]; intros tree; simpl.
  - exists []. now rewrite app_nil_r.
  - destruct (IH (scan_step tree e)) as [more ->].
    destruct (has_raw e) eqn:E.
    + rewrite (scan_step_register _ _ E).
      destruct (keys_set_cases tree (fst (registered e)) (snd (registered e)))
        as [[_ ->] | [_ ->]]; [now exists more |].
      eexists. now rewrite <- app_assoc.
    + rewrite (scan_step_skip _ _ E). now exists more.
Qed.

Lemma scan_loop_first walked first rest :
  qualifying walked = first :: rest ->
  exists more,
    PyDict.keys (List.fold_left scan_step walked []) = leaf_of first :: more.
Proof.
  induction walked as [|e walked IH]; simpl; [discriminate |].
  unfold qualifying in *. simpl. destruct (has_raw e) eqn:E.
  - intros [= -> _]. rewrite (scan_step_register _ _ E).
    destruct (scan_loop_keys_prefix walked
                (PyDict.set [] (fst (registered first)) (snd (registered first))))
      as [more Hm].
    exists more. rewrite Hm. reflexivity.
  - rewrite (scan_step_skip _ _ E). exact IH.
Qed.

Lemma find_snoc {A : Type} (p : A -> bool) (l : list A) (x : A) :
  List.find p (l ++ [x])
  = match List.find p l with
    | Some y => Some y
    | None => if p x then Some x else None
    end.
Proof.
  induction l as [|y l IH]; simpl; [reflexivity |].
  destruct (p y); [reflexivity | exact IH].
Qed.

(** What a key maps to after the loop: the item of the last qualifying
    directory with that leaf name, else what it mapped to before. *)
Lemma scan_loop_get walked tree (k : string) :
  PyDict.get (List.fold_left scan_step walked tree) k
  = match List.find (registers k) (List.rev walked) with
    | Some e => Some (snd (registered e))
    | None => PyDict.get tree k
    end.
Proof.
  revert tree. induction walked as [|e walked IH]; intros tree; simpl;
    [reflexivity |].
  rewrite IH, find_snoc. destruct (List.find (registers k) (List.rev walked));
    [reflexivity |].
  unfold registers. destruct (has_raw e) eqn:E; simpl.
  - rewrite (scan_step_register _ _ E), get_set.
    change (fst (registered e)) with (leaf_of e).
    now destruct (String.eqb (leaf_of e) k).
  - now rewrite (scan_step_skip _ _ E).
Qed.

Lemma find_registers_last walked (before after : list (string * list string * list string))
    e :
  qualifying walked = (before ++ e :: after)%list ->
  (forall e', In e' after -> leaf_of e' <> leaf_of e) ->
  List.find (registers (leaf_of e)) (List.rev walked) = Some e.
Proof.
  revert before after.
  induction walked as [|x walked IH] using rev_ind; intros before after Hq Hafter.
  - now destruct before.
  - rewrite rev_unit. simpl. unfold qualifying in *. rewrite List.filter_app in Hq.
    simpl in Hq. unfold registers at 1. destruct (has_raw x) eqn:E; simpl.
    + assert (Hl : e :: after <> []) by discriminate.
      destruct (exists_last Hl) as (front & (z & Hfz)). clear Hl.
      rewrite Hfz, app_assoc in Hq. apply app_inj_tail in Hq as [Hq ->].
      destruct after as [|a after].
      * destruct front as [|? [|? ?]]; simpl in Hfz; try discriminate Hfz.
        injection Hfz as <-. now rewrite String.eqb_refl.
      * destruct front as [|e0 front]; [discriminate Hfz |].
        simpl in Hfz. injection Hfz as <- Hfz.
        assert (Hne : leaf_of z <> leaf_of e).
        { apply Hafter. rewrite Hfz. apply in_or_app. right. now left. }
        apply String.eqb_neq in Hne. rewrite Hne.
        apply (IH before front Hq). intros e' He'. apply Hafter. rewrite Hfz.
        apply in_or_app. now left.
    + rewrite app_nil_r in Hq. now apply (IH before after).
Qed.

Lemma find_registers_Some walked (k : string) e :
  List.find (registers k) (List.rev walked) = Some e ->
  In e (qualifying walked) /\ leaf_of e = k.
Proof.
  intros H. apply find_some in H as [Hin Hp]. apply in_rev in Hin.
  unfold registers in Hp. apply andb_prop in Hp as [Hraw Hk].
  split; [now apply filter_In | now apply String.eqb_eq].
Qed.

Lemma find_registers_None walked (k : string) e :
  List.find (registers k) (List.rev walked) = None ->
  In e (qualifying walked) -> leaf_of e <> k.
Proof.
  intros H Hin Hk. apply filter_In in Hin as [Hin Hraw].
  apply in_rev in Hin. pose proof (find_none _ _ H e Hin) as Hp.
  unfold registers in Hp. rewrite Hraw in Hp. simpl in Hp.
  apply String.eqb_neq in Hp. contradiction.
Qed.

Lemma scan_loop_Forall (P : string * folder_entry -> Prop) walked tree :
  (forall e, has_raw e = true -> P (registered e)) ->
  List.Forall P tree -> List.Forall P (List.fold_left scan_step walked tree).
Proof.
  intros Hreg. revert tree. induction walked as [|e walked IH]; intros tree H; simpl;
    [exact H |].
  apply IH. destruct (has_raw e) eqn:E; [| now rewrite (scan_step_skip _ _ E)].
  rewrite (scan_step_register _ _ E). apply List.Forall_forall.
  intros [k v] Hin. apply In_set in Hin as [[-> ->] | Hin].
  - now apply (Hreg e).
  - rewrite List.Forall_forall in H. exact (H _ Hin).
Qed.

Lemma registered_tidy e :
  has_raw e = true ->
  base_names (snd (registered e)) <> []
  /\ StronglySorted String.le (base_names (snd (registered e))).
Proof.
  intros E. split.
  - simpl. intros Hnil. apply (f_equal (@List.length string)) in Hnil.
    rewrite sorted_length, List.length_map in Hnil.
    unfold has_raw in E. apply existsb_exists in E as (f & Hf & Ef).
    assert (In f (raw_files_of e)) as Hin by (apply filter_In; now split).
    destruct (raw_files_of e); [destruct Hin | discriminate Hnil].
  - simpl. apply StronglySorted_merge_sort; apply _.
Qed.

(** What a scan that finds something does, whatever the leaf names. *)
Lemma scan_found (w : world) (root_path : string) first rest :
  os_path_exists w root_path = true ->
  qualifying (os_walk w root_path) = first :: rest ->
  scan_png_directory root_path w
  = (with_session w
       {| scan_complete := true;
          file_tree := List.fold_left scan_step (os_walk w root_path) [];
          annotations := annotations (session w);
          current_folder := Some (leaf_of first);
          current_img_idx := 0 |}, Done tt).
Proof.
  intros Hex Hq. destruct (scan_loop_first _ _ _ Hq) as [more Hkeys].
  unfold scan_png_directory, bind, get_world, put_session.
  rewrite Hex. simpl negb. cbv iota. now rewrite Hkeys.
Qed.

Lemma qualifying_nonempty walked entry (f : string) :
  In entry walked -> In f (files_of entry) -> PyStr.endswith f raw_suffix = true ->
  exists first rest, qualifying walked = first :: rest.
Proof.
  intros Hin Hf Hend.
  assert (Hq : In entry (qualifying walked)).
  { apply filter_In. split; [assumption |]. apply existsb_exists. now exists f. }
  destruct (qualifying walked) as [|first rest]; [destruct Hq | now eexists; eexists].
Qed.

End ScanTree.

Section WalkedFiles.
Import App Page.

(** Every triple of a walk of a well-formed disk names a directory of the
    disk and lists its files. *)
Lemma walk_entry (w : world) (n : Disk.node) :
  Disk.wf (disk w) = true ->
  forall (top : string) (pre : list string),
    PosixPath.isabs top = true ->
    PosixPath.components (cwd w) top = pre ->
    Disk.resolve (disk w) pre = Some n ->
    forall entry, In entry (Disk.walk top n) ->
      PosixPath.isabs (dirpath_of entry) = true
      /\ exists es,
           Disk.resolve (disk w) (PosixPath.components (cwd w) (dirpath_of entry))
           = Some (Disk.Dir es)
           /\ files_of entry = Disk.filenames es.
Proof.
  intros Hwf. induction n as [c | es IH] using node_ind;
    intros top pre Habs Hpre Hres entry Hin; [destruct Hin |].
  pose proof (wf_resolve _ _ _ Hwf Hres) as Hd.
  destruct (wf_dir es Hd) as [Hnd Hvalid].
  simpl in Hin. destruct Hin as [<- | Hin].
  - split; [exact Habs |]. exists es. unfold dirpath_of. simpl.
    rewrite Hpre. now split.
  - apply in_flat_map in Hin as ([name child] & He & Hin).
    rewrite List.Forall_forall in IH.
    destruct (Hvalid name child He) as [Hname _].
    apply (IH _ He (PosixPath.join top name) (pre ++ [name])%list);
      [now apply isabs_join | | | exact Hin].
    + rewrite components_join by assumption. now rewrite Hpre.
    + rewrite resolve_app, Hres. simpl. now rewrite (In_get es name _ Hnd He).
Qed.

Lemma filenames_In (es : list (string * Disk.node)) (f : string) :
  In f (Disk.filenames es) -> exists c, In (f, Disk.File c) es.
Proof.
  unfold Disk.filenames. intros H.
  apply in_map_iff in H as ([name [c | ds]] & <- & He);
    apply filter_In in He as [He Hk]; [now exists c | discriminate Hk].
Qed.

(** The files [os.walk] lists are there: joining the directory path and
    the file name gives the path of a regular file. *)
Lemma walked_file_readable (w : world) (top : string)
    (entry : string * list string * list string) (f : string) :
  Disk.wf (disk w) = true ->
  PosixPath.isabs top = true ->
  In entry (os_walk w top) ->
  In f (files_of entry) ->
  exists c,
    Disk.read_file (disk w)
      (PosixPath.components (cwd w) (PosixPath.join (dirpath_of entry) f)) = Some c.
Proof.
  intros Hwf Habs Hin Hf. unfold os_walk in Hin.
  destruct (Disk.resolve (disk w) (PosixPath.components (cwd w) top)) as [n|] eqn:E;
    [| destruct Hin].
  destruct (walk_entry w n Hwf top _ Habs eq_refl E entry Hin) as (Habs' & es & Hres & Hfiles).
  rewrite Hfiles in Hf. destruct (filenames_In es f Hf) as [c Hc].
  pose proof (wf_resolve _ _ _ Hwf Hres) as Hd.
  destruct (wf_dir es Hd) as [Hnd Hvalid].
  exists c. rewrite components_join; [| exact Habs' | now apply (Hvalid f _ Hc)].
  unfold Disk.read_file. rewrite resolve_app, Hres. simpl.
  now rewrite (In_get es f _ Hnd Hc).
Qed.

Lemma os_walk_exists (w : world) (top : string)
    (entry : string * list string * list string) :
  In entry (os_walk w top) -> os_path_exists w top = true.
Proof.
  unfold os_walk, os_path_exists.
  now destruct (Disk.resolve (disk w) (PosixPath.components (cwd w) top)).
Qed.

Lemma isabs_data_dir (w : world) :
  PosixPath.isabs (cwd w) = true -> PosixPath.isabs (DATA_DIR w) = true.
Proof. apply isabs_join. Qed.

End WalkedFiles.

(** X1. A scan of an existing root under which some directory holds a file
    ending in [_raw.png] succeeds, whatever else is there: it installs a
    non-empty tree, points the session at index 0 of the first qualifying
    directory's leaf name, marks the dataset ready, shows no message, and
    leaves the annotations and the disk as they were. *)
Theorem scan_finds_dataset (w : App.world) (root_path : string)
    (entry : string * list string * list string) (f : string) :
  App.os_path_exists w root_path = true ->
  In entry (App.os_walk w root_path) ->
  In f (App.files_of entry) ->
  PyStr.endswith f "_raw.png" = true ->
  exists first rest tree,
    App.qualifying (App.os_walk w root_path) = first :: rest
    /\ tree <> []
    /\ PyDict.get tree (Page.leaf_of first) <> None
    /\ App.scan_png_directory root_path w
       = (App.with_session w
            {| App.scan_complete := true;
               App.file_tree := tree;
               App.annotations := App.annotations (App.session w);
               App.current_folder := Some (Page.leaf_of first);
               App.current_img_idx := 0 |}, App.Done tt).
Proof.
  intros Hex Hin Hf Hend.
  destruct (qualifying_nonempty _ _ _ Hin Hf Hend) as (first & rest & Hq).
  exists first, rest, (List.fold_left App.scan_step (App.os_walk w root_path) []).
  destruct (scan_loop_first _ _ _ Hq) as [more Hkeys].
  split; [exact Hq |]. split; [| split].
  - intros Hnil. rewrite Hnil in Hkeys. discriminate Hkeys.
  - intros Hnone. apply get_None in Hnone. apply Hnone. rewrite Hkeys. now left.
  - exact (scan_found w root_path first rest Hex Hq).
Qed.

Lemma scan_finds_dataset_witness :
  exists first rest tree,
    App.qualifying (App.os_walk Sample.same_leaf (App.DATA_DIR Sample.same_leaf))
    = first :: rest
    /\ tree <> []
    /\ App.scan_png_directory (App.DATA_DIR Sample.same_leaf) Sample.same_leaf
       = (App.with_session Sample.same_leaf
            {| App.scan_complete := true;
               App.file_tree := tree;
               App.annotations := [];
               App.current_folder := Some (Page.leaf_of first);
               App.current_img_idx := 0 |}, App.Done tt).
Proof.
  assert (Hin : In ("/w/_precomputed_data/a/x", [], ["s_raw.png"])
                  (App.os_walk Sample.same_leaf (App.DATA_DIR Sample.same_leaf))).
  { right. right. now left. }
  destruct (scan_finds_dataset Sample.same_leaf (App.DATA_DIR Sample.same_leaf)
              _ "s_raw.png" eq_refl Hin (or_introl eq_refl) eq_refl)
    as (first & rest & tree & Hq & Hne & _ & Hrun).
  exists first, rest, tree. exact (conj Hq (conj Hne Hrun)).
Defined.

(** X2. The tree a successful scan installs, leaf names repeated or not:
    its keys are distinct and are exactly the leaf names of the qualifying
    directories; a key maps to the path and sorted base names of the last
    qualifying directory, in walk order, that has this leaf name; and no
    folder of the tree has an empty or unsorted list of base names. *)
Theorem scanned_tree_shape (w : App.world) (root_path : string) :
  App.os_path_exists w root_path = true ->
  App.qualifying (App.os_walk w root_path) <> [] ->
  let Q := App.qualifying (App.os_walk w root_path) in
  let s' := App.session (fst (App.scan_png_directory root_path w)) in
  Page.Tidy s'
  /\ (forall k, In k (PyDict.keys (App.file_tree s'))
                <-> exists e, In e Q /\ Page.leaf_of e = k)
  /\ (forall before e after,
        Q = (before ++ e :: after)%list ->
        (forall e', In e' after -> Page.leaf_of e' <> Page.leaf_of e) ->
        PyDict.get (App.file_tree s') (Page.leaf_of e)
        = Some {| App.path := App.dirpath_of e;
                  App.base_names :=
                    PyList.sorted (List.map App.base_name_of (App.raw_files_of e)) |}).
Proof.
  intros Hex Hne Q s'. subst Q s'.
  assert (Hfr : exists first rest,
            App.qualifying (App.os_walk w root_path) = first :: rest).
  { destruct (App.qualifying (App.os_walk w root_path)) as [|first rest];
      [congruence | now exists first, rest]. }
  destruct Hfr as (first & rest & EQ).
  rewrite (scan_found w root_path first rest Hex EQ).
  cbn [fst App.session App.with_session App.file_tree].
  split; [split |]; [| | split].
  - apply scan_loop_keys_NoDup. constructor.
  - apply scan_loop_Forall; [exact registered_tidy | constructor].
  - intros k. split.
    + intros Hin. apply In_keys_get in Hin as [v Hv].
      rewrite scan_loop_get in Hv.
      destruct (List.find (Page.registers k) _) as [e|] eqn:Ef; [| discriminate Hv].
      apply find_registers_Some in Ef as [He Hk]. now exists e.
    + intros (e & He & Hk).
      destruct (PyDict.get (List.fold_left App.scan_step (App.os_walk w root_path) []) k)
        as [v|] eqn:Hv; [now apply get_In, (in_map fst) in Hv |].
      rewrite scan_loop_get in Hv.
      destruct (List.find (Page.registers k) _) as [e'|] eqn:Ef; [discriminate Hv |].
      exfalso. exact (find_registers_None _ _ _ Ef He Hk).
  - intros before e after Hq Hafter. rewrite scan_loop_get.
    now rewrite (find_registers_last _ _ _ _ Hq Hafter).
Qed.

Lemma scanned_tree_shape_witness :
  PyDict.keys (App.file_tree
                 (App.session (fst (App.scan_png_directory
                                      (App.DATA_DIR Sample.same_leaf) Sample.same_leaf))))
  = ["x"]
  /\ PyDict.get (App.file_tree
                   (App.session (fst (App.scan_png_directory
                                        (App.DATA_DIR Sample.same_leaf) Sample.same_leaf))))
       "x"
     = Some {| App.path := "/w/_precomputed_data/b/x"; App.base_names := ["t"] |}.
Proof.
  assert (Hne : App.qualifying (App.os_walk Sample.same_leaf (App.DATA_DIR Sample.same_leaf))
                <> []) by (vm_compute; discriminate).
  destruct (scanned_tree_shape Sample.same_leaf (App.DATA_DIR Sample.same_leaf) eq_refl Hne)
    as (_ & _ & Hget).
  split; [reflexivity |].
  refine (Hget [("/w/_precomputed_data/a/x", [], ["s_raw.png"])]
               ("/w/_precomputed_data/b/x", [], ["t_raw.png"]) [] eq_refl _).
  intros e' [].
Defined.

(** X3. From scan to view, on a well-formed disk: a raw file of the
    registered directory whose name holds [_raw.png] only as its suffix
    has its base name in the folder's list, and the Raw RGB layer path the
    view builds for that base name is the path of this file, which is
    there to open. *)
Theorem raw_layer_is_scanned_file (w : App.world)
    (before after : list (string * list string * list string))
    (e : string * list string * list string) (b : string) :
  PosixPath.isabs (App.cwd w) = true ->
  Disk.wf (App.disk w) = true ->
  App.qualifying (App.os_walk w (App.DATA_DIR w)) = (before ++ e :: after)%list ->
  (forall e', In e' after -> Page.leaf_of e' <> Page.leaf_of e) ->
  In (b +:+ "_raw.png") (App.files_of e) ->
  (forall p q, b = p +:+ q -> q <> "" ->
               PyStr.startswith (q +:+ "_raw.png") "_raw.png" = false) ->
  let s' := App.session (fst (App.on_load_dataset w)) in
  exists entry c,
    PyDict.get (App.file_tree s') (Page.leaf_of e) = Some entry
    /\ In b (App.base_names entry)
    /\ Page.bg_image_path (App.path entry) b Page.Raw_RGB
       = PosixPath.join (App.dirpath_of e) (b +:+ "_raw.png")
    /\ Disk.read_file (App.disk w)
         (PosixPath.components (App.cwd w)
            (Page.bg_image_path (App.path entry) b Page.Raw_RGB)) = Some c.
Proof.
  intros Habs Hwf Hq Hafter Hf Hfirst s'.
  assert (He : In e (App.os_walk w (App.DATA_DIR w))).
  { assert (Hin : In e (App.qualifying (App.os_walk w (App.DATA_DIR w))))
      by (rewrite Hq; apply in_or_app; right; now left).
    now apply filter_In in Hin. }
  pose proof (os_walk_exists _ _ _ He) as Hex.
  destruct (before ++ e :: after)%list as [|first rest] eqn:EQ;
    [now destruct before |].
  subst s'. unfold App.on_load_dataset, App.bind, App.get_world.
  rewrite (scan_found w (App.DATA_DIR w) first rest Hex Hq). simpl.
  destruct (walked_file_readable w (App.DATA_DIR w) e (b +:+ "_raw.png") Hwf
              (isabs_data_dir w Habs) He Hf) as [c Hc].
  exists (snd (App.registered e)), c.
  split; [| split; [| split]].
  - rewrite scan_loop_get. rewrite <- EQ in Hq.
    now rewrite (find_registers_last _ _ _ _ Hq Hafter).
  - simpl. apply (Permutation_in _ (Permutation_sym (merge_sort_Permutation _ _))).
    apply in_map_iff. exists (b +:+ "_raw.png"). split.
    + exact (proj1 (base_name_first_occurrence b Hfirst)).
    + apply filter_In. split; [exact Hf |]. apply endswith_spec. now exists b.
  - reflexivity.
  - exact Hc.
Qed.

Lemma raw_layer_is_scanned_file_witness :
  exists entry c,
    PyDict.get (App.file_tree (App.session (fst (App.on_load_dataset Sample.fresh)))) "B"
    = Some entry
    /\ In "t1" (App.base_names entry)
    /\ Disk.read_file (App.disk Sample.fresh)
         (PosixPath.components "/w" (Page.bg_image_path (App.path entry) "t1" Page.Raw_RGB))
       = Some c.
Proof.
  assert (Hfirst : forall p q, "t1" = p +:+ q -> q <> "" ->
            PyStr.startswith (q +:+ "_raw.png") "_raw.png" = false).
  { intros [|c1 [|c2 [|c3 p]]] q Hpq Hq.
    - rewrite append_nil_l in Hpq. now subst q.
    - rewrite !append_cons, append_nil_l in Hpq. injection Hpq as <- <-. reflexivity.
    - rewrite !append_cons, append_nil_l in Hpq. injection Hpq as _ _ Hq'. congruence.
    - rewrite !append_cons in Hpq. discriminate Hpq. }
  destruct (raw_layer_is_scanned_file Sample.fresh
              [("/w/_precomputed_data/A", [], ["s1_raw.png"; "s1_norm.png"])] []
              ("/w/_precomputed_data/B", [], ["t2_raw.png"; "t1_raw.png"; "notes.txt"])
              "t1" eq_refl eq_refl eq_refl)
    as (entry & c & Hget & Hin & _ & Hread);
    [intros e' [] | right; now left | exact Hfirst |].
  exists entry, c. exact (conj Hget (conj Hin Hread)).
Defined.

(* ===================================================================== *)
(** * More on the annotation table *)
(* ===================================================================== *)

Section TableMore.
Import App Page.
Implicit Types (t : list annotation) (r x : annotation).

Lemma filter_twice {A : Type} (p : A -> bool) (l : list A) :
  List.filter p (List.filter p l) = List.filter p l.
Proof.
  induction l as [|y l IH]; simpl; [reflexivity |].
  destruct (p y) eqn:E; simpl; [rewrite E; now f_equal | exact IH].
Qed.

Lemma same_key_trans_eq r r' x : key r' = key r -> same_key x r' = same_key x r.
Proof.
  intros H. destruct (same_key x r) eqn:E.
  - apply same_key_spec. apply same_key_spec in E. congruence.
  - destruct (same_key x r') eqn:E'; [| reflexivity].
    apply same_key_spec in E'. assert (same_key x r = true); [| congruence].
    apply same_key_spec. congruence.
Qed.

(** An upsert puts its row last, after the rows of the other keys. *)
Lemma upsert_row_shape t r :
  upsert_row t r
  = (List.filter (fun x => negb (same_key x r)) (drop_duplicates_keep_last t) ++ [r])%list.
Proof. now rewrite upsert_row_eta, drop_duplicates_snoc. Qed.

Lemma upsert_row_again t r r' :
  key r' = key r ->
  upsert_row (upsert_row t r) r'
  = (List.filter (fun x => negb (same_key x r)) (drop_duplicates_keep_last t) ++ [r'])%list.
Proof.
  intros Hk. rewrite (upsert_row_eq (upsert_row t r) r' (upsert_row_NoDup t r)).
  rewrite upsert_row_shape, List.filter_app. simpl.
  assert (Hr : same_key r r' = true) by (apply same_key_spec; congruence).
  rewrite Hr. simpl. rewrite app_nil_r. f_equal.
  rewrite (List.filter_ext _ (fun x => negb (same_key x r)))
    by (intros x; now rewrite (same_key_trans_eq r r' x Hk)).
  apply filter_twice.
Qed.

Lemma skipn_snoc {A : Type} (k : nat) (l : list A) (x : A) :
  (k <= List.length l)%nat -> List.skipn k (l ++ [x]) = (List.skipn k l ++ [x])%list.
Proof.
  revert k. induction l as [|y l IH]; intros [|k] H; simpl in *; try reflexivity;
    try lia.
  apply IH. lia.
Qed.

End TableMore.

(** X4. Saving the same sample again replaces its row where it is, at the
    end of the table, and touches nothing else: both tables are the same
    rows of other keys followed by the row of the save, so the table does
    not grow, and a save repeated with the same values changes nothing. *)
Theorem upsert_again_replaces_in_place (t : list App.annotation)
    (folder base_name tag notes status tag' notes' status' : string) :
  exists others : list App.annotation,
    App.upsert t folder base_name tag notes status
    = (others ++ [{| App.Folder := folder; App.Base_Filename := base_name;
                     App.Tag := tag; App.Mask_Saved := status;
                     App.Notes := notes |}])%list
    /\ App.upsert (App.upsert t folder base_name tag notes status)
         folder base_name tag' notes' status'
       = (others ++ [{| App.Folder := folder; App.Base_Filename := base_name;
                        App.Tag := tag'; App.Mask_Saved := status';
                        App.Notes := notes' |}])%list
    /\ List.Forall (fun x => App.key x <> (folder, base_name)) others
    /\ App.upsert (App.upsert t folder base_name tag notes status)
         folder base_name tag notes status
       = App.upsert t folder base_name tag notes status.
Proof.
  set (r := {| App.Folder := folder; App.Base_Filename := base_name;
               App.Tag := tag; App.Mask_Saved := status; App.Notes := notes |}).
  set (r' := {| App.Folder := folder; App.Base_Filename := base_name;
                App.Tag := tag'; App.Mask_Saved := status'; App.Notes := notes' |}).
  exists (List.filter (fun x => negb (App.same_key x r))
            (App.drop_duplicates_keep_last t)).
  split; [exact (upsert_row_shape t r) |].
  split; [exact (upsert_row_again t r r' eq_refl) |]. split.
  - apply List.Forall_forall. intros x Hx. apply filter_In in Hx as [_ Hx].
    apply negb_true_iff in Hx. intros Hk.
    assert (App.same_key x r = true); [| congruence]. now apply same_key_spec.
  - change (App.upsert_row (App.upsert_row t r) r = App.upsert_row t r).
    now rewrite (upsert_row_again t r r eq_refl), upsert_row_shape.
Qed.

(** X5. The feedback table of the sidebar, [annotations.tail(3)], after a
    save: its last row is the row just saved, before it come the (at most
    two) rows that precede that row in the table, and it shows three rows
    as soon as the table has three. *)
Theorem recent_rows_end_with_last_save (t : list App.annotation)
    (folder base_name tag notes status : string) :
  let row := {| App.Folder := folder; App.Base_Filename := base_name;
                App.Tag := tag; App.Mask_Saved := status; App.Notes := notes |} in
  let T := App.upsert t folder base_name tag notes status in
  exists front shown : list App.annotation,
    T = (front ++ shown ++ [row])%list
    /\ Page.tail 3 T = (shown ++ [row])%list
    /\ (List.length shown <= 2)%nat
    /\ (front <> [] -> List.length shown = 2%nat).
Proof.
  intros row T. subst T. change (App.upsert t folder base_name tag notes status)
    with (App.upsert_row t row).
  rewrite upsert_row_shape.
  set (X := List.filter (fun x => negb (App.same_key x row))
              (App.drop_duplicates_keep_last t)).
  exists (List.firstn (List.length X - 2) X), (List.skipn (List.length X - 2) X).
  split; [| split; [| split]].
  - now rewrite app_assoc, List.firstn_skipn.
  - unfold Page.tail. rewrite List.length_app. simpl.
    replace (List.length X + 1 - 3)%nat with (List.length X - 2)%nat by lia.
    apply skipn_snoc. lia.
  - rewrite List.length_skipn. lia.
  - intros Hne. rewrite List.length_skipn.
    destruct (le_lt_dec (List.length X) 2) as [Hle | Hgt]; [| lia].
    exfalso. apply Hne. replace (List.length X - 2)%nat with O by lia. reflexivity.
Qed.

(* ===================================================================== *)
(** * More on navigation: the buttons of the page *)
(* ===================================================================== *)

Section Buttons.
Import App Page.
Local Open Scope Z_scope.

Lemma first_occurrence (l : list string) (x : string) :
  In x l -> exists pre post, l = (pre ++ x :: post)%list /\ ~ In x pre.
Proof.
  induction l as [|y l IH]; simpl; [tauto |].
  intros H. destruct (String.eqb_spec y x) as [-> | Hne].
  - exists [], l. split; [reflexivity | tauto].
  - destruct H as [? | H]; [congruence |].
    destruct (IH H) as (pre & post & -> & Hpre).
    exists (y :: pre), post. split; [reflexivity |].
    intros [? | ?]; [congruence | tauto].
Qed.

Lemma browsing_keys (s : session_state) (folder : string) (entry : folder_entry) :
  Browsing s folder entry ->
  exists pre post,
    PyDict.keys (file_tree s) = (pre ++ folder :: post)%list /\ ~ In folder pre.
Proof.
  intros (_ & _ & Hget & _). apply first_occurrence.
  now apply get_In, (in_map fst) in Hget.
Qed.

(** A press of Save with an empty canvas, in closed form. *)
Lemma press_eq (w : world) (folder base_name tag notes : string) (entry : folder_entry)
    (pre post : list string) :
  Browsing (session w) folder entry ->
  PyDict.keys (file_tree (session w)) = (pre ++ folder :: post)%list ->
  ~ In folder pre ->
  PyList.getitem (base_names entry) (current_img_idx (session w)) = Some base_name ->
  run (SaveNext tag notes (Some None)) w
  = (let w' := with_session w
                 (after_save (session w) folder base_name tag notes entry post) in
     if current_img_idx (session w) <? Z.of_nat (List.length (base_names entry)) - 1
     then w'
     else match post with
          | _ :: _ => w'
          | [] => with_message w' all_completed
          end, Rerun).
Proof.
  intros Hb Hkeys Hpre Hbase.
  destruct (render_browsing w folder entry Hb) as (b & Hb1 & Hrender).
  assert (b = base_name) by congruence. subst b.
  destruct Hb as (Hscan & Hcur & Hget & Hrange).
  unfold run, on_save_next, bind, get_session. simpl. rewrite Hscan, Hrender. simpl.
  pose (c := {| call_base := base_name; call_tag := tag; call_notes := notes;
                call_mask := None |}).
  change (save_annotation_and_next folder base_name tag notes None)
    with (save_call_run folder c).
  rewrite (save_after_persist w w folder c "No" eq_refl).
  erewrite advance_eq with (entry := entry) (pre := pre) (post := post);
    [| exact Hget | exact Hkeys | exact Hpre].
  unfold after_save. simpl.
  destruct (current_img_idx (session w) <? _); simpl; [now rewrite Hcur |].
  destruct post; reflexivity.
Qed.

(** A press of Previous, in closed form. *)
Lemma previous_eq (w : world) (folder : string) (entry : folder_entry) :
  Browsing (session w) folder entry ->
  run Previous w
  = if current_img_idx (session w) =? 0 then (w, Done tt)
    else (with_session w
            (set_position (session w) (Some folder) (current_img_idx (session w) - 1)),
          Rerun).
Proof.
  intros Hb. destruct (render_browsing w folder entry Hb) as (b & _ & Hrender).
  destruct Hb as (Hscan & Hcur & _ & _).
  unfold run, on_previous, bind, get_session. simpl. rewrite Hscan, Hrender. simpl.
  destruct (current_img_idx (session w) =? 0); simpl; [reflexivity |].
  unfold put_session, st_rerun. now rewrite Hcur.
Qed.

Lemma lookup_after_upsert (t : list annotation)
    (folder base_name tag notes status : string) :
  App.lookup (upsert t folder base_name tag notes status) folder base_name
  = [{| Folder := folder; Base_Filename := base_name; Tag := tag;
        Mask_Saved := status; Notes := notes |}].
Proof.
  set (row := {| Folder := folder; Base_Filename := base_name; Tag := tag;
                 Mask_Saved := status; Notes := notes |}).
  rewrite lookup_has_key. change (upsert t folder base_name tag notes status)
    with (upsert_row t row).
  apply (lookup_unique (upsert_row t row) row (upsert_row_NoDup t row)).
  rewrite upsert_row_eta, drop_duplicates_snoc, in_app_iff. right. now left.
Qed.

(** *** The samples ahead *)

Lemma rest_after_In (tree : list (string * folder_entry)) (folder : string)
    (item : string * folder_entry) :
  In item (rest_after tree folder) -> In item tree.
Proof.
  induction tree as [|[k v] tree IH]; simpl; [tauto |].
  destruct (String.eqb k folder); [now right | intros H; right; now apply IH].
Qed.

Lemma rest_after_keys (tree : list (string * folder_entry)) (folder : string)
    (pre post : list string) :
  PyDict.keys tree = (pre ++ folder :: post)%list ->
  ~ In folder pre ->
  PyDict.keys (rest_after tree folder) = post.
Proof.
  revert pre. induction tree as [|[k v] tree IH]; intros pre Hk Hpre.
  - now destruct pre.
  - simpl. destruct pre as [|p pre]; simpl in Hk; injection Hk as -> Hk.
    + now rewrite String.eqb_refl.
    + destruct (String.eqb_spec p folder) as [-> | Hne]; [simpl in Hpre; tauto |].
      apply (IH pre Hk). simpl in Hpre. tauto.
Qed.

(** In a dictionary, the item after a folder is what its key denotes, and
    what comes after it is what comes after its key. *)
Lemma rest_after_next (tree : list (string * folder_entry)) (folder next : string)
    (entry : folder_entry) (more : list (string * folder_entry)) :
  List.NoDup (PyDict.keys tree) ->
  rest_after tree folder = (next, entry) :: more ->
  PyDict.get tree next = Some entry /\ rest_after tree next = more.
Proof.
  induction tree as [|[k v] tree IH]; simpl; [discriminate |].
  intros Hnd Hrest. inversion Hnd as [|? ? Hk Hnd']; subst.
  destruct (String.eqb_spec k folder) as [-> | Hne].
  - subst tree. simpl in Hk.
    destruct (String.eqb_spec folder next) as [-> | Hne']; [tauto |].
    simpl. now rewrite String.eqb_refl.
  - assert (Hin : In (next, entry) tree)
      by (apply (rest_after_In tree folder); rewrite Hrest; now left).
    destruct (String.eqb_spec k next) as [-> | Hne'].
    + exfalso. apply Hk. now apply (in_map fst) in Hin.
    + now apply IH.
Qed.

Lemma skipn_nth_error {A : Type} (l : list A) (k : nat) (x : A) :
  List.nth_error l k = Some x -> List.skipn k l = x :: List.skipn (S k) l.
Proof.
  revert k. induction l as [|y l IH]; intros [|k]; simpl; try discriminate.
  - now intros [= ->].
  - intros H. now rewrite (IH k H).
Qed.

(** One press of Save with an empty canvas, in terms of the sample on
    display and the samples ahead of it. *)
Lemma press_step (w : world) (tag notes : string) :
  scan_complete (session w) = true ->
  Sound (session w) ->
  List.NoDup (PyDict.keys (file_tree (session w))) ->
  exists d,
    displayed (session w) = Some d
    /\ (let w' := fst (run (SaveNext tag notes (Some None)) w) in
        snd (run (SaveNext tag notes (Some None)) w) = Rerun
        /\ annotations (session w')
           = upsert_row (annotations (session w)) (saved_row d (tag, notes))
        /\ file_tree (session w') = file_tree (session w)
        /\ scan_complete (session w') = true
        /\ disk w' = disk w
        /\ match ahead (session w) with
           | next :: more =>
               displayed (session w') = Some next
               /\ ahead (session w') = more
               /\ screen w' = screen w
           | [] =>
               position (session w') = position (session w)
               /\ displayed (session w') = Some d
               /\ ahead (session w') = []
               /\ screen w' = (screen w ++ [all_completed])%list
           end).
Proof.
  intros Hscan [Hall Hready] Hnd.
  destruct (Hready Hscan) as (folder & entry & Hb).
  destruct (browsing_keys _ _ _ Hb) as (pre & post & Hkeys & Hpre).
  destruct (render_browsing w folder entry Hb) as (b & Hbase & _).
  pose proof (rest_after_keys _ _ _ _ Hkeys Hpre) as Hrest.
  pose proof Hb as (_ & Hcur & Hget & Hrange).
  exists (folder, b).
  assert (Hd : displayed (session w) = Some (folder, b))
    by (unfold displayed; now rewrite Hcur, Hget, Hbase).
  split; [exact Hd |]. cbv zeta.
  rewrite (press_eq w folder b tag notes entry pre post Hb Hkeys Hpre Hbase).
  cbv zeta. unfold after_save. cbv zeta.
  set (k := Z.to_nat (current_img_idx (session w))) in *.
  assert (Hk : current_img_idx (session w) = Z.of_nat k) by (subst k; lia).
  assert (Hnth : List.nth_error (base_names entry) k = Some b)
    by (rewrite <- getitem_nat, <- Hk; exact Hbase).
  assert (Ha : ahead (session w)
               = (List.map (fun b0 => (folder, b0)) (List.skipn (S k) (base_names entry))
                  ++ all_samples (rest_after (file_tree (session w)) folder))%list)
    by (unfold ahead; now rewrite Hcur, Hget).
  rewrite Ha. clear Ha.
  destruct (Z.ltb_spec (current_img_idx (session w))
              (Z.of_nat (List.length (base_names entry)) - 1)) as [Hlt | Hge].
  - (* another sample of the same folder *)
    destruct (List.nth_error (base_names entry) (S k)) as [b'|] eqn:Hnext;
      [| apply List.nth_error_None in Hnext; lia].
    rewrite (skipn_nth_error _ _ _ Hnext).
    cbn [fst snd session with_session with_message screen disk annotations file_tree
         scan_complete set_position set_annotations List.map List.app].
    assert (Hd' : displayed
                    (set_position
                       (set_annotations (session w)
                          (upsert (annotations (session w)) folder b tag notes "No"))
                       (Some folder) (current_img_idx (session w) + 1))
                  = Some (folder, b')).
    { unfold displayed. cbn [current_folder current_img_idx file_tree set_position
                             set_annotations]. rewrite Hget.
      replace (current_img_idx (session w) + 1) with (Z.of_nat (S k)) by lia.
      now rewrite getitem_nat, Hnext. }
    assert (Ha' : ahead
                    (set_position
                       (set_annotations (session w)
                          (upsert (annotations (session w)) folder b tag notes "No"))
                       (Some folder) (current_img_idx (session w) + 1))
                  = (List.map (fun b0 => (folder, b0))
                       (List.skipn (S (S k)) (base_names entry))
                     ++ all_samples (rest_after (file_tree (session w)) folder))%list).
    { unfold ahead. cbn [current_folder current_img_idx file_tree set_position
                         set_annotations]. rewrite Hget.
      replace (Z.to_nat (current_img_idx (session w) + 1)) with (S k) by lia.
      reflexivity. }
    rewrite Hd', Ha'. now repeat split.
  - (* the last sample of the folder *)
    rewrite (List.skipn_all2 (base_names entry)) by lia.
    cbn [List.map List.app].
    destruct post as [|next post].
    + destruct (rest_after (file_tree (session w)) folder) as [|item R] eqn:E;
        [| discriminate Hrest].
      cbn [fst snd session with_session with_message screen disk annotations file_tree
           scan_complete set_position set_annotations all_samples List.flat_map].
      assert (Hd' : displayed
                      (set_annotations (session w)
                         (upsert (annotations (session w)) folder b tag notes "No"))
                    = Some (folder, b)).
      { unfold displayed. cbn [current_folder current_img_idx file_tree set_annotations].
        now rewrite Hcur, Hget, Hbase. }
      assert (Ha' : ahead
                      (set_annotations (session w)
                         (upsert (annotations (session w)) folder b tag notes "No"))
                    = []).
      { unfold ahead. cbn [current_folder current_img_idx file_tree set_annotations].
        rewrite Hcur, Hget. fold k.
        rewrite (List.skipn_all2 (base_names entry)) by lia. now rewrite E. }
      rewrite Hd', Ha'. now repeat split.
    + destruct (rest_after (file_tree (session w)) folder) as [|[next' e'] R] eqn:E;
        [discriminate Hrest |].
      simpl in Hrest. injection Hrest as -> _.
      destruct (rest_after_next _ _ _ _ _ Hnd E) as [Hget' Hrest'].
      pose proof (entry_nonempty _ _ _ Hall Hget') as Hlen.
      destruct (base_names e') as [|b0 names'] eqn:En; [simpl in Hlen; lia |].
      cbn [fst snd session with_session with_message screen disk annotations file_tree
           scan_complete set_position set_annotations all_samples List.flat_map
           List.app].
      unfold samples_of. cbn [fst snd]. rewrite En. cbn [List.map List.app].
      assert (Hd' : displayed
                      (set_position
                         (set_annotations (session w)
                            (upsert (annotations (session w)) folder b tag notes "No"))
                         (Some next) 0)
                    = Some (next, b0)).
      { unfold displayed. cbn [current_folder current_img_idx file_tree set_position
                               set_annotations]. now rewrite Hget', En. }
      assert (Ha' : ahead
                      (set_position
                         (set_annotations (session w)
                            (upsert (annotations (session w)) folder b tag notes "No"))
                         (Some next) 0)
                    = (List.map (fun b1 => (next, b1)) names'
                       ++ List.flat_map samples_of R)%list).
      { unfold ahead. cbn [current_folder current_img_idx file_tree set_position
                           set_annotations]. rewrite Hget', En, Hrest'. reflexivity. }
      rewrite Hd', Ha'. now repeat split.
Qed.

Lemma last_cons {A : Type} (l : list A) (a d : A) :
  List.last (a :: l) d = List.last l a.
Proof.
  revert a d. induction l as [|x l IH]; intros a d; [reflexivity |].
  change (List.last (a :: x :: l) d) with (List.last (x :: l) d).
  now rewrite (IH x d), (IH x a).
Qed.

(** Pressing Save once for the sample on display and once for every sample
    ahead of it. *)
Lemma walk_from (L : list (string * string)) :
  forall (w : world) (d : string * string) (inputs : list (string * string)),
    scan_complete (session w) = true ->
    Sound (session w) ->
    List.NoDup (PyDict.keys (file_tree (session w))) ->
    displayed (session w) = Some d ->
    ahead (session w) = L ->
    List.length inputs = S (List.length L) ->
    annotations (session (run_all (presses inputs) w))
    = upserts (saved_rows (d :: L) inputs) (annotations (session w))
    /\ displayed (session (run_all (presses inputs) w)) = Some (List.last L d)
    /\ ahead (session (run_all (presses inputs) w)) = []
    /\ screen (run_all (presses inputs) w) = (screen w ++ [all_completed])%list
    /\ disk (run_all (presses inputs) w) = disk w
    /\ file_tree (session (run_all (presses inputs) w)) = file_tree (session w).
Proof.
  induction L as [|next more IH]; intros w d inputs Hscan Hs Hnd Hd Ha Hlen.
  - destruct inputs as [|[tag notes] [|? ?]]; try discriminate Hlen.
    destruct (press_step w tag notes Hscan Hs Hnd) as (d' & Hd' & Hstep).
    assert (d' = d) by congruence. subst d'. cbv zeta in Hstep. rewrite Ha in Hstep.
    destruct Hstep as (_ & Hann & Htree & _ & Hdisk & _ & Hdisp & Hah & Hscr).
    simpl. now repeat split.
  - destruct inputs as [|[tag notes] inputs]; [discriminate Hlen |].
    destruct (press_step w tag notes Hscan Hs Hnd) as (d' & Hd' & Hstep).
    assert (d' = d) by congruence. subst d'. cbv zeta in Hstep. rewrite Ha in Hstep.
    destruct Hstep as (_ & Hann & Htree & Hscan' & Hdisk & Hdisp & Hah & Hscr).
    pose proof (sound_run (SaveNext tag notes (Some None)) w Hs) as Hs'.
    change (run_all (presses ((tag, notes) :: inputs)) w)
      with (run_all (presses inputs) (fst (run (SaveNext tag notes (Some None)) w))).
    set (w1 := fst (run (SaveNext tag notes (Some None)) w)) in *.
    assert (Hnd' : List.NoDup (PyDict.keys (file_tree (session w1))))
      by now rewrite Htree.
    assert (Hlen' : List.length inputs = S (List.length more))
      by (simpl in Hlen; lia).
    destruct (IH w1 next inputs Hscan' Hs' Hnd' Hdisp Hah Hlen')
      as (Hann1 & Hdisp1 & Hah1 & Hscr1 & Hdisk1 & Htree1).
    rewrite Hann1, Hdisp1, Hah1, Hscr1, Hdisk1, Htree1, Hann, Hscr, Hdisk, Htree.
    rewrite (last_cons more next d). now repeat split.
Qed.

(** At the start of the first folder the sample on display and the
    samples ahead are all the samples of the tree. *)
Lemma start_of_tree (s : session_state) (k : string) (more : list string) :
  List.Forall (fun item => base_names (snd item) <> []) (file_tree s) ->
  PyDict.keys (file_tree s) = k :: more ->
  current_folder s = Some k ->
  current_img_idx s = 0 ->
  exists d, displayed s = Some d /\ d :: ahead s = all_samples (file_tree s).
Proof.
  intros Hall Hkeys Hcur Hidx.
  destruct (file_tree s) as [|[k' e] rest] eqn:Et; [discriminate Hkeys |].
  simpl in Hkeys. injection Hkeys as -> _.
  inversion Hall as [|? ? Hne _]; subst. simpl in Hne.
  destruct (base_names e) as [|b0 names] eqn:En; [congruence |].
  exists (k, b0). unfold displayed, ahead. rewrite Hcur, Hidx, Et. simpl.
  rewrite String.eqb_refl. rewrite En. simpl. split; [reflexivity |].
  unfold samples_of. simpl. now rewrite En.
Qed.

Lemma saved_rows_keys (samples inputs : list (string * string)) :
  List.length inputs = List.length samples ->
  List.map key (saved_rows samples inputs) = samples.
Proof.
  revert inputs. induction samples as [|[f b] samples IH]; intros [|i inputs] H;
    try discriminate H; [reflexivity |].
  unfold saved_rows in *. simpl. f_equal. apply IH. simpl in H. lia.
Qed.

(** Upserts of rows with distinct keys into an empty table give the rows. *)
Lemma upserts_distinct (rs : list annotation) :
  List.NoDup (List.map key rs) -> upserts rs [] = rs.
Proof.
  induction rs as [|r rs IH] using rev_ind; [reflexivity |].
  rewrite List.map_app. simpl. intros Hnd.
  assert (Hrs : List.NoDup (List.map key rs) /\ ~ In (key r) (List.map key rs)).
  { clear IH. induction (List.map key rs) as [|x l IHl]; simpl in *.
    - split; [constructor | tauto].
    - inversion Hnd as [|? ? Hx Hl]; subst. destruct (IHl Hl) as [H1 H2].
      split.
      + constructor; [| exact H1]. intros Hin. apply Hx, in_app_iff. now left.
      + intros [-> | Hin]; [| tauto]. apply Hx, in_app_iff. right. now left. }
  destruct Hrs as [Hnd' Hfresh].
  rewrite upserts_snoc, (IH Hnd'), (upsert_row_eq rs r Hnd'). f_equal.
  clear IH Hnd Hnd'. induction rs as [|x rs IHrs]; [reflexivity |]. simpl in *.
  destruct (same_key x r) eqn:E.
  - apply same_key_spec in E. tauto.
  - simpl. f_equal. apply IHrs. tauto.
Qed.

(** *** The shape of the tree in a session *)

Lemma advance_tree (w : world) (folder : string) :
  file_tree (session (fst (advance folder w))) = file_tree (session w).
Proof.
  unfold advance, bind, get_session, or_raise, ret, raise, put_session, show.
  simpl. destruct (PyDict.get _ folder) as [entry|]; simpl; [| reflexivity].
  destruct (_ <? _); simpl; [reflexivity |].
  destruct (PyList.index _ folder) as [i|]; simpl; [| reflexivity].
  destruct (_ <? _); simpl; [| reflexivity].
  destruct (PyList.getitem _ _); reflexivity.
Qed.

Lemma save_tree (w : world) (folder base_name tag notes : string)
    (mask_data : option Disk.pixels) :
  file_tree (session (fst (save_annotation_and_next folder base_name tag notes mask_data w)))
  = file_tree (session w).
Proof.
  pose (c := {| call_base := base_name; call_tag := tag; call_notes := notes;
                call_mask := mask_data |}).
  change (save_annotation_and_next folder base_name tag notes mask_data)
    with (save_call_run folder c).
  destruct (persist_mask_frame w folder (call_base c) (call_mask c)) as (d & Hfst & _).
  destruct (persist_mask folder (call_base c) (call_mask c) w) as [w1 [status | | e]]
    eqn:Hp; simpl in Hfst; subst w1.
  - rewrite (save_after_persist _ _ _ _ _ Hp).
    match goal with
    | |- context [advance folder ?w2] =>
        pose proof (advance_tree w2 folder) as Hadv;
        destruct (advance folder w2) as [w' [[] | | e]]
    end; exact Hadv.
  - unfold save_call_run, save_annotation_and_next, bind. now rewrite Hp.
  - now rewrite (save_persist_failed _ _ _ _ _ Hp).
Qed.

(** Only a scan changes the tree. *)
Lemma tree_run (a : action) (w : world) :
  file_tree (session (fst (run a w))) = file_tree (session w)
  \/ file_tree (session (fst (run a w)))
     = List.fold_left scan_step (os_walk w (DATA_DIR w)) [].
Proof.
  destruct a as [| f | | tag notes m | | d]; simpl.
  - unfold on_load_dataset, scan_png_directory, bind, get_world, show, put_session.
    destruct (negb _); [now left |].
    destruct (PyDict.keys _); [now left | now right].
  - left. unfold on_select_folder, bind, get_session, put_session, st_rerun, ret. simpl.
    destruct (_ && _); [| reflexivity]. now destruct (negb _).
  - left. unfold on_previous, bind, get_session, put_session, st_rerun, ret. simpl.
    destruct (scan_complete (session w)); [| reflexivity].
    pose proof (render_frame w) as Hf.
    destruct (render w) as [w1 [v | | e]]; simpl in *; subst w1; try reflexivity.
    now destruct (negb _).
  - left. unfold on_save_next, bind, get_session. simpl.
    destruct (scan_complete (session w)); [| reflexivity].
    pose proof (render_frame w) as Hf.
    destruct (render w) as [w1 [v | | e]]; simpl in *; subst w1; try reflexivity.
    unfold or_raise, ret, raise. destruct m as [image_data|]; simpl; [| reflexivity].
    apply save_tree.
  - left. unfold on_export, bind, get_session, ret. simpl.
    destruct (_ && _); [| reflexivity].
    pose proof (create_export_zip_frame w) as Hf.
    destruct (create_export_zip w) as [w1 [a | | e]]; simpl in *; now subst w1.
  - now left.
Qed.

Lemma tidy_scanned (walked : list (string * list string * list string)) :
  List.NoDup (PyDict.keys (List.fold_left scan_step walked []))
  /\ List.Forall (fun item => base_names (snd item) <> []
                              /\ StronglySorted String.le (base_names (snd item)))
       (List.fold_left scan_step walked []).
Proof.
  split.
  - apply scan_loop_keys_NoDup. constructor.
  - apply scan_loop_Forall; [apply registered_tidy | constructor].
Qed.

Lemma tidy_run (a : action) (w : world) :
  Tidy (session w) -> Tidy (session (fst (run a w))).
Proof.
  intros Ht. unfold Tidy. destruct (tree_run a w) as [-> | ->];
    [exact Ht | apply tidy_scanned].
Qed.

Lemma tidy_run_all (acts : list action) (w : world) :
  Tidy (session w) -> Tidy (session (run_all acts w)).
Proof.
  revert w. induction acts as [|a acts IH]; intros w Ht; simpl; [exact Ht |].
  apply IH, tidy_run, Ht.
Qed.

Lemma tidy_initial : Tidy initial_state.
Proof. split; constructor. Qed.

(** A scan that finds something leaves a sound session, whatever the
    session was. *)
Lemma sound_scan_found (w : world) (root_path : string) first rest :
  os_path_exists w root_path = true ->
  qualifying (os_walk w root_path) = first :: rest ->
  Sound (session (fst (scan_png_directory root_path w))).
Proof.
  intros Hex Hq. rewrite (scan_found w root_path first rest Hex Hq).
  cbn [fst session with_session].
  set (tree := List.fold_left scan_step (os_walk w root_path) []).
  assert (Hall : List.Forall (fun item => base_names (snd item) <> []) tree)
    by (apply scan_loop_nonempty; constructor).
  split; [exact Hall |]. intros _.
  destruct (scan_loop_first _ _ _ Hq) as [more Hkeys]. fold tree in Hkeys.
  assert (Hin : In (leaf_of first) (PyDict.keys tree)) by (rewrite Hkeys; now left).
  destruct (In_keys_get _ _ Hin) as [entry Hget].
  exists (leaf_of first), entry. repeat split; simpl; try assumption; try lia.
  exact (entry_nonempty {| scan_complete := true; file_tree := tree;
                           annotations := []; current_folder := None;
                           current_img_idx := 0 |} _ _ Hall Hget).
Qed.

End Buttons.

(** X6. In every session reached from the start of the app by user
    actions and changes of the disk, loaded or not, rescanned or not, the
    folder keys of the tree are distinct, and every folder of the tree has
    a list of base names that is not empty and is sorted. *)
Theorem reachable_tree_is_tidy (dir : string) (d : Disk.node) (acts : list App.action) :
  let s := App.session (App.run_all acts (App.start dir d)) in
  List.NoDup (PyDict.keys (App.file_tree s))
  /\ forall folder entry,
       PyDict.get (App.file_tree s) folder = Some entry ->
       App.base_names entry <> []
       /\ StronglySorted String.le (App.base_names entry).
Proof.
  intros s. destruct (tidy_run_all acts (App.start dir d) tidy_initial) as [Hnd Hall].
  split; [exact Hnd |]. intros folder entry Hget. apply get_In in Hget.
  rewrite List.Forall_forall in Hall. exact (Hall _ Hget).
Qed.

(** X7. Working through what is left: in a reachable session with a
    dataset loaded, pressing Save & Next with an empty canvas once for the
    sample on display and once for every sample ahead of it upserts, in
    navigation order, one row per sample with the tag and notes entered
    for it and mask status No; the session ends on the last sample of the
    last folder with nothing ahead, the completion message is shown once,
    at the end, and the disk is not touched. *)
Theorem save_through_to_the_end (dir : string) (d : Disk.node)
    (acts : list App.action) (inputs : list (string * string)) :
  let w := App.run_all acts (App.start dir d) in
  App.scan_complete (App.session w) = true ->
  List.length inputs = S (List.length (Page.ahead (App.session w))) ->
  exists shown,
    Page.displayed (App.session w) = Some shown
    /\ (let w' := App.run_all (Page.presses inputs) w in
        App.annotations (App.session w')
        = App.upserts (Page.saved_rows (shown :: Page.ahead (App.session w)) inputs)
            (App.annotations (App.session w))
        /\ Page.displayed (App.session w')
           = Some (List.last (Page.ahead (App.session w)) shown)
        /\ Page.ahead (App.session w') = []
        /\ App.screen w' = (App.screen w ++ [App.all_completed])%list
        /\ App.disk w' = App.disk w).
Proof.
  intros w Hscan Hlen.
  assert (Hs : App.Sound (App.session w))
    by (apply sound_run_all, sound_initial).
  destruct (tidy_run_all acts (App.start dir d) tidy_initial) as [Hnd _].
  fold w in Hnd.
  destruct (press_step w "" "" Hscan Hs Hnd) as (shown & Hshown & _).
  exists shown. split; [exact Hshown |]. cbv zeta.
  destruct (walk_from (Page.ahead (App.session w)) w shown inputs Hscan Hs Hnd Hshown
              eq_refl Hlen) as (H1 & H2 & H3 & H4 & H5 & _).
  now repeat split.
Qed.

Lemma save_through_to_the_end_witness :
  exists shown,
    Page.displayed (App.session Sample.annotated) = Some shown
    /\ (let w' := App.run_all (Page.presses [("Benign", "a"); ("Keep", "b")])
                    Sample.annotated in
        App.annotations (App.session w')
        = App.upserts
            (Page.saved_rows (shown :: Page.ahead (App.session Sample.annotated))
               [("Benign", "a"); ("Keep", "b")])
            (App.annotations (App.session Sample.annotated))
        /\ Page.displayed (App.session w')
           = Some (List.last (Page.ahead (App.session Sample.annotated)) shown)
        /\ Page.ahead (App.session w') = []
        /\ App.screen w' = (App.screen Sample.annotated ++ [App.all_completed])%list
        /\ App.disk w' = App.disk Sample.annotated).
Proof.
  exact (save_through_to_the_end "/w" Sample.dataset
           [App.LoadDataset; App.SaveNext "Keep" "ok" (Some (Some Sample.one_pixel))]
           [("Benign", "a"); ("Keep", "b")] eq_refl eq_refl).
Defined.

(** X8. Annotating a whole dataset: Load Dataset on a disk where the scan
    finds something, then one Save & Next with an empty canvas per sample
    of the scanned tree, upserts one row per sample in tree order (folders
    in key order, base names in list order) with the tag and notes entered
    for it; when the table was empty and no sample occurs twice the table
    is exactly these rows, in this order; the session ends on the last
    sample, the completion message is the one message added to the
    screen, and the disk is not touched. *)
Theorem annotate_whole_dataset (w : App.world) (inputs : list (string * string)) :
  App.os_path_exists w (App.DATA_DIR w) = true ->
  List.existsb App.has_raw (App.os_walk w (App.DATA_DIR w)) = true ->
  let tree := List.fold_left App.scan_step (App.os_walk w (App.DATA_DIR w)) [] in
  List.length inputs = List.length (Page.all_samples tree) ->
  let w' := App.run_all (App.LoadDataset :: Page.presses inputs) w in
  App.file_tree (App.session w') = tree
  /\ App.annotations (App.session w')
     = App.upserts (Page.saved_rows (Page.all_samples tree) inputs)
         (App.annotations (App.session w))
  /\ (App.annotations (App.session w) = [] ->
      List.NoDup (Page.all_samples tree) ->
      App.annotations (App.session w') = Page.saved_rows (Page.all_samples tree) inputs)
  /\ (exists front final,
        Page.all_samples tree = (front ++ [final])%list
        /\ Page.displayed (App.session w') = Some final)
  /\ App.screen w' = (App.screen w ++ [App.all_completed])%list
  /\ App.disk w' = App.disk w.
Proof.
  intros Hex Hraw tree Hlen w'.
  destruct (App.qualifying (App.os_walk w (App.DATA_DIR w))) as [|first rest] eqn:Hq.
  { apply filter_nil_existsb in Hq. congruence. }
  pose proof (sound_scan_found w _ first rest Hex Hq) as Hs.
  pose proof (scan_found w _ first rest Hex Hq) as Hscan.
  destruct (scan_loop_first _ _ _ Hq) as [more Hkeys]. fold tree in Hkeys, Hscan.
  subst w'. change (App.run_all (App.LoadDataset :: Page.presses inputs) w)
    with (App.run_all (Page.presses inputs) (fst (App.on_load_dataset w))).
  unfold App.on_load_dataset, App.bind, App.get_world in *.
  cbn [fst snd] in *. rewrite Hscan in *. cbn [fst] in *.
  set (w1 := App.with_session w _) in *.
  assert (Ht : App.file_tree (App.session w1) = tree) by reflexivity.
  destruct (tidy_scanned (App.os_walk w (App.DATA_DIR w))) as [Hnd _]. fold tree in Hnd.
  destruct (start_of_tree (App.session w1) (Page.leaf_of first) more (proj1 Hs) Hkeys
              eq_refl eq_refl) as (shown & Hshown & Hall).
  rewrite Ht in Hall.
  assert (Hlen' : List.length inputs = S (List.length (Page.ahead (App.session w1))))
    by (rewrite Hlen, <- Hall; reflexivity).
  destruct (walk_from (Page.ahead (App.session w1)) w1 shown inputs eq_refl Hs Hnd Hshown
              eq_refl Hlen') as (H1 & H2 & H3 & H4 & H5 & H6).
  rewrite Hall in H1. split; [now rewrite H6 |]. split; [exact H1 |].
  split; [| split; [| now split]].
  - intros Hempty Hdistinct. rewrite H1. change (App.annotations (App.session w1))
      with (App.annotations (App.session w)). rewrite Hempty.
    apply upserts_distinct. now rewrite saved_rows_keys.
  - exists (List.removelast (shown :: Page.ahead (App.session w1))),
      (List.last (Page.ahead (App.session w1)) shown).
    split; [| exact H2]. rewrite <- Hall, <- (last_cons _ shown shown).
    apply app_removelast_last. discriminate.
Qed.

Lemma annotate_whole_dataset_witness :
  let w' := App.run_all
              (App.LoadDataset
               :: Page.presses [("Keep", "ok"); ("Benign", ""); ("Discard", "blurred")])
              Sample.fresh in
  App.annotations (App.session w')
  = [{| App.Folder := "A"; App.Base_Filename := "s1"; App.Tag := "Keep";
        App.Mask_Saved := "No"; App.Notes := "ok" |};
     {| App.Folder := "B"; App.Base_Filename := "t1"; App.Tag := "Benign";
        App.Mask_Saved := "No"; App.Notes := "" |};
     {| App.Folder := "B"; App.Base_Filename := "t2"; App.Tag := "Discard";
        App.Mask_Saved := "No"; App.Notes := "blurred" |}]
  /\ App.screen w' = [App.all_completed]
  /\ App.disk w' = Sample.dataset.
Proof.
  intros w'.
  assert (Hnd : List.NoDup [("A", "s1"); ("B", "t1"); ("B", "t2")]).
  { repeat constructor; simpl; intros H; decompose [or] H; congruence. }
  destruct (annotate_whole_dataset Sample.fresh
              [("Keep", "ok"); ("Benign", ""); ("Discard", "blurred")]
              eq_refl eq_refl eq_refl)
    as (_ & _ & Hrows & _ & Hscreen & Hdisk).
  exact (conj (Hrows eq_refl Hnd) (conj Hscreen Hdisk)).
Defined.

(** X9. The Previous button in a Browsing state: at index 0 it does
    nothing, also when an earlier folder exists (it never crosses into
    another folder and never takes the index below 0); at a later index
    it steps back by one inside the folder, changes nothing else and
    reruns, and a Save & Next from there comes back to where it was. *)
Theorem previous_stays_in_folder (w : App.world) (folder : string)
    (entry : App.folder_entry) :
  App.Browsing (App.session w) folder entry ->
  let idx := App.current_img_idx (App.session w) in
  (idx = 0%Z -> App.run App.Previous w = (w, App.Done tt))
  /\ ((0 < idx)%Z ->
      App.run App.Previous w
      = (App.with_session w (App.set_position (App.session w) (Some folder) (idx - 1)),
         App.Rerun)
      /\ forall tag notes,
           App.position
             (App.session
                (App.run_all [App.Previous; App.SaveNext tag notes (Some None)] w))
           = (Some folder, idx)).
Proof.
  intros Hb idx. pose proof (previous_eq w folder entry Hb) as Hprev. fold idx in Hprev.
  split.
  - intros H0. rewrite Hprev, H0. reflexivity.
  - intros Hpos. destruct (Z.eqb_spec idx 0) as [? | _]; [lia |].
    split; [exact Hprev |]. intros tag notes.
    change (App.run_all [App.Previous; App.SaveNext tag notes (Some None)] w)
      with (fst (App.run (App.SaveNext tag notes (Some None))
                   (fst (App.run App.Previous w)))).
    rewrite Hprev. cbn [fst].
    set (w1 := App.with_session w _).
    destruct Hb as (Hscan & Hcur & Hget & Hrange). fold idx in Hrange.
    assert (Hb1 : App.Browsing (App.session w1) folder entry)
      by (repeat split; simpl; try assumption; lia).
    destruct (browsing_keys _ _ _ Hb1) as (pre & post & Hkeys & Hpre).
    destruct (render_browsing w1 folder entry Hb1) as (b & Hbase & _).
    rewrite (press_eq w1 folder b tag notes entry pre post Hb1 Hkeys Hpre Hbase).
    cbn [fst]. unfold Page.after_save.
    change (App.current_img_idx (App.session w1)) with (idx - 1)%Z.
    destruct (Z.ltb_spec (idx - 1) (Z.of_nat (List.length (App.base_names entry)) - 1));
      [| lia].
    unfold App.position. simpl. f_equal. lia.
Qed.

Lemma previous_stays_in_folder_witness :
  App.run App.Previous Sample.loaded = (Sample.loaded, App.Done tt)
  /\ App.position
       (App.session
          (App.run_all [App.Previous; App.SaveNext "Keep" "" (Some None)] Sample.at_end))
     = (Some "B", 1%Z).
Proof.
  assert (Ha : App.Browsing (App.session Sample.loaded) "A"
                 {| App.path := "/w/_precomputed_data/A"; App.base_names := ["s1"] |}).
  { split; [reflexivity |]. split; [reflexivity |]. split; [reflexivity |].
    split; [discriminate | reflexivity]. }
  assert (Hb : App.Browsing (App.session Sample.at_end) "B"
                 {| App.path := "/w/_precomputed_data/B"; App.base_names := ["t1"; "t2"] |}).
  { split; [reflexivity |]. split; [reflexivity |]. split; [reflexivity |].
    split; [discriminate | reflexivity]. }
  exact (conj (proj1 (previous_stays_in_folder Sample.loaded "A" _ Ha) eq_refl)
              (proj2 (proj2 (previous_stays_in_folder Sample.at_end "B" _ Hb) eq_refl)
                 "Keep" "")).
Defined.

(** X10. Save & Next followed by Previous. Inside a folder the pair comes
    back to the sample that was saved, and the form is then prefilled
    from the row just written: marked as previously tagged, with the
    notes entered and, for a tag of the radio, that tag selected. From
    the last sample of a folder that is not the last one the pair does
    not come back: Save & Next enters the next folder at index 0, where
    Previous does nothing. *)
Theorem save_then_previous (w : App.world) (folder base_name tag notes : string)
    (entry : App.folder_entry) (pre post : list string) :
  App.Browsing (App.session w) folder entry ->
  PyDict.keys (App.file_tree (App.session w)) = (pre ++ folder :: post)%list ->
  ~ In folder pre ->
  PyList.getitem (App.base_names entry) (App.current_img_idx (App.session w))
  = Some base_name ->
  let idx := App.current_img_idx (App.session w) in
  let w' := App.run_all [App.SaveNext tag notes (Some None); App.Previous] w in
  ((idx < Z.of_nat (List.length (App.base_names entry)) - 1)%Z ->
   App.position (App.session w') = (Some folder, idx)
   /\ Page.displayed (App.session w') = Some (folder, base_name)
   /\ App.previously_tagged
        (App.metadata_prefill (App.annotations (App.session w')) folder base_name) = true
   /\ App.notes_value
        (App.metadata_prefill (App.annotations (App.session w')) folder base_name) = notes
   /\ (In tag App.tag_options ->
       App.selected_tag
         (App.metadata_prefill (App.annotations (App.session w')) folder base_name)
       = Some tag))
  /\ (idx = (Z.of_nat (List.length (App.base_names entry)) - 1)%Z ->
      forall next later, post = next :: later ->
        App.position (App.session w') = (Some next, 0%Z)).
Proof.
  intros Hb Hkeys Hpre Hbase idx w'. subst w'.
  change (App.run_all [App.SaveNext tag notes (Some None); App.Previous] w)
    with (fst (App.run App.Previous
                 (fst (App.run (App.SaveNext tag notes (Some None)) w)))).
  rewrite (press_eq w folder base_name tag notes entry pre post Hb Hkeys Hpre Hbase).
  cbn [fst]. unfold Page.after_save. fold idx.
  pose proof Hb as (Hscan & Hcur & Hget & Hrange). fold idx in Hrange.
  split.
  - intros Hlt. destruct (Z.ltb_spec idx (Z.of_nat (List.length (App.base_names entry)) - 1));
      [| lia].
    set (w1 := App.with_session w _).
    assert (Hb1 : App.Browsing (App.session w1) folder entry)
      by (repeat split; simpl; try assumption; lia).
    rewrite (previous_eq w1 folder entry Hb1).
    change (App.current_img_idx (App.session w1)) with (idx + 1)%Z.
    destruct (Z.eqb_spec (idx + 1) 0); [lia |]. cbn [fst].
    replace (idx + 1 - 1)%Z with idx by lia.
    split; [reflexivity |]. split.
    + subst idx. unfold Page.displayed. simpl. now rewrite Hget, Hbase.
    + cbn [App.session App.with_session App.annotations App.set_position
           App.set_annotations].
      pose proof (prefill_found
                    (App.upsert (App.annotations (App.session w)) folder base_name
                       tag notes "No") folder base_name _ []
                    (lookup_after_upsert _ folder base_name tag notes "No"))
        as (H1 & H2 & H3).
      exact (conj H1 (conj H2 H3)).
  - intros Hlast next later ->.
    destruct (Z.ltb_spec idx (Z.of_nat (List.length (App.base_names entry)) - 1));
      [lia |].
    set (w1 := App.with_session w _).
    assert (Hin : In next (PyDict.keys (App.file_tree (App.session w))))
      by (rewrite Hkeys; apply in_or_app; right; right; now left).
    destruct (In_keys_get _ _ Hin) as [entry' Hget'].
    assert (Hs1 : App.scan_complete (App.session w1) = true) by exact Hscan.
    assert (Hi1 : App.current_img_idx (App.session w1) = 0%Z) by reflexivity.
    assert (Hc1 : App.current_folder (App.session w1) = Some next) by reflexivity.
    clearbody w1.
    unfold App.run, App.on_previous, App.bind, App.get_session. cbn [fst snd].
    rewrite Hs1.
    pose proof (render_frame w1) as Hf. pose proof (render_done w1) as Hd.
    destruct (App.render w1) as [w2 [v | | e]]; cbn [fst snd] in *; subst w2.
    + destruct (Hd v eq_refl) as [_ Hidx]. rewrite Hidx, Hi1.
      change (negb (0 =? 0)%Z) with false. cbv iota. unfold App.ret. cbn [fst].
      unfold App.position. now rewrite Hc1, Hi1.
    + unfold App.position. now rewrite Hc1, Hi1.
    + unfold App.position. now rewrite Hc1, Hi1.
Qed.

Lemma save_then_previous_witness :
  let w := App.run_all [App.LoadDataset; App.SelectFolder "B"] Sample.fresh in
  let w' := App.run_all [App.SaveNext "Benign" "dark" (Some None); App.Previous] w in
  App.position (App.session w') = (Some "B", 0%Z)
  /\ Page.displayed (App.session w') = Some ("B", "t1")
  /\ App.notes_value (App.metadata_prefill (App.annotations (App.session w')) "B" "t1")
     = "dark"
  /\ App.position
       (App.session
          (App.run_all [App.SaveNext "Keep" "" (Some None); App.Previous] Sample.loaded))
     = (Some "B", 0%Z).
Proof.
  intros w w'.
  assert (Hb : App.Browsing (App.session w) "B"
                 {| App.path := "/w/_precomputed_data/B"; App.base_names := ["t1"; "t2"] |}).
  { split; [reflexivity |]. split; [reflexivity |]. split; [reflexivity |].
    split; [discriminate | reflexivity]. }
  assert (Ha : App.Browsing (App.session Sample.loaded) "A"
                 {| App.path := "/w/_precomputed_data/A"; App.base_names := ["s1"] |}).
  { split; [reflexivity |]. split; [reflexivity |]. split; [reflexivity |].
    split; [discriminate | reflexivity]. }
  assert (Hpre : ~ In "B" ["A"]) by (intros [H | []]; discriminate H).
  assert (Hnil : ~ In "A" (@nil string)) by (intros []).
  destruct (proj1 (save_then_previous w "B" "t1" "Benign" "dark" _ ["A"] [] Hb eq_refl
                     Hpre eq_refl) eq_refl) as (H1 & H2 & _ & H4 & _).
  exact (conj H1 (conj H2 (conj H4
           (proj2 (save_then_previous Sample.loaded "A" "s1" "Keep" "" _ [] ["B"] Ha
                     eq_refl Hnil eq_refl) eq_refl "B" [] eq_refl)))).
Defined.

(** X11. The folder selectbox in a reachable session with a dataset
    loaded: choosing a folder of the tree other than the current one
    reruns with that folder's first base name on display, and leaves the
    table, the tree, the screen and the disk as they were; choosing the
    current folder changes nothing, so the index is not reset. *)
Theorem select_folder_shows_first_sample (dir : string) (d : Disk.node)
    (acts : list App.action) (selected : string) (entry : App.folder_entry) :
  let w := App.run_all acts (App.start dir d) in
  App.scan_complete (App.session w) = true ->
  PyDict.get (App.file_tree (App.session w)) selected = Some entry ->
  (App.current_folder (App.session w) = Some selected ->
   App.run (App.SelectFolder selected) w = (w, App.Done tt))
  /\ (App.current_folder (App.session w) <> Some selected ->
      exists first,
        List.nth_error (App.base_names entry) 0 = Some first
        /\ App.run (App.SelectFolder selected) w
           = (App.with_session w (App.set_position (App.session w) (Some selected) 0),
              App.Rerun)
        /\ Page.displayed (App.session (fst (App.run (App.SelectFolder selected) w)))
           = Some (selected, first)).
Proof.
  intros w Hscan Hget.
  assert (Hin : PyList.contains (PyDict.keys (App.file_tree (App.session w))) selected
                = true)
    by (apply contains_In; now apply get_In, (in_map fst) in Hget).
  assert (Hrun : App.run (App.SelectFolder selected) w
                 = if negb (bool_decide (App.current_folder (App.session w) = Some selected))
                   then (App.with_session w
                           (App.set_position (App.session w) (Some selected) 0),
                         App.Rerun)
                   else (w, App.Done tt)).
  { unfold App.run, App.on_select_folder, App.bind, App.get_session. cbn [fst snd].
    rewrite Hscan, Hin. cbn [andb]. now destruct (negb _). }
  split.
  - intros Hcur. rewrite Hrun, (bool_decide_eq_true_2 _ Hcur). reflexivity.
  - intros Hcur. rewrite Hrun, (bool_decide_eq_false_2 _ Hcur). cbn [negb fst].
    assert (Hs : App.Sound (App.session w)) by (apply sound_run_all, sound_initial).
    pose proof (entry_nonempty _ _ _ (proj1 Hs) Hget) as Hlen.
    destruct (App.base_names entry) as [|first names] eqn:En; [simpl in Hlen; lia |].
    exists first. split; [reflexivity |]. split; [reflexivity |].
    unfold Page.displayed. simpl. now rewrite Hget, En.
Qed.

Lemma select_folder_shows_first_sample_witness :
  exists first,
    List.nth_error ["t1"; "t2"] 0 = Some first
    /\ App.run (App.SelectFolder "B") Sample.loaded
       = (App.with_session Sample.loaded
            (App.set_position (App.session Sample.loaded) (Some "B") 0), App.Rerun)
    /\ Page.displayed (App.session (fst (App.run (App.SelectFolder "B") Sample.loaded)))
       = Some ("B", first).
Proof.
  assert (Hcur : App.current_folder (App.session Sample.loaded) <> Some "B")
    by (vm_compute; discriminate).
  exact (proj2 (select_folder_shows_first_sample "/w" Sample.dataset [App.LoadDataset] "B"
                  {| App.path := "/w/_precomputed_data/B";
                     App.base_names := ["t1"; "t2"] |} eq_refl eq_refl) Hcur).
Defined.

(* ===================================================================== *)
(** * More on masks: saving a sample again *)
(* ===================================================================== *)

Section MaskAgain.
Import App.

Lemma mask_places_cwd (w w1 : world) (folder base_name : string) :
  cwd w1 = cwd w ->
  mask_dir w1 folder = mask_dir w folder
  /\ mask_path w1 folder base_name = mask_path w folder base_name.
Proof. intros H. unfold mask_dir, mask_path, MASKS_DIR. now rewrite H. Qed.

(** A Save with a mask, on a disk that can take it. *)
Lemma save_with_mask (w : world) (folder base_name tag notes : string)
    (px : Disk.pixels) :
  PosixPath.isabs (cwd w) = true ->
  Disk.valid_name (base_name +:+ "_mask.png") = true ->
  Disk.dirs_free (disk w) (mask_dir w folder) = true ->
  Disk.not_a_dir (disk w)
    (PosixPath.components (cwd w) (mask_path w folder base_name)) = true ->
  let w1 := fst (save_annotation_and_next folder base_name tag notes (Some px) w) in
  let target := PosixPath.components (cwd w) (mask_path w folder base_name) in
  cwd w1 = cwd w
  /\ annotations (session w1)
     = upsert (annotations (session w)) folder base_name tag notes "Yes"
  /\ Disk.read_file (disk w1) target = Some (Disk.PngRGBA (astype_uint8 px))
  /\ (forall q, q <> target -> Disk.read_file (disk w1) q = Disk.read_file (disk w) q)
  /\ Disk.dirs_free (disk w1) (mask_dir w folder) = true
  /\ Disk.not_a_dir (disk w1) target = true.
Proof.
  intros Habs Hname Hfree Hnd w1 target.
  destruct (persist_mask_some w folder base_name px Habs Hname Hfree Hnd)
    as (d' & Hp & Hsame & Hother & Hfree' & Hnd').
  pose (c := {| call_base := base_name; call_tag := tag; call_notes := notes;
                call_mask := Some px |}).
  destruct (save_records w (with_disk w d') folder c "Yes" Hp) as (Hc & Hd & Ha).
  change (save_call_run folder c w) with
    (save_annotation_and_next folder base_name tag notes (Some px) w) in Hc, Hd, Ha.
  fold w1 in Hc, Hd, Ha. simpl in Hd.
  split; [exact Hc |]. split; [exact Ha |]. rewrite Hd.
  split; [exact Hsame |]. split; [exact Hother |]. split; [exact Hfree' |].
  subst target. rewrite (mask_path_components w folder base_name Habs Hname) in *.
  now apply Hnd'.
Qed.

End MaskAgain.

(** X12. Saving a sample a second time, after a save that wrote its mask.
    With a mask drawn again the mask file holds the new image; with an
    empty canvas the old mask file stays on disk as it was although the
    row of the sample now says [No]. In both cases the table has one row
    for the sample, with the tag and notes of the second save, and no
    other file is created or changed by the two saves. *)
Theorem save_again_keeps_or_replaces_mask (w : App.world)
    (folder base_name tag notes tag' notes' : string)
    (px : Disk.pixels) (again : option Disk.pixels) :
  PosixPath.isabs (App.cwd w) = true ->
  Disk.valid_name (base_name +:+ "_mask.png") = true ->
  Disk.dirs_free (App.disk w) (App.mask_dir w folder) = true ->
  Disk.not_a_dir (App.disk w)
    (PosixPath.components (App.cwd w) (App.mask_path w folder base_name)) = true ->
  let w1 := fst (App.save_annotation_and_next folder base_name tag notes (Some px) w) in
  let w2 := fst (App.save_annotation_and_next folder base_name tag' notes' again w1) in
  let target := PosixPath.components (App.cwd w) (App.mask_path w folder base_name) in
  Disk.read_file (App.disk w2) target
  = Some (Disk.PngRGBA (App.astype_uint8 (match again with
                                           | Some px' => px'
                                           | None => px
                                           end)))
  /\ App.lookup (App.annotations (App.session w2)) folder base_name
     = [{| App.Folder := folder; App.Base_Filename := base_name; App.Tag := tag';
           App.Mask_Saved := match again with Some _ => "Yes" | None => "No" end;
           App.Notes := notes' |}]
  /\ (forall q, q <> target ->
                Disk.read_file (App.disk w2) q = Disk.read_file (App.disk w) q).
Proof.
  intros Habs Hname Hfree Hnd w1 w2 target.
  destruct (save_with_mask w folder base_name tag notes px Habs Hname Hfree Hnd)
    as (Hc1 & Ha1 & Hread1 & Hother1 & Hfree1 & Hnd1).
  fold w1 in Hc1, Ha1, Hread1, Hother1, Hfree1, Hnd1. fold target in Hread1, Hother1, Hnd1.
  destruct (mask_places_cwd w w1 folder base_name Hc1) as [Hdir Hpath].
  destruct again as [px'|].
  - assert (Habs1 : PosixPath.isabs (App.cwd w1) = true) by now rewrite Hc1.
    assert (Hfree1' : Disk.dirs_free (App.disk w1) (App.mask_dir w1 folder) = true)
      by now rewrite Hdir.
    assert (Hnd1' : Disk.not_a_dir (App.disk w1)
                      (PosixPath.components (App.cwd w1)
                         (App.mask_path w1 folder base_name)) = true)
      by now rewrite Hc1, Hpath.
    destruct (save_with_mask w1 folder base_name tag' notes' px' Habs1 Hname Hfree1' Hnd1')
      as (_ & Ha2 & Hread2 & Hother2 & _).
    fold w2 in Ha2, Hread2, Hother2. rewrite Hc1, Hpath in Hread2, Hother2.
    fold target in Hread2, Hother2.
    split; [exact Hread2 |]. split.
    + rewrite Ha2. apply lookup_after_upsert.
    + intros q Hq. now rewrite (Hother2 q Hq), (Hother1 q Hq).
  - pose (c := {| App.call_base := base_name; App.call_tag := tag';
                  App.call_notes := notes'; App.call_mask := None |}).
    destruct (save_records w1 w1 folder c "No" eq_refl) as (_ & Hd2 & Ha2).
    change (App.save_call_run folder c w1) with
      (App.save_annotation_and_next folder base_name tag' notes' None w1) in Hd2, Ha2.
    fold w2 in Hd2, Ha2. rewrite Hd2.
    split; [exact Hread1 |]. split.
    + rewrite Ha2. apply lookup_after_upsert.
    + exact Hother1.
Qed.

Lemma save_again_keeps_or_replaces_mask_witness :
  let w1 := fst (App.save_annotation_and_next "A" "s1" "Keep" "ok"
                   (Some Sample.one_pixel) Sample.loaded) in
  let w2 := fst (App.save_annotation_and_next "A" "s1" "Discard" "" None w1) in
  Disk.read_file (App.disk w2) ["w"; "_masks"; "A"; "s1_mask.png"]
  = Some (Disk.PngRGBA Sample.one_pixel)
  /\ App.lookup (App.annotations (App.session w2)) "A" "s1"
     = [{| App.Folder := "A"; App.Base_Filename := "s1"; App.Tag := "Discard";
           App.Mask_Saved := "No"; App.Notes := "" |}].
Proof.
  intros w1 w2.
  destruct (save_again_keeps_or_replaces_mask Sample.loaded "A" "s1" "Keep" "ok"
              "Discard" "" Sample.one_pixel None eq_refl eq_refl eq_refl eq_refl)
    as (Hread & Hrow & _).
  exact (conj Hread Hrow).
Defined.

(* ===================================================================== *)
(** * The canvas and the Save button *)
(* ===================================================================== *)

Section Canvas.
Import App Page.

Lemma render_with_message (w : world) (m : message) :
  render (with_message w m)
  = (with_message (fst (render w)) m, snd (render w)).
Proof.
  unfold render, bind, get_session, or_raise, ret, raise. simpl.
  destruct (current_folder (session w)) as [folder|]; simpl; [| reflexivity].
  destruct (PyDict.get _ folder) as [entry|]; simpl; [| reflexivity].
  destruct (PyList.getitem _ _); reflexivity.
Qed.

(** The script run up to the canvas, in a Browsing state. *)
Lemma press_save_eq (w : world) (folder base_name : string) (entry : folder_entry)
    (m : view_mode) (decodes : bool) (why : string) (image_data : option Disk.pixels)
    (tag notes : string) :
  Browsing (session w) folder entry ->
  PyList.getitem (base_names entry) (current_img_idx (session w)) = Some base_name ->
  press_save m decodes why image_data tag notes w
  = match canvas w (bg_image_path (path entry) base_name m) decodes image_data with
    | Some data => on_save_next tag notes (Some data) w
    | None => on_save_next tag notes None (with_message w (layer_error why))
    end.
Proof.
  intros Hb Hbase. destruct (render_browsing w folder entry Hb) as (b & Hb' & Hrender).
  assert (b = base_name) by congruence. subst b.
  destruct Hb as (Hscan & _ & Hget & _).
  unfold press_save, bind, get_world. cbn [fst snd]. rewrite Hscan, Hrender.
  cbn [view_folder view_current_base]. unfold or_raise at 1. rewrite Hget.
  unfold ret at 1. cbn [fst snd].
  destruct (canvas w _ decodes image_data); [reflexivity |].
  unfold show. reflexivity.
Qed.

End Canvas.

(** X13. The Save button when the background layer cannot be opened. In a
    Browsing state, if the file of the chosen layer of the sample on
    display is not on disk (the scan only looks for [_raw.png], the
    default layer is [_norm.png]), the run shows the layer error and the
    press then fails on the unbound canvas result: nothing is written, no
    row is added and the position stays. When the file is there and the
    canvas is built, the press is a Save & Next with what the canvas
    returns. *)
Theorem save_needs_the_layer (w : App.world) (folder base_name : string)
    (entry : App.folder_entry) (m : Page.view_mode) (decodes : bool) (why : string)
    (image_data : option Disk.pixels) (tag notes : string) :
  App.Browsing (App.session w) folder entry ->
  PyList.getitem (App.base_names entry) (App.current_img_idx (App.session w))
  = Some base_name ->
  let layer := PosixPath.components (App.cwd w)
                 (PosixPath.join (App.path entry) (Page.view_map base_name m)) in
  (Disk.read_file (App.disk w) layer = None ->
   Page.press_save m decodes why image_data tag notes w
   = (App.with_message w (Page.layer_error why), App.Raised App.NameError))
  /\ (Disk.read_file (App.disk w) layer <> None -> decodes = true ->
      Page.press_save m decodes why image_data tag notes w
      = App.save_annotation_and_next folder base_name tag notes image_data w).
Proof.
  intros Hb Hbase layer.
  rewrite (press_save_eq w folder base_name entry m decodes why image_data tag notes
             Hb Hbase).
  unfold Page.canvas, Page.bg_image_path. fold layer.
  destruct (render_browsing w folder entry Hb) as (b & Hb' & Hrender).
  assert (b = base_name) by congruence. subst b.
  pose proof Hb as (Hscan & _).
  split.
  - intros Hnone. rewrite Hnone.
    unfold App.on_save_next, App.bind, App.get_session. cbn [fst snd].
    change (App.session (App.with_message w (Page.layer_error why)))
      with (App.session w).
    rewrite Hscan, render_with_message, Hrender. reflexivity.
  - intros Hsome ->. destruct (Disk.read_file (App.disk w) layer); [| congruence].
    unfold App.on_save_next, App.bind, App.get_session. cbn [fst snd].
    rewrite Hscan, Hrender. cbn [App.or_raise App.ret fst snd].
    now destruct image_data.
Qed.

Lemma save_needs_the_layer_witness :
  let w := App.run_all [App.LoadDataset; App.SelectFolder "B"] Sample.fresh in
  Page.press_save Page.Corrected_RGB true "No such file" None "Keep" "" w
  = (App.with_message w (Page.layer_error "No such file"), App.Raised App.NameError)
  /\ Page.press_save Page.Raw_RGB true "" None "Keep" "" w
     = App.save_annotation_and_next "B" "t1" "Keep" "" None w.
Proof.
  intros w.
  assert (Hb : App.Browsing (App.session w) "B"
                 {| App.path := "/w/_precomputed_data/B"; App.base_names := ["t1"; "t2"] |}).
  { split; [reflexivity |]. split; [reflexivity |]. split; [reflexivity |].
    split; [discriminate | reflexivity]. }
  assert (Hraw : Disk.read_file (App.disk w)
                   (PosixPath.components (App.cwd w)
                      (PosixPath.join "/w/_precomputed_data/B"
                         (Page.view_map "t1" Page.Raw_RGB))) <> None)
    by (vm_compute; discriminate).
  exact (conj
           (proj1 (save_needs_the_layer w "B" "t1" _ Page.Corrected_RGB true "No such file"
                     None "Keep" "" Hb eq_refl) eq_refl)
           (proj2 (save_needs_the_layer w "B" "t1" _ Page.Raw_RGB true "" None "Keep" ""
                     Hb eq_refl) Hraw eq_refl)).
Defined.

(* ===================================================================== *)
(** * More on the export: what the archive holds, and under which names *)
(* ===================================================================== *)

Section ArchiveNames.
Import App Page.

Lemma components_fold (dir a : string) (comps : list string) :
  PosixPath.isabs a = true ->
  List.Forall (fun c => Disk.valid_name c = true) comps ->
  PosixPath.isabs (List.fold_left PosixPath.join comps a) = true
  /\ PosixPath.components dir (List.fold_left PosixPath.join comps a)
     = (PosixPath.components dir a ++ comps)%list.
Proof.
  revert a. induction comps as [|c comps IH]; intros a Ha Hall; simpl.
  - split; [exact Ha | now rewrite app_nil_r].
  - inversion Hall as [|? ? Hc Hrest]; subst.
    destruct (IH (PosixPath.join a c) (isabs_join a c Ha) Hrest) as [H1 H2].
    split; [exact H1 |]. rewrite H2, (components_join dir a c Ha Hc).
    now rewrite <- app_assoc.
Qed.

Lemma common_prefix_len_app (l r : list string) :
  PosixPath.common_prefix_len l (l ++ r) = List.length l.
Proof.
  induction l as [|x l IH]; simpl; [now destruct r |].
  now rewrite String.eqb_refl, IH.
Qed.

(** Joining names onto a path that does not end in a slash. *)
Lemma fold_join_below (names : list string) :
  forall a : string,
    a <> "" -> PyStr.endswith a "/" = false ->
    List.Forall (fun c => Disk.valid_name c = true) names ->
    List.fold_left PosixPath.join names a = a +:+ below names.
Proof.
  induction names as [|n names IH]; intros a Ha He Hall.
  - simpl. induction a as [|x a IHa]; [reflexivity |].
    rewrite append_cons. f_equal. destruct a; [reflexivity |].
    apply IHa; [discriminate |].
    rewrite endswith_unfold in He.
    destruct (String.eqb (String x (String a a0)) "/"); [discriminate He | exact He].
  - inversion Hall as [|? ? Hn Hrest]; subst. simpl.
    destruct (valid_name_not_special _ Hn) as [Hn0 _].
    rewrite (join_plain a n Ha He (valid_name_relative _ Hn)).
    rewrite IH; [now rewrite !append_assoc | | | exact Hrest].
    + now apply append_nonempty_r, append_nonempty_r.
    + rewrite <- append_assoc, endswith_slash_append by exact Hn0.
      now apply valid_name_no_trailing_slash.
Qed.

(** The path relative to [dir] of what lies below [dir]. *)
Lemma relpath_below (dir first : string) (names : list string) :
  PosixPath.isabs dir = true ->
  List.Forall (fun c => Disk.valid_name c = true) (first :: names) ->
  PosixPath.relpath dir (List.fold_left PosixPath.join (first :: names) dir) dir
  = first +:+ below names.
Proof.
  intros Habs Hall. unfold PosixPath.relpath.
  destruct (components_fold dir dir (first :: names) Habs Hall) as [_ ->].
  rewrite common_prefix_len_app, Nat.sub_diag. simpl List.repeat. simpl List.app.
  rewrite List.skipn_app, List.skipn_all, Nat.sub_diag. simpl.
  inversion Hall as [|? ? Hf Hrest]; subst.
  apply fold_join_below; [| | exact Hrest].
  - now destruct (valid_name_not_special _ Hf).
  - now apply valid_name_no_trailing_slash.
Qed.

(** The archive name of a file below the masks root. *)
Lemma mask_member_name (w : world) (comps : list string) (name : string) :
  PosixPath.isabs (cwd w) = true ->
  List.Forall (fun c => Disk.valid_name c = true) (comps ++ [name]) ->
  member_name (cwd w) (List.fold_left PosixPath.join comps (MASKS_DIR w)) name
  = "_masks" +:+ below (comps ++ [name]).
Proof.
  intros Habs Hall. unfold member_name, MASKS_DIR.
  change (PosixPath.join
            (List.fold_left PosixPath.join comps (PosixPath.join (cwd w) "_masks")) name)
    with (List.fold_left PosixPath.join [name]
            (List.fold_left PosixPath.join comps (PosixPath.join (cwd w) "_masks"))).
  rewrite <- List.fold_left_app.
  change (List.fold_left PosixPath.join (comps ++ [name])
            (PosixPath.join (cwd w) "_masks"))
    with (List.fold_left PosixPath.join ("_masks" :: comps ++ [name]) (cwd w)).
  apply relpath_below; [exact Habs |]. now constructor.
Qed.

(** On a well-formed tree the names along a path to a file are valid. *)
Lemma read_file_valid (p : list string) :
  forall (n : Disk.node) (c : Disk.content),
    Disk.wf n = true -> Disk.read_file n p = Some c ->
    List.Forall (fun k => Disk.valid_name k = true) p.
Proof.
  induction p as [|k p IH]; intros n c Hwf Hread; [constructor |].
  destruct n as [? | es]; [discriminate Hread |].
  rewrite read_file_cons in Hread.
  destruct (PyDict.get es k) as [child|] eqn:E; [| discriminate Hread].
  apply get_In in E. destruct (wf_dir es Hwf) as [_ Hv].
  destruct (Hv _ _ E) as [Hk Hchild]. constructor; [exact Hk |].
  exact (IH child c Hchild Hread).
Qed.

(** Every member of the listing of a well-formed tree is a file of it. *)
Lemma tree_members_only (dir : string) (n : Disk.node) :
  forall (top : string) (m : string * payload),
    Disk.wf n = true ->
    In m (tree_members dir top n) ->
    exists comps name c,
      Disk.read_file n (comps ++ [name]) = Some c
      /\ m = (member_name dir (List.fold_left PosixPath.join comps top) name, Stored c).
Proof.
  induction n as [c | es IH] using node_ind; intros top m Hwf Hin; [destruct Hin |].
  destruct (wf_dir es Hwf) as [Hnd Hv]. simpl in Hin.
  apply in_app_or in Hin as [Hin | Hin]; apply in_flat_map in Hin as ([k child] & Hk & Hm).
  - destruct child as [c | ds]; [| destruct Hm].
    destruct Hm as [<- | []]. exists [], k, c. split; [| reflexivity].
    simpl. rewrite read_file_cons, (In_get es k _ Hnd Hk). reflexivity.
  - rewrite List.Forall_forall in IH.
    destruct (IH _ Hk (PosixPath.join top k) m (proj2 (Hv _ _ Hk)) Hm)
      as (comps & name & c & Hread & ->).
    exists (k :: comps), name, c. split; [| reflexivity].
    simpl. now rewrite read_file_cons, (In_get es k _ Hnd Hk).
Qed.

Lemma below_starts (names : list string) (name : string) :
  exists rest, "_masks" +:+ below (names ++ [name]) = "_masks/" +:+ rest.
Proof.
  destruct names as [|n names]; simpl.
  - exists (name +:+ ""). reflexivity.
  - exists (n +:+ below (names ++ [name])). reflexivity.
Qed.

(** The members for the masks root are its files, under their names. *)
Lemma masks_listing_iff (w : world) :
  PosixPath.isabs (cwd w) = true ->
  Disk.wf (disk w) = true ->
  forall m : string * payload,
    In m (masks_listing w) <->
    exists comps name c,
      Disk.read_file (disk w)
        (PosixPath.components (cwd w) (MASKS_DIR w) ++ comps ++ [name])
      = Some c
      /\ m = ("_masks" +:+ below (comps ++ [name]), Stored c).
Proof.
  intros Habs Hwf m. unfold masks_listing, Disk.read_file.
  destruct (Disk.resolve (disk w)
              (PosixPath.components (cwd w) (MASKS_DIR w))) as [n|] eqn:E.
  - pose proof (wf_resolve _ _ _ Hwf E) as Hn. split.
    + intros Hin.
      destruct (tree_members_only (cwd w) n (MASKS_DIR w) m Hn Hin)
        as (comps & name & c & Hread & ->).
      exists comps, name, c. rewrite resolve_app, E. split; [exact Hread |].
      f_equal. apply mask_member_name; [exact Habs |].
      exact (read_file_valid _ n c Hn Hread).
    + intros (comps & name & c & Hread & ->). rewrite resolve_app, E in Hread.
      rewrite <- (mask_member_name w comps name Habs
                    (read_file_valid _ n c Hn Hread)).
      now apply tree_members_In.
  - split; [intros [] |]. intros (comps & name & c & Hread & _).
    rewrite resolve_app, E in Hread. discriminate Hread.
Qed.

End ArchiveNames.

(** X14. On a well-formed disk the archive holds, after the spreadsheet,
    exactly the files under the masks root, each stored with its content
    under the name [_masks/...] made of [_masks] and the names on the way
    from the masks root to the file: nothing from the dataset or from
    anywhere else goes in, and no mask file can take the place of
    [hsd_annotations.xlsx]. *)
Theorem export_holds_exactly_the_masks (w : App.world) :
  PosixPath.isabs (App.cwd w) = true ->
  Disk.wf (App.disk w) = true ->
  exists masks : App.archive,
    App.create_export_zip w
    = (w, App.Done (("hsd_annotations.xlsx",
                     App.to_excel (App.annotations (App.session w))) :: masks))
    /\ (forall m : string * App.payload,
          In m masks <->
          exists comps name c,
            Disk.read_file (App.disk w)
              (PosixPath.components (App.cwd w) (App.MASKS_DIR w) ++ comps ++ [name])
            = Some c
            /\ m = ("_masks" +:+ Page.below (comps ++ [name]), App.Stored c))
    /\ List.Forall (fun m => exists rest, fst m = "_masks/" +:+ rest) masks.
Proof.
  intros Habs Hwf. exists (App.masks_listing w).
  split; [exact (create_export_zip_eq w Habs Hwf) |].
  pose proof (masks_listing_iff w Habs Hwf) as Hiff.
  split; [exact Hiff |].
  apply List.Forall_forall. intros m Hin. apply Hiff in Hin as (comps & name & c & _ & ->).
  apply below_starts.
Qed.

Lemma export_holds_exactly_the_masks_witness :
  exists masks : App.archive,
    App.create_export_zip Sample.annotated
    = (Sample.annotated,
       App.Done (("hsd_annotations.xlsx",
                  App.to_excel (App.annotations (App.session Sample.annotated)))
                   :: masks))
    /\ (In ("_masks/A/s1_mask.png", App.Stored (Disk.PngRGBA Sample.one_pixel)) masks)
    /\ List.Forall (fun m => exists rest, fst m = "_masks/" +:+ rest) masks.
Proof.
  destruct (export_holds_exactly_the_masks Sample.annotated eq_refl eq_refl)
    as (masks & Hrun & Hiff & Hnames).
  exists masks. refine (conj Hrun (conj _ Hnames)).
  apply (proj2 (Hiff _)). exists ["A"], "s1_mask.png", (Disk.PngRGBA Sample.one_pixel).
  split; reflexivity.
Defined.

(* ===================================================================== *)
(** * The disk stays well-formed *)
(* ===================================================================== *)

Section DiskKept.
Import App Page.

Lemma NoDup_distinct (names : list string) :
  List.NoDup names -> Disk.distinct names = true.
Proof.
  induction names as [|x names IH]; simpl; [reflexivity |].
  intros H. inversion H as [|? ? Hx Hnd]; subst. rewrite (IH Hnd), andb_true_r.
  destruct (PyList.contains names x) eqn:E; [| reflexivity].
  apply contains_In in E. contradiction.
Qed.

Lemma wf_dir_intro (es : list (string * Disk.node)) :
  List.NoDup (PyDict.keys es) ->
  (forall name child, In (name, child) es ->
     Disk.valid_name name = true /\ Disk.wf child = true) ->
  Disk.wf (Disk.Dir es) = true.
Proof.
  intros Hnd Hall. unfold PyDict.keys in Hnd. simpl.
  rewrite (NoDup_distinct _ Hnd), andb_true_r.
  apply andb_true_intro. split; apply forallb_forall.
  - intros name Hin. apply in_map_iff in Hin as ([k child] & <- & Hin).
    exact (proj1 (Hall _ _ Hin)).
  - intros [k child] Hin. exact (proj2 (Hall _ _ Hin)).
Qed.

Lemma set_wf (es : list (string * Disk.node)) (k : string) (child : Disk.node) :
  Disk.wf (Disk.Dir es) = true ->
  Disk.valid_name k = true ->
  Disk.wf child = true ->
  Disk.wf (Disk.Dir (PyDict.set es k child)) = true.
Proof.
  intros Hwf Hk Hchild. destruct (wf_dir es Hwf) as [Hnd Hall].
  apply wf_dir_intro; [now apply keys_set_NoDup |].
  intros name c Hin. apply In_set in Hin as [[-> ->] | Hin]; [now split |].
  exact (Hall _ _ Hin).
Qed.

Lemma makedirs_wf (comps : list string) :
  forall n n' : Disk.node,
    Disk.wf n = true ->
    List.Forall (fun c => Disk.valid_name c = true) comps ->
    Disk.makedirs n comps = Some n' ->
    Disk.wf n' = true.
Proof.
  induction comps as [|c comps IH]; intros [? | es] n' Hwf Hall; simpl;
    try discriminate.
  - now intros [= <-].
  - inversion Hall as [|? ? Hc Hrest]; subst.
    destruct (Disk.makedirs (default (Disk.Dir []) (PyDict.get es c)) comps)
      as [child'|] eqn:E; [| discriminate].
    intros [= <-]. apply set_wf; [exact Hwf | exact Hc |].
    refine (IH _ _ _ Hrest E).
    destruct (PyDict.get es c) as [child|] eqn:Eg; [| reflexivity].
    apply get_In in Eg. exact (proj2 (proj2 (wf_dir es Hwf) _ _ Eg)).
Qed.

Lemma write_file_wf (comps : list string) :
  forall (n n' : Disk.node) (c : Disk.content),
    Disk.wf n = true ->
    List.Forall (fun k => Disk.valid_name k = true) comps ->
    Disk.write_file n comps c = Some n' ->
    Disk.wf n' = true.
Proof.
  induction comps as [|name rest IH]; intros n n' c Hwf Hall.
  - destruct n; discriminate.
  - inversion Hall as [|? ? Hname Hrest]; subst.
    rewrite write_file_unfold. destruct n as [? | es]; [discriminate |].
    destruct rest as [|k rest].
    + destruct (PyDict.get es name) as [[? | ?]|]; try discriminate;
        intros [= <-]; now apply set_wf.
    + destruct (PyDict.get es name) as [child|] eqn:Eg; [| discriminate].
      destruct (Disk.write_file child (k :: rest) c) as [child'|] eqn:E;
        [| discriminate].
      intros [= <-]. apply set_wf; [exact Hwf | exact Hname |].
      apply get_In in Eg.
      exact (IH child child' c (proj2 (proj2 (wf_dir es Hwf) _ _ Eg)) Hrest E).
Qed.

(** *** The components of a path are names *)

Lemma valid_name_intro (s : string) :
  s <> "" -> s <> "." -> s <> ".." -> PosixPath.has_slash s = false ->
  Disk.valid_name s = true.
Proof.
  intros H1 H2 H3 Hs. unfold Disk.valid_name. rewrite (split_no_slash s Hs).
  apply String.eqb_neq in H1, H2, H3. now rewrite H1, H2, H3.
Qed.

Lemma split_parts_no_slash (p : string) :
  List.Forall (fun c => PosixPath.has_slash c = false) (PosixPath.split p).
Proof.
  induction p as [|x p IH]; simpl; [repeat constructor |].
  destruct (Ascii.eqb x PosixPath.sep) eqn:E; [now constructor |].
  destruct (PosixPath.split p) as [|w ws]; [repeat constructor; simpl; now rewrite E |].
  inversion IH as [|? ? Hw Hws]; subst. constructor; [| exact Hws].
  simpl. now rewrite E.
Qed.

Lemma norm_go_valid (comps : list string) :
  forall stack : list string,
    List.Forall (fun c => Disk.valid_name c = true) stack ->
    List.Forall (fun c => PosixPath.has_slash c = false) comps ->
    List.Forall (fun c => Disk.valid_name c = true) (PosixPath.norm_go stack comps).
Proof.
  induction comps as [|c comps IH]; intros stack Hstack Hcomps; simpl.
  - now apply List.Forall_rev.
  - inversion Hcomps as [|? ? Hc Hrest]; subst.
    destruct (String.eqb_spec c "") as [-> | H1]; simpl; [now apply IH |].
    destruct (String.eqb_spec c ".") as [-> | H2]; simpl; [now apply IH |].
    destruct (String.eqb_spec c "..") as [-> | H3].
    + apply IH; [| exact Hrest]. destruct stack as [|x stack]; [constructor |].
      now inversion Hstack.
    + apply IH; [| exact Hrest]. constructor; [| exact Hstack].
      now apply valid_name_intro.
Qed.

Lemma components_valid (dir p : string) :
  List.Forall (fun c => Disk.valid_name c = true) (PosixPath.components dir p).
Proof.
  unfold PosixPath.components. apply norm_go_valid; [constructor |].
  apply split_parts_no_slash.
Qed.

(** *** What the app writes *)

Lemma persist_mask_wf (w : world) (folder base_name : string)
    (mask_data : option Disk.pixels) :
  Disk.wf (disk w) = true ->
  Disk.wf (disk (fst (persist_mask folder base_name mask_data w))) = true.
Proof.
  intros Hwf. destruct mask_data as [px|]; [| exact Hwf].
  unfold persist_mask, bind, get_world, os_makedirs, image_save, bind, get_world,
    or_raise, put_disk, ret, raise. simpl.
  destruct (Disk.makedirs _ _) as [d1|] eqn:E1; simpl; [| exact Hwf].
  pose proof (makedirs_wf _ _ _ Hwf (components_valid _ _) E1) as Hwf1.
  destruct (Disk.write_file _ _ _) as [d2|] eqn:E2; simpl; [| exact Hwf1].
  exact (write_file_wf _ _ _ _ Hwf1 (components_valid _ _) E2).
Qed.

Lemma save_disk (w : world) (folder base_name tag notes : string)
    (mask_data : option Disk.pixels) :
  disk (fst (save_annotation_and_next folder base_name tag notes mask_data w))
  = disk (fst (persist_mask folder base_name mask_data w))
  /\ cwd (fst (save_annotation_and_next folder base_name tag notes mask_data w)) = cwd w.
Proof.
  pose (c := {| call_base := base_name; call_tag := tag; call_notes := notes;
                call_mask := mask_data |}).
  change (save_annotation_and_next folder base_name tag notes mask_data)
    with (save_call_run folder c).
  change (persist_mask folder base_name mask_data)
    with (persist_mask folder (call_base c) (call_mask c)).
  destruct (persist_mask_frame w folder (call_base c) (call_mask c)) as (d & Hfst & _).
  destruct (persist_mask folder (call_base c) (call_mask c) w) as [w1 [status | | e]]
    eqn:Hp; simpl in Hfst; subst w1.
  - destruct (save_records w _ folder c status Hp) as (Hc & Hd & _). now split.
  - unfold save_call_run, save_annotation_and_next, bind. rewrite Hp. now split.
  - rewrite (save_persist_failed _ _ _ _ _ Hp). now split.
Qed.

Lemma kept_run (a : action) (w : world) :
  inside a ->
  Disk.wf (disk w) = true ->
  Disk.wf (disk (fst (run a w))) = true /\ cwd (fst (run a w)) = cwd w.
Proof.
  intros Ha Hwf. destruct a as [| f | | tag notes m | | d]; simpl.
  - unfold on_load_dataset, scan_png_directory, bind, get_world, show, put_session.
    simpl. destruct (negb _); [now split |].
    destruct (PyDict.keys _); now split.
  - unfold on_select_folder, bind, get_session, put_session, st_rerun, ret. simpl.
    destruct (_ && _); [| now split]. destruct (negb _); now split.
  - unfold on_previous, bind, get_session, put_session, st_rerun, ret. simpl.
    destruct (scan_complete (session w)); [| now split].
    pose proof (render_frame w) as Hf.
    destruct (render w) as [w1 [v | | e]]; simpl in *; subst w1; try now split.
    destruct (negb _); now split.
  - unfold on_save_next, bind, get_session. simpl.
    destruct (scan_complete (session w)); [| now split].
    pose proof (render_frame w) as Hf.
    destruct (render w) as [w1 [v | | e]]; simpl in *; subst w1; try now split.
    unfold or_raise, ret, raise. destruct m as [image_data|]; simpl; [| now split].
    match goal with
    | |- context [save_annotation_and_next ?f ?b ?t ?n ?md w] =>
        destruct (save_disk w f b t n md) as [Hd Hc]; rewrite Hd, Hc;
        split; [now apply persist_mask_wf | reflexivity]
    end.
  - unfold on_export, bind, get_session, ret. simpl.
    destruct (_ && _); [| now split].
    pose proof (create_export_zip_frame w) as Hf.
    destruct (create_export_zip w) as [w1 [a | | e]]; simpl in *; subst w1; now split.
  - now split.
Qed.

Lemma kept_run_all (acts : list action) (w : world) :
  List.Forall inside acts ->
  Disk.wf (disk w) = true ->
  Disk.wf (disk (run_all acts w)) = true /\ cwd (run_all acts w) = cwd w.
Proof.
  revert w. induction acts as [|a acts IH]; intros w Hall Hwf; simpl; [now split |].
  inversion Hall as [|? ? Ha Hrest]; subst.
  destruct (kept_run a w Ha Hwf) as [Hwf1 Hc1].
  destruct (IH _ Hrest Hwf1) as [Hwf2 Hc2]. split; [exact Hwf2 | congruence].
Qed.

End DiskKept.

(* ===================================================================== *)
(** * Export in a running session *)
(* ===================================================================== *)

Section ExportSession.
Import App Page.

Lemma append_empty_r (s : string) : s +:+ "" = s.
Proof. induction s as [|c s IH]; [reflexivity |]. now rewrite append_cons, IH. Qed.

Lemma mask_target (w : world) (folder base_name : string) :
  PosixPath.isabs (cwd w) = true ->
  Disk.valid_name folder = true ->
  Disk.valid_name (base_name +:+ "_mask.png") = true ->
  PosixPath.components (cwd w) (mask_path w folder base_name)
  = (PosixPath.components (cwd w) (MASKS_DIR w)
     ++ [folder] ++ [base_name +:+ "_mask.png"])%list.
Proof.
  intros Habs Hf Hn. rewrite (mask_path_components w folder base_name Habs Hn).
  unfold mask_dir.
  rewrite (components_join (cwd w) (MASKS_DIR w) folder (isabs_masks_dir w Habs) Hf).
  now rewrite <- app_assoc.
Qed.

End ExportSession.

(** X15. Export works in every session. From a well-formed disk and an
    absolute working directory, after any user actions (and changes of
    the disk that leave it well-formed), the disk is still well-formed,
    the working directory is the same, and [create_export_zip] returns an
    archive, without raising and without changing anything, that starts
    with the spreadsheet of the table as it is then. *)
Theorem export_works_in_every_session (dir : string) (d : Disk.node)
    (acts : list App.action) :
  PosixPath.isabs dir = true ->
  Disk.wf d = true ->
  List.Forall Page.inside acts ->
  let w := App.run_all acts (App.start dir d) in
  Disk.wf (App.disk w) = true
  /\ App.cwd w = dir
  /\ exists masks : App.archive,
       App.create_export_zip w
       = (w, App.Done (("hsd_annotations.xlsx",
                        App.to_excel (App.annotations (App.session w))) :: masks))
       /\ snd (App.run App.Export w) = App.Done tt.
Proof.
  intros Habs Hwf Hall w.
  destruct (kept_run_all acts (App.start dir d) Hall Hwf) as [Hwf' Hcwd].
  fold w in Hwf', Hcwd. simpl in Hcwd.
  split; [exact Hwf' |]. split; [exact Hcwd |].
  assert (Habs' : PosixPath.isabs (App.cwd w) = true) by now rewrite Hcwd.
  exists (App.masks_listing w).
  pose proof (create_export_zip_eq w Habs' Hwf') as Hrun.
  split; [exact Hrun |].
  unfold App.run, App.on_export, App.bind, App.get_session, App.ret. cbn [fst snd].
  destruct (_ && _); [| reflexivity]. now rewrite Hrun.
Qed.

Lemma export_works_in_every_session_witness :
  exists masks : App.archive,
    App.create_export_zip Sample.annotated
    = (Sample.annotated,
       App.Done (("hsd_annotations.xlsx",
                  App.to_excel (App.annotations (App.session Sample.annotated)))
                   :: masks)).
Proof.
  assert (Hall : List.Forall Page.inside
                   [App.LoadDataset;
                    App.SaveNext "Keep" "ok" (Some (Some Sample.one_pixel))])
    by (repeat constructor).
  destruct (export_works_in_every_session "/w" Sample.dataset _ eq_refl eq_refl Hall)
    as (_ & _ & masks & Hrun & _).
  exists masks. exact Hrun.
Defined.

(** X16. From Save to Export. After a Save that wrote a mask, on a
    well-formed disk, the export holds that mask, with the pixels the
    canvas returned (as [uint8]), under the name
    [_masks/{folder}/{base}_mask.png], and the last row of its sheet is
    the row of the save, mask status [Yes], each value as the worksheet
    writer stores it: as the text itself where folder, base name, tag and
    notes are plain strings. *)
Theorem saved_mask_is_exported (w : App.world) (folder base_name tag notes : string)
    (px : Disk.pixels) :
  PosixPath.isabs (App.cwd w) = true ->
  Disk.wf (App.disk w) = true ->
  Disk.valid_name folder = true ->
  Disk.valid_name (base_name +:+ "_mask.png") = true ->
  Disk.dirs_free (App.disk w) (App.mask_dir w folder) = true ->
  Disk.not_a_dir (App.disk w)
    (PosixPath.components (App.cwd w) (App.mask_path w folder base_name)) = true ->
  let w1 := fst (App.save_annotation_and_next folder base_name tag notes (Some px) w) in
  let saved := List.map XlsxWriter.write [folder; base_name; tag; "Yes"; notes] in
  exists (rows : list (list XlsxWriter.cell)) (masks : App.archive),
    App.create_export_zip w1
    = (w1, App.Done
             (("hsd_annotations.xlsx",
               App.Xlsx [("Annotations",
                          (List.map XlsxWriter.write App.columns
                             :: rows ++ [saved])%list)])
                :: masks))
    /\ (XlsxWriter.plain folder = true -> XlsxWriter.plain base_name = true ->
        XlsxWriter.plain tag = true -> XlsxWriter.plain notes = true ->
        saved = List.map XlsxWriter.Str [folder; base_name; tag; "Yes"; notes])
    /\ In ("_masks/" +:+ folder +:+ "/" +:+ base_name +:+ "_mask.png",
           App.Stored (Disk.PngRGBA (App.astype_uint8 px))) masks.
Proof.
  intros Habs Hwf Hfolder Hname Hfree Hnd w1 saved.
  destruct (save_with_mask w folder base_name tag notes px Habs Hname Hfree Hnd)
    as (Hc1 & Ha1 & Hread1 & _).
  fold w1 in Hc1, Ha1, Hread1.
  destruct (save_disk w folder base_name tag notes (Some px)) as [Hd _].
  fold w1 in Hd.
  assert (Hwf1 : Disk.wf (App.disk w1) = true)
    by (rewrite Hd; now apply persist_mask_wf).
  assert (Habs1 : PosixPath.isabs (App.cwd w1) = true) by now rewrite Hc1.
  set (row := {| App.Folder := folder; App.Base_Filename := base_name;
                 App.Tag := tag; App.Mask_Saved := "Yes"; App.Notes := notes |}).
  exists (List.map (fun r => List.map XlsxWriter.write (App.row_cells r))
            (List.filter (fun x => negb (App.same_key x row))
               (App.drop_duplicates_keep_last (App.annotations (App.session w))))),
         (App.masks_listing w1).
  split; [| split].
  - rewrite (create_export_zip_eq w1 Habs1 Hwf1), Ha1.
    change (App.upsert (App.annotations (App.session w)) folder base_name tag notes "Yes")
      with (App.upsert_row (App.annotations (App.session w)) row).
    rewrite upsert_row_shape. unfold App.to_excel. now rewrite List.map_app.
  - intros H1 H2 H3 H4. subst saved. simpl.
    now rewrite (write_plain _ H1), (write_plain _ H2), (write_plain _ H3),
      (write_plain _ H4).
  - apply (masks_listing_iff w1 Habs1 Hwf1).
    exists [folder], (base_name +:+ "_mask.png"), (Disk.PngRGBA (App.astype_uint8 px)).
    split.
    + rewrite (mask_target w folder base_name Habs Hfolder Hname) in Hread1.
      unfold App.MASKS_DIR in *. now rewrite Hc1.
    + f_equal. simpl. now rewrite append_empty_r.
Qed.

Lemma saved_mask_is_exported_witness :
  let w1 := fst (App.save_annotation_and_next "A" "s1" "Keep" "ok"
                   (Some Sample.one_pixel) Sample.loaded) in
  exists (rows : list (list XlsxWriter.cell)) (masks : App.archive),
    App.create_export_zip w1
    = (w1, App.Done
             (("hsd_annotations.xlsx",
               App.Xlsx [("Annotations",
                          (List.map XlsxWriter.write App.columns
                             :: rows
                             ++ [List.map XlsxWriter.Str ["A"; "s1"; "Keep"; "Yes"; "ok"]])%list)])
                :: masks))
    /\ In ("_masks/A/s1_mask.png", App.Stored (Disk.PngRGBA Sample.one_pixel)) masks.
Proof.
  destruct (saved_mask_is_exported Sample.loaded "A" "s1" "Keep" "ok" Sample.one_pixel
              eq_refl eq_refl eq_refl eq_refl eq_refl eq_refl)
    as (rows & masks & Hrun & Hplain & Hin).
  exists rows, masks. rewrite <- (Hplain eq_refl eq_refl eq_refl eq_refl).
  exact (conj Hrun Hin).
Defined.

(* ===================================================================== *)
(** * The form after a Save *)
(* ===================================================================== *)

Section FormFacts.
Import App.

(** The arguments of the form are the prefill. *)
Lemma arguments_prefill (t : list annotation) (folder current_base : string) :
  App.selected_tag (metadata_prefill t folder current_base)
  = List.nth_error tag_options (fst (Form.arguments t folder current_base))
  /\ notes_value (metadata_prefill t folder current_base)
     = snd (Form.arguments t folder current_base).
Proof. split; reflexivity. Qed.

(** With no widget state the form shows its arguments. *)
Lemma fresh_form (t : list annotation) (folder current_base : string) :
  Form.metadata_form t folder current_base []
  = {| Form.selected_tag :=
         List.nth (fst (Form.arguments t folder current_base)) tag_options "";
       Form.notes_input := snd (Form.arguments t folder current_base) |}.
Proof. reflexivity. Qed.

End FormFacts.

(** C8. For a sample that was never saved the form does not always fall
    back to the first tag option and empty notes. Load the dataset, go to
    folder [B], choose Cancerous and type [dark] on [B/t1], press
    Save & Next: the row of [B/t1] is written and [B/t2] comes on display;
    the lookup for [B/t2] finds nothing and the script passes index 0 and
    empty notes, the same arguments as for [B/t1] before, so the two
    widgets are the same widgets and show what was entered there,
    Cancerous and [dark], where a form without widget state shows Benign
    and empty notes. *)
Theorem form_keeps_entries_for_unsaved_sample :
  let w := App.run_all [App.LoadDataset; App.SelectFolder "B"] Sample.fresh in
  let t := App.annotations (App.session w) in
  let ws := Form.type_notes "dark" t "B" "t1" (Form.choose_tag "Cancerous" t "B" "t1" []) in
  let w' := fst (fst (Form.save_pressed (Some None) w ws)) in
  let ws' := snd (Form.save_pressed (Some None) w ws) in
  let t' := App.annotations (App.session w') in
  Page.displayed (App.session w) = Some ("B", "t1")
  /\ snd (fst (Form.save_pressed (Some None) w ws)) = App.Rerun
  /\ t' = [{| App.Folder := "B"; App.Base_Filename := "t1"; App.Tag := "Cancerous";
              App.Mask_Saved := "No"; App.Notes := "dark" |}]
  /\ Page.displayed (App.session w') = Some ("B", "t2")
  /\ App.lookup t' "B" "t2" = []
  /\ Form.arguments t' "B" "t2" = (O, "")
  /\ Form.metadata_form t' "B" "t2" ws'
     = {| Form.selected_tag := "Cancerous"; Form.notes_input := "dark" |}
  /\ Form.metadata_form t' "B" "t2" []
     = {| Form.selected_tag := "Benign"; Form.notes_input := "" |}.
Proof. vm_compute. repeat split. Qed.
